(** * Schema generator: the cleaning and validation core of [src/lib/utils.ts]
      and the opening-hours extraction of [src/lib/scraper.ts]

    A shallow embedding of the TypeScript sources.

    - Strings are Rocq strings, the UTF-8 bytes of the text.  Case mapping,
      white space and word characters are those of the ASCII range: on ASCII
      text they are JavaScript's, beyond it JavaScript knows more white
      space and more letters, and the statements about arbitrary text say
      that the text is ASCII.
    - Regular expressions are terms of a small AST, written after the
      literals of the source, and are run by a backtracking matcher with
      the first-success order of JavaScript.
    - Numbers are IEEE-754 binary64 values ([spec_float] at precision 53);
      [parseFloat], [parseInt] and the printing of numbers follow ECMA-262.
    - Documents are trees of JavaScript values; an object is the list of
      its own properties in insertion order.  [cleanObject] updates its
      argument in place and returns a rebuilt tree: the embedding returns
      the tree.  A [TypeError] is an outcome of its own.
    - The object literals used as dictionaries are finite maps of their own
      properties; a lookup also finds the members that every object
      inherits from [Object.prototype].
    - Form data is an object whose fields hold any values; a form of texts
      is a finite map from field names to strings.
    - [new URL(s)], the URL parser of the platform, is a parameter.
    - Console output leaves no trace in the results and is left out. *)

From Stdlib Require Import ZArith List String Ascii Bool Lia.
From Stdlib Require Import Floats.SpecFloat.
From stdpp Require Import gmap strings.

Local Open Scope string_scope.
Local Open Scope bool_scope.

(** ** JavaScript strings *)

Module JsString.

Definition code (c : ascii) : nat := nat_of_ascii c.

Definition in_range (lo hi : nat) (c : ascii) : bool :=
  (lo <=? code c)%nat && (code c <=? hi)%nat.

(** [\d], [\s] and [\w] of the regular expressions, [A-Z] and [a-z]. *)
Definition is_digit (c : ascii) : bool := in_range 48 57 c.
Definition is_upper (c : ascii) : bool := in_range 65 90 c.
Definition is_lower (c : ascii) : bool := in_range 97 122 c.
Definition is_alpha (c : ascii) : bool := is_upper c || is_lower c.
Definition is_space (c : ascii) : bool :=
  in_range 9 13 c || (code c =? 32)%nat.
Definition is_word (c : ascii) : bool :=
  is_alpha c || is_digit c || (code c =? 95)%nat.

Definition lower_char (c : ascii) : ascii :=
  if is_upper c then ascii_of_nat (code c + 32) else c.
Definition upper_char (c : ascii) : ascii :=
  if is_lower c then ascii_of_nat (code c - 32) else c.

(** [s.toLowerCase()], [s.toUpperCase()] *)
Fixpoint toLowerCase (s : string) : string :=
  match s with
  | EmptyString => EmptyString
  | String c s' => String (lower_char c) (toLowerCase s')
  end.
Fixpoint toUpperCase (s : string) : string :=
  match s with
  | EmptyString => EmptyString
  | String c s' => String (upper_char c) (toUpperCase s')
  end.

Fixpoint trimStart (s : string) : string :=
  match s with
  | String c s' => if is_space c then trimStart s' else s
  | EmptyString => EmptyString
  end.

(** [trimEnd] keeps a character when it is not white space or when
    something is left after it. *)
Fixpoint trimEnd (s : string) : string :=
  match s with
  | EmptyString => EmptyString
  | String c s' =>
      match trimEnd s' with
      | EmptyString => if is_space c then EmptyString else String c EmptyString
      | t => String c t
      end
  end.

(** [s.trim()] *)
Definition trim (s : string) : string := trimEnd (trimStart s).

(** [s.startsWith(p)] *)
Definition startsWith (s p : string) : bool := String.prefix p s.

(** [s.includes(p)] *)
Fixpoint includes (s p : string) : bool :=
  String.prefix p s ||
  match s with
  | EmptyString => false
  | String _ s' => includes s' p
  end.

(** [s.slice(i)] and [s.slice(i, j)] for [0 <= i <= j]. *)
Fixpoint sliceFrom (i : nat) (s : string) : string :=
  match i, s with
  | O, _ => s
  | S i', String _ s' => sliceFrom i' s'
  | S _, EmptyString => EmptyString
  end.
Fixpoint take (n : nat) (s : string) : string :=
  match n, s with
  | S n', String c s' => String c (take n' s')
  | _, _ => EmptyString
  end.
Definition slice (i j : nat) (s : string) : string := take (j - i) (sliceFrom i s).

(** [s.replace(/[^p]/g, '')]: the characters of [s] that satisfy [p]. *)
Fixpoint keep (p : ascii -> bool) (s : string) : string :=
  match s with
  | EmptyString => EmptyString
  | String c s' => if p c then String c (keep p s') else keep p s'
  end.

(** [s.split('\n')] *)
Fixpoint splitLines_go (cur : string) (s : string) : list string :=
  match s with
  | EmptyString => [String.rev cur]
  | String c s' =>
      if (code c =? 10)%nat then String.rev cur :: splitLines_go EmptyString s'
      else splitLines_go (String c cur) s'
  end.
Definition splitLines (s : string) : list string := splitLines_go EmptyString s.

(** [s.padStart(2, '0')] *)
Definition padStart2 (s : string) : string :=
  match String.length s with
  | 0%nat => "00"
  | 1%nat => "0" ++ s
  | _ => s
  end.

(** The last character of a string, if any. *)
Fixpoint last_char (s : string) : option ascii :=
  match s with
  | EmptyString => None
  | String c EmptyString => Some c
  | String _ s' => last_char s'
  end.

End JsString.

(** ** Regular expressions

    The constructs the sources use: character classes, greedy bounded or
    unbounded repetition of a class, sequence, ordered alternation (an
    optional part is [x|empty]), capture groups, [\b], [^] and [$].  Matching
    is backtracking with first-success semantics, as in JavaScript. *)

Module Regex.
Import JsString.

Inductive regex : Type :=
| RChr (p : ascii -> bool)
| RRep (p : ascii -> bool) (lo : nat) (hi : option nat)
| REps
| RSeq (a b : regex)
| RAlt (a b : regex)
| RGrp (i : nat) (a : regex)
| RBow
| RBol
| REol.

Record mstate : Type := MState {
  m_prev : option ascii;          (* the character before the position *)
  m_rest : string;                (* the input from the position on *)
  m_caps : list (nat * string)    (* captures, the latest first *)
}.

Definition word_before (st : mstate) : bool :=
  match m_prev st with Some c => is_word c | None => false end.
Definition word_after (st : mstate) : bool :=
  match m_rest st with String c _ => is_word c | EmptyString => false end.

Definition below (n : nat) (hi : option nat) : bool :=
  match hi with Some h => (n <? h)%nat | None => true end.

(** Greedy repetition of a class: take as many characters as allowed,
    then give them back one at a time while the continuation fails. *)
Fixpoint rep {A : Type} (p : ascii -> bool) (lo : nat) (hi : option nat)
    (n : nat) (prev : option ascii) (s : string) (caps : list (nat * string))
    (k : mstate -> option A) : option A :=
  let stop := if (lo <=? n)%nat then k (MState prev s caps) else None in
  match s with
  | String c s' =>
      if p c && below n hi then
        match rep p lo hi (S n) (Some c) s' caps k with
        | Some x => Some x
        | None => stop
        end
      else stop
  | EmptyString => stop
  end.

Definition consumed (before after : string) : string :=
  take (String.length before - String.length after) before.

Fixpoint rmatch {A : Type} (r : regex) (st : mstate)
    (k : mstate -> option A) : option A :=
  match r with
  | RChr p =>
      match m_rest st with
      | String c s' => if p c then k (MState (Some c) s' (m_caps st)) else None
      | EmptyString => None
      end
  | RRep p lo hi => rep p lo hi 0 (m_prev st) (m_rest st) (m_caps st) k
  | REps => k st
  | RSeq a b => rmatch a st (fun st' => rmatch b st' k)
  | RAlt a b =>
      match rmatch a st k with
      | Some x => Some x
      | None => rmatch b st k
      end
  | RGrp i a =>
      rmatch a st (fun st' =>
        k (MState (m_prev st') (m_rest st')
                  ((i, consumed (m_rest st) (m_rest st')) :: m_caps st')))
  | RBow => if xorb (word_before st) (word_after st) then k st else None
  | RBol => match m_prev st with None => k st | Some _ => None end
  | REol => match m_rest st with EmptyString => k st | String _ _ => None end
  end.

(** A successful match: the text matched and the captures. *)
Record found : Type := Found {
  f_text : string;
  f_caps : list (nat * string);
  f_prev : option ascii;   (* character before the end of the match *)
  f_rest : string          (* input after the match *)
}.

(** Match at the current position. *)
Definition match_here (r : regex) (prev : option ascii) (s : string) : option found :=
  rmatch r (MState prev s [])
    (fun st => Some (Found (consumed s (m_rest st)) (m_caps st) (m_prev st) (m_rest st))).

(** The leftmost match at or after the current position. *)
Fixpoint search (r : regex) (prev : option ascii) (s : string) : option found :=
  match match_here r prev s with
  | Some f => Some f
  | None =>
      match s with
      | EmptyString => None
      | String c s' => search r (Some c) s'
      end
  end.

(** [r.test(s)] with [lastIndex] at 0, and the first element of [s.match(r)]. *)
Definition test (r : regex) (s : string) : bool :=
  match search r None s with Some _ => true | None => false end.
Definition first_match (r : regex) (s : string) : option found := search r None s.

(** The match must cover the whole input: the pattern between [^] and [$]. *)
Definition full_match (r : regex) (s : string) : bool :=
  match rmatch r (MState None s [])
          (fun st => match m_rest st with EmptyString => Some tt | _ => None end) with
  | Some _ => true
  | None => false
  end.

(** Capture [i] of a match ([undefined] when the group took no part). *)
Fixpoint cap (i : nat) (caps : list (nat * string)) : option string :=
  match caps with
  | [] => None
  | (j, s) :: rest => if (i =? j)%nat then Some s else cap i rest
  end.

(** Successive matches of a global pattern, as a loop over [r.exec(s)];
    [fuel] bounds the number of matches by the input length. *)
Fixpoint exec_all (fuel : nat) (r : regex) (prev : option ascii) (s : string) : list found :=
  match fuel with
  | O => []
  | S fuel' =>
      match search r prev s with
      | None => []
      | Some f =>
          match f_text f with
          | EmptyString => [f]
          | _ => f :: exec_all fuel' r (f_prev f) (f_rest f)
          end
      end
  end.

(** Pattern builders. *)
Definition chr (c : ascii) : regex := RChr (Ascii.eqb c).
Definition chr_i (c : ascii) : regex :=
  RChr (fun x => Ascii.eqb (lower_char x) (lower_char c)).
Fixpoint lit (s : string) : regex :=
  match s with
  | EmptyString => REps
  | String c s' => RSeq (chr c) (lit s')
  end.
Fixpoint lit_i (s : string) : regex :=
  match s with
  | EmptyString => REps
  | String c s' => RSeq (chr_i c) (lit_i s')
  end.
Definition opt (r : regex) : regex := RAlt r REps.
Fixpoint seq (rs : list regex) : regex :=
  match rs with
  | [] => REps
  | [r] => r
  | r :: rs' => RSeq r (seq rs')
  end.
Fixpoint alt (rs : list regex) : regex :=
  match rs with
  | [] => RAlt REps REps
  | [r] => r
  | r :: rs' => RAlt r (alt rs')
  end.
Definition times (p : ascii -> bool) (n : nat) : regex := RRep p n (Some n).
Definition star (p : ascii -> bool) : regex := RRep p 0 None.
Definition plus (p : ascii -> bool) : regex := RRep p 1 None.
Definition is_not (c : ascii) (x : ascii) : bool := negb (Ascii.eqb x c).

End Regex.

(** ** JavaScript numbers

    The Number type is IEEE-754 binary64: [spec_float] with precision 53 and
    exponent bound 1024, rounded to nearest-even.  [parseFloat], [parseInt]
    and [Number.prototype.toString] follow ECMA-262: the longest numeric
    prefix is read exactly and rounded once; printing yields the shortest
    decimal that reads back as the same value. *)

Module JsNumber.
Import JsString.
Local Open Scope Z_scope.

Definition number : Type := spec_float.

Definition prec : Z := 53.
Definition emax : Z := 1024.

Definition NaN : number := S754_nan.
Definition of_Z (z : Z) : number := binary_normalize prec emax z 0 false.

Definition isNaN (x : number) : bool :=
  match x with S754_nan => true | _ => false end.
Definition ltb (x y : number) : bool := SFltb x y.
Definition gtb (x y : number) : bool := SFltb y x.
Definition eqb (x y : number) : bool := SFeqb x y.

(** [!!x] for a number: neither zero nor NaN. *)
Definition truthy (x : number) : bool :=
  match x with
  | S754_zero _ | S754_nan => false
  | _ => true
  end.

Definition digit_val (c : ascii) : Z := Z.of_nat (code c) - 48.

Fixpoint digits_to_Z (acc : Z) (s : string) : Z :=
  match s with
  | EmptyString => acc
  | String c s' => digits_to_Z (10 * acc + digit_val c) s'
  end.

(** The longest prefix of characters satisfying [p], and what follows. *)
Fixpoint span (p : ascii -> bool) (s : string) : string * string :=
  match s with
  | String c s' =>
      if p c then let '(a, b) := span p s' in (String c a, b) else (EmptyString, s)
  | EmptyString => (EmptyString, EmptyString)
  end.

(** The binary64 value nearest to [m * 10^e10], for [m > 0]. *)
Definition dec_to_float (neg : bool) (m : Z) (e10 : Z) : number :=
  if m <=? 0 then S754_zero neg
  else if 310 <? e10 + (Z.log2 m * 30) / 100 then S754_infinity neg
  else if e10 + ((Z.log2 m + 1) * 31) / 100 + 1 <? -330 then S754_zero neg
  else if 0 <=? e10 then binary_round prec emax neg (Z.to_pos (m * 10 ^ e10)) 0
  else
    let d := 10 ^ (- e10) in
    let s := Z.max 0 (56 + Z.log2 d - Z.log2 m) in
    let '(q, r) := Z.div_eucl (m * 2 ^ s) d in
    let loc := if r =? 0 then loc_Exact else loc_Inexact (2 * r ?= d) in
    binary_round_aux prec emax neg q (- s) loc.

Definition read_sign (s : string) : bool * string :=
  match s with
  | String "-" s' => (true, s')
  | String "+" s' => (false, s')
  | _ => (false, s)
  end.

(** The exponent part, counted only when a digit follows. *)
Definition read_exponent (s : string) : Z :=
  match s with
  | String c s' =>
      if Ascii.eqb (lower_char c) "e" then
        let '(neg, s'') := read_sign s' in
        let '(ds, _) := span is_digit s'' in
        match ds with
        | EmptyString => 0
        | _ => if neg then - digits_to_Z 0 ds else digits_to_Z 0 ds
        end
      else 0
  | EmptyString => 0
  end.

(** [parseFloat(s)] for a string argument. *)
Definition parseFloat (s : string) : number :=
  let '(neg, s1) := read_sign (trimStart s) in
  if String.prefix "Infinity" s1 then S754_infinity neg
  else
    let '(ip, s2) := span is_digit s1 in
    let '(fp, s3) :=
      match s2 with
      | String "." s2' => span is_digit s2'
      | _ => (EmptyString, s2)
      end in
    match ip ++ fp with
    | EmptyString => NaN
    | ds => dec_to_float neg (digits_to_Z 0 ds)
              (read_exponent s3 - Z.of_nat (String.length fp))
    end.

Definition is_hex (c : ascii) : bool :=
  is_digit c || in_range 97 102 (lower_char c).
Definition hex_val (c : ascii) : Z :=
  if is_digit c then digit_val c else Z.of_nat (code (lower_char c)) - 87.
Fixpoint hex_to_Z (acc : Z) (s : string) : Z :=
  match s with
  | EmptyString => acc
  | String c s' => hex_to_Z (16 * acc + hex_val c) s'
  end.

(** [parseInt(s)] with no radix argument. *)
Definition parseInt (s : string) : number :=
  let '(neg, s1) := read_sign (trimStart s) in
  let hex := String.prefix "0x" s1 || String.prefix "0X" s1 in
  let ds := if hex then fst (span is_hex (sliceFrom 2 s1)) else fst (span is_digit s1) in
  match ds with
  | EmptyString => NaN
  | _ =>
      let v := if hex then hex_to_Z 0 ds else digits_to_Z 0 ds in
      if v =? 0 then S754_zero neg
      else binary_round prec emax neg (Z.to_pos v) 0
  end.

(** *** Printing *)

Definition digit_char (d : Z) : ascii := ascii_of_nat (Z.to_nat (48 + d)).

Fixpoint Z_to_digits_go (fuel : nat) (z : Z) (acc : string) : string :=
  match fuel with
  | O => acc
  | S fuel' =>
      if z <? 10 then String (digit_char z) acc
      else Z_to_digits_go fuel' (z / 10) (String (digit_char (z mod 10)) acc)
  end.
Definition Z_to_digits (z : Z) : string :=
  Z_to_digits_go (S (Z.to_nat (Z.log2 z))) z EmptyString.

Fixpoint zeros (n : nat) : string :=
  match n with O => EmptyString | S n' => String "0" (zeros n') end.

(** A positive finite value as the fraction [p / q]. *)
Definition as_fraction (m : positive) (e : Z) : Z * Z :=
  if 0 <=? e then (Z.pos m * 2 ^ e, 1) else (Z.pos m, 2 ^ (- e)).

(** [p / q >= 10^j] *)
Definition geq_pow10 (p q j : Z) : bool :=
  if 0 <=? j then 10 ^ j * q <=? p else q <=? p * 10 ^ (- j).

(** The least [n] from [a] on with [p / q < 10^n]. *)
Fixpoint magnitude (fuel : nat) (p q a : Z) : Z :=
  match fuel with
  | O => a
  | S fuel' => if geq_pow10 p q a then magnitude fuel' p q (a + 1) else a
  end.

(** The shortest digits: the least [k] for which some [k]-digit [s] has
    [s * 10^(n-k)] rounding to the value, the closest such [s]. *)
Fixpoint shortest (fuel : nat) (x : number) (p q n k : Z) : Z * Z * Z :=
  let '(num, den) :=
    if 0 <=? n - k then (p, q * 10 ^ (n - k)) else (p * 10 ^ (k - n), q) in
  let '(lo, r) := Z.div_eucl num den in
  let ok s := match SFcompare (dec_to_float false s (n - k)) x with
              | Some Eq => true | _ => false end in
  let pick s := if s =? 10 ^ k then (1, 1, n + 1) else (s, k, n) in
  match fuel with
  | O => (lo, k, n)
  | S fuel' =>
      match ok lo, ok (lo + 1) with
      | true, true =>
          match 2 * r ?= den with
          | Lt => pick lo
          | Gt => pick (lo + 1)
          | Eq => if Z.even lo then pick lo else pick (lo + 1)
          end
      | true, false => pick lo
      | false, true => pick (lo + 1)
      | false, false => shortest fuel' x p q n (k + 1)
      end
  end.

Definition format_digits (s k n : Z) : string :=
  let ds := Z_to_digits s in
  if (k <=? n) && (n <=? 21) then ds ++ zeros (Z.to_nat (n - k))
  else if (0 <? n) && (n <=? 21) then
    take (Z.to_nat n) ds ++ "." ++ sliceFrom (Z.to_nat n) ds
  else if (-6 <? n) && (n <=? 0) then "0." ++ zeros (Z.to_nat (- n)) ++ ds
  else
    let e := n - 1 in
    let es := (if e <? 0 then "-" else "+") ++ Z_to_digits (Z.abs e) in
    if k =? 1 then ds ++ "e" ++ es
    else take 1 ds ++ "." ++ sliceFrom 1 ds ++ "e" ++ es.

(** [x.toString()], also the string conversion of a number. *)
Definition toString (x : number) : string :=
  match x with
  | S754_nan => "NaN"
  | S754_zero _ => "0"
  | S754_infinity neg => if neg then "-Infinity" else "Infinity"
  | S754_finite neg m e =>
      let '(p, q) := as_fraction m e in
      let a := ((Z.log2 p - Z.log2 q) * 30103) / 100000 - 1 in
      let n := magnitude 4 p q a in
      let '(s, k, n') := shortest 17 (S754_finite false m e) p q n 1 in
      (if neg then "-" else "") ++ format_digits s k n'
  end.

End JsNumber.


Import JsString Regex JsNumber.

(** ** Outcomes

    The outcome of running code that may raise a [TypeError].  The third
    outcome, [Outside], is of a run that leaves what is modelled: a
    built-in member of [Object.prototype], taken from a table, is put where
    a document or a form has a value, or is turned into a pattern (the
    text a platform prints for a built-in function is its own), or becomes
    the prototype of a rebuilt object.  The run is not followed from
    there. *)
Inductive result (A : Type) : Type :=
| Ok (a : A)
| Throw
| Outside.
Arguments Ok {A} a.
Arguments Throw {A}.
Arguments Outside {A}.

#[global] Instance result_ret : MRet result := fun A a => Ok a.
#[global] Instance result_bind : MBind result := fun A B f r =>
  match r with
  | Ok a => f a
  | Throw => Throw
  | Outside => Outside
  end.

Fixpoint mapR {A B : Type} (f : A -> result B) (l : list A) : result (list B) :=
  match l with
  | [] => Ok []
  | x :: l' => y ← f x; ys ← mapR f l'; Ok (y :: ys)
  end.

(** ** Object literals used as dictionaries

    [table[key]] reads an own property of the literal and, when there is
    none, goes up to [Object.prototype]: for the names below it finds a
    built-in member (a function, and the prototype object itself for
    ["__proto__"]), which is truthy and is no text. *)

Definition inheritedNames : list string :=
  ["constructor"; "__defineGetter__"; "__defineSetter__"; "hasOwnProperty";
   "__lookupGetter__"; "__lookupSetter__"; "isPrototypeOf"; "propertyIsEnumerable";
   "toString"; "valueOf"; "__proto__"; "toLocaleString"].

Definition inherited (key : string) : bool := existsb (String.eqb key) inheritedNames.

Inductive entry (A : Type) : Type :=
| Own (a : A)              (* an own property of the literal *)
| Member (name : string)   (* the built-in member of that name *)
| Missing.                 (* [undefined] *)
Arguments Own {A} a.
Arguments Member {A} name.
Arguments Missing {A}.

(** [table[key]] *)
Definition literal_get {A : Type} (table : gmap string A) (key : string) : entry A :=
  match table !! key with
  | Some a => Own a
  | None => if inherited key then Member key else Missing
  end.

(** ** Lookup tables of [utils.ts] *)

(** [postalCodePatterns], each with the [g] flag (and [i] where the source
    has it, so that [[A-Z]] also takes the lower-case letters). *)
Definition alnum (c : ascii) : bool := is_alpha c || is_digit c.

Definition postal_US : regex :=
  seq [RBow; times is_digit 5; opt (RGrp 1 (seq [chr "-"; times is_digit 4])); RBow].
Definition postal_CA : regex :=
  seq [RBow; RChr is_alpha; RChr is_digit; RChr is_alpha; star is_space;
       RChr is_digit; RChr is_alpha; RChr is_digit; RBow].
Definition postal_UK : regex :=
  seq [RBow; RRep is_alpha 1 (Some 2); RChr is_digit; RRep alnum 0 (Some 1);
       star is_space; RChr is_digit; times is_alpha 2; RBow].
Definition postal_AU : regex := seq [RBow; times is_digit 4; RBow].
Definition postal_DE : regex := seq [RBow; times is_digit 5; RBow].
Definition postal_FR : regex := seq [RBow; times is_digit 5; RBow].

Definition postalCodePatterns : gmap string regex :=
  list_to_map
    [("US", postal_US); ("CA", postal_CA); ("UK", postal_UK);
     ("AU", postal_AU); ("DE", postal_DE); ("FR", postal_FR)].

Definition cityPriceMapping : gmap string string :=
  list_to_map
    [ ("new york", "$$$$"); ("manhattan", "$$$$"); ("san francisco", "$$$$");
      ("palo alto", "$$$$"); ("cupertino", "$$$$"); ("mountain view", "$$$$");
      ("beverly hills", "$$$$"); ("monaco", "$$$$"); ("hong kong", "$$$$");
      ("zurich", "$$$$"); ("geneva", "$$$$"); ("los angeles", "$$$"); ("seattle", "$$$");
      ("boston", "$$$"); ("washington", "$$$"); ("washington dc", "$$$");
      ("chicago", "$$$"); ("miami", "$$$"); ("san diego", "$$$"); ("san jose", "$$$");
      ("oakland", "$$$"); ("denver", "$$$"); ("austin", "$$$"); ("portland", "$$$");
      ("vancouver", "$$$"); ("toronto", "$$$"); ("london", "$$$"); ("paris", "$$$");
      ("tokyo", "$$$"); ("sydney", "$$$"); ("melbourne", "$$$"); ("atlanta", "$$");
      ("dallas", "$$"); ("houston", "$$"); ("phoenix", "$$"); ("nashville", "$$");
      ("charlotte", "$$"); ("raleigh", "$$"); ("tampa", "$$"); ("orlando", "$$");
      ("las vegas", "$$"); ("salt lake city", "$$"); ("minneapolis", "$$");
      ("milwaukee", "$$"); ("indianapolis", "$$"); ("columbus", "$$");
      ("cincinnati", "$$"); ("pittsburgh", "$$"); ("baltimore", "$$");
      ("richmond", "$$"); ("jacksonville", "$$"); ("san antonio", "$$");
      ("fort worth", "$$"); ("albuquerque", "$$"); ("tucson", "$$");
      ("sacramento", "$$"); ("fresno", "$$"); ("detroit", "$"); ("cleveland", "$");
      ("buffalo", "$"); ("kansas city", "$"); ("oklahoma city", "$"); ("tulsa", "$");
      ("memphis", "$"); ("birmingham", "$"); ("little rock", "$"); ("jackson", "$");
      ("shreveport", "$"); ("mobile", "$"); ("montgomery", "$"); ("huntsville", "$");
      ("chattanooga", "$"); ("knoxville", "$"); ("louisville", "$"); ("lexington", "$");
      ("toledo", "$"); ("akron", "$"); ("youngstown", "$"); ("dayton", "$");
      ("fort wayne", "$"); ("evansville", "$"); ("peoria", "$"); ("rockford", "$");
      ("green bay", "$"); ("des moines", "$"); ("cedar rapids", "$");
      ("sioux city", "$"); ("fargo", "$"); ("bismarck", "$"); ("rapid city", "$");
      ("billings", "$"); ("great falls", "$"); ("boise", "$"); ("spokane", "$");
      ("yakima", "$") ].

Definition businessTypePriceMapping : gmap string string :=
  list_to_map
    [ ("LegalService", "$$$"); ("MedicalBusiness", "$$$"); ("DentalBusiness", "$$");
      ("Restaurant", "$$"); ("HVACBusiness", "$$"); ("ProfessionalService", "$$");
      ("HomeAndConstructionBusiness", "$$"); ("AutomotiveBusiness", "$");
      ("LocalBusiness", "$$") ].

Definition cityStateMapping : gmap string string :=
  list_to_map
    [ ("new york", "NY"); ("los angeles", "CA"); ("chicago", "IL"); ("houston", "TX");
      ("phoenix", "AZ"); ("philadelphia", "PA"); ("san antonio", "TX");
      ("san diego", "CA"); ("dallas", "TX"); ("san jose", "CA"); ("austin", "TX");
      ("jacksonville", "FL"); ("fort worth", "TX"); ("columbus", "OH");
      ("charlotte", "NC"); ("francisco", "CA"); ("indianapolis", "IN");
      ("seattle", "WA"); ("denver", "CO"); ("washington", "DC"); ("boston", "MA");
      ("el paso", "TX"); ("detroit", "MI"); ("nashville", "TN"); ("memphis", "TN");
      ("portland", "OR"); ("oklahoma city", "OK"); ("las vegas", "NV");
      ("baltimore", "MD"); ("louisville", "KY"); ("milwaukee", "WI");
      ("albuquerque", "NM"); ("tucson", "AZ"); ("fresno", "CA"); ("mesa", "AZ");
      ("sacramento", "CA"); ("atlanta", "GA"); ("kansas city", "MO");
      ("colorado springs", "CO"); ("omaha", "NE"); ("raleigh", "NC"); ("miami", "FL");
      ("oakland", "CA"); ("minneapolis", "MN"); ("tulsa", "OK"); ("cleveland", "OH");
      ("wichita", "KS"); ("arlington", "TX"); ("new orleans", "LA");
      ("bakersfield", "CA"); ("tampa", "FL"); ("honolulu", "HI"); ("aurora", "CO");
      ("anaheim", "CA"); ("santa ana", "CA"); ("st. louis", "MO"); ("riverside", "CA");
      ("corpus christi", "TX"); ("lexington", "KY"); ("pittsburgh", "PA");
      ("anchorage", "AK"); ("stockton", "CA"); ("cincinnati", "OH");
      ("saint paul", "MN"); ("toledo", "OH"); ("greensboro", "NC"); ("newark", "NJ");
      ("plano", "TX"); ("henderson", "NV"); ("lincoln", "NE"); ("buffalo", "NY");
      ("jersey city", "NJ"); ("chula vista", "CA"); ("fort wayne", "IN");
      ("orlando", "FL"); ("st. petersburg", "FL"); ("chandler", "AZ"); ("laredo", "TX");
      ("norfolk", "VA"); ("durham", "NC"); ("madison", "WI"); ("lubbock", "TX");
      ("irvine", "CA"); ("winston-salem", "NC"); ("glendale", "AZ"); ("garland", "TX");
      ("hialeah", "FL"); ("reno", "NV"); ("chesapeake", "VA"); ("gilbert", "AZ");
      ("baton rouge", "LA"); ("irving", "TX"); ("scottsdale", "AZ");
      ("north las vegas", "NV"); ("fremont", "CA"); ("boise city", "ID");
      ("richmond", "VA"); ("san bernardino", "CA"); ("birmingham", "AL");
      ("spokane", "WA"); ("rochester", "NY") ].

Definition commonCityZipMapping : gmap string string :=
  list_to_map
    [ ("new york", "10001"); ("los angeles", "90001"); ("chicago", "60601");
      ("houston", "77001"); ("phoenix", "85001"); ("philadelphia", "19101");
      ("san antonio", "78201"); ("san diego", "92101"); ("dallas", "75201");
      ("san jose", "95101"); ("austin", "78701"); ("seattle", "98101");
      ("denver", "80201"); ("washington", "20001"); ("boston", "02101");
      ("las vegas", "89101"); ("atlanta", "30301"); ("miami", "33101");
      ("charlotte", "28201"); ("portland", "97201"); ("san francisco", "94101") ].

(** ** The pattern library of [utils.ts] *)

(** [postalCodePatterns[country] || postalCodePatterns.US], when it is a
    pattern: for a country that names a built-in member the lookup gives
    that member, which is truthy, and no pattern. *)
Definition postalPattern (country : string) : option regex :=
  match literal_get postalCodePatterns country with
  | Own pattern => Some pattern
  | Missing => Some postal_US
  | Member _ => None
  end.

(** The pattern that [text.match] builds from the prototype object, whose
    string conversion is ["[object Object]"]: a class of characters. *)
Definition protoPattern : regex :=
  RChr (fun c => existsb (Ascii.eqb c) ["o"; "b"; "j"; "e"; "c"; "t"; " "; "O"]%char).

(** [matches[0].trim()] for the first match, if any *)
Definition firstTrimmed (pattern : regex) (text : string) : option string :=
  match first_match pattern text with
  | Some f => Some (trim (f_text f))
  | None => None
  end.

(** [extractPostalCode(text, country)].  With a built-in member in the
    place of the pattern, [text.match] builds a pattern from its string
    conversion, which for a function is the platform's. *)
Definition extractPostalCode (text country : string) : result (option string) :=
  if text =? "" then Ok None
  else
    match literal_get postalCodePatterns country with
    | Own pattern => Ok (firstTrimmed pattern text)
    | Missing => Ok (firstTrimmed postal_US text)
    | Member name =>
        if name =? "__proto__" then Ok (firstTrimmed protoPattern text) else Outside
    end.

(** [isValidPostalCode(postalCode, country)]: [lastIndex] is reset, then
    [pattern.test] searches the string for the pattern; a built-in member
    has no [test]. *)
Definition isValidPostalCode (postalCode country : string) : result bool :=
  if postalCode =? "" then Ok false
  else
    match postalPattern country with
    | Some pattern => Ok (test pattern postalCode)
    | None => Throw
    end.

(** The tier words of [detectPriceRange], in the order of its [if] chain. *)
Definition detectTextTier (textualContent : string) : string :=
  if includes textualContent "luxury" || includes textualContent "premium"
     || includes textualContent "exclusive" || includes textualContent "high-end"
  then "$$$$"
  else if includes textualContent "upscale" || includes textualContent "boutique"
          || includes textualContent "sophisticated"
  then "$$$"
  else if includes textualContent "affordable" || includes textualContent "budget"
          || includes textualContent "discount" || includes textualContent "cheap"
  then "$"
  else if includes textualContent "value" || includes textualContent "reasonable"
          || includes textualContent "moderate"
  then "$$"
  else "".

(** [if (e)] for what a lookup in a table of texts gave *)
Definition present (e : entry string) : bool :=
  match e with
  | Own s => negb (s =? "")
  | Member _ => true
  | Missing => false
  end.

(** [detectPriceRange(city, businessType, businessName?, description?)]:
    a tier, or the built-in member that one of the two lookups found. *)
Definition detectPriceRange (city businessType : string)
    (businessName description : option string) : entry string :=
  if city =? "" then Own "$$"
  else
    let cityLower := trim (toLowerCase city) in
    let cityPriceRange := literal_get cityPriceMapping cityLower in
    let businessTypePriceRange := literal_get businessTypePriceMapping businessType in
    let textualContent :=
      toLowerCase (default "" businessName ++ " " ++ default "" description) in
    let textualPriceIndicator := detectTextTier textualContent in
    if negb (textualPriceIndicator =? "") then Own textualPriceIndicator
    else if present cityPriceRange then cityPriceRange
    else if present businessTypePriceRange then businessTypePriceRange
    else Own "$$".

(** [inferStateFromCity(city)] *)
Definition inferStateFromCity (city : string) : entry string :=
  if city =? "" then Missing
  else literal_get cityStateMapping (trim (toLowerCase city)).

(** [inferPostalCodeFromCity(city)] *)
Definition inferPostalCodeFromCity (city : string) : entry string :=
  literal_get commonCityZipMapping (trim (toLowerCase city)).

(** [/^([0-1]?[0-9]|2[0-3]):[0-5][0-9]$/] *)
Definition timeRegex : regex :=
  seq [RBol;
       RGrp 1 (RAlt (seq [RRep (in_range 48 49) 0 (Some 1); RChr is_digit])
                    (seq [chr "2"; RChr (in_range 48 51)]));
       chr ":"; RChr (in_range 48 53); RChr is_digit; REol].

(** [isValidTimeFormat(time)] *)
Definition isValidTimeFormat (time : string) : bool :=
  if time =? "" then false else test timeRegex (trim time).

(** [ensureAbsoluteUrl(url)] *)
Definition ensureAbsoluteUrl (url : string) : string :=
  if url =? "" then url
  else if startsWith url "http://" || startsWith url "https://" then url
  else if startsWith url "//" then "https:" ++ url
  else url.

(** [/^[^\s@]+@[^\s@]+\.[^\s@]+$/] *)
Definition no_space_at (c : ascii) : bool := negb (is_space c) && is_not "@" c.
Definition emailRegex : regex :=
  seq [RBol; plus no_space_at; chr "@"; plus no_space_at; chr ".";
       plus no_space_at; REol].

(** [isValidEmail(email)] *)
Definition isValidEmail (email : string) : bool := test emailRegex email.

(** [formatPhoneNumber(phone)] of [utils.ts] *)
Definition formatPhoneNumber (phone : string) : string :=
  if phone =? "" then phone
  else
    let digits := keep is_digit phone in
    let len := String.length digits in
    if (len =? 10)%nat then
      "+1-" ++ slice 0 3 digits ++ "-" ++ slice 3 6 digits ++ "-" ++ sliceFrom 6 digits
    else if (len =? 11)%nat && startsWith digits "1" then
      "+" ++ slice 0 1 digits ++ "-" ++ slice 1 4 digits ++ "-" ++ slice 4 7 digits
          ++ "-" ++ sliceFrom 7 digits
    else if (10 <=? len)%nat && (len <=? 11)%nat
            && (startsWith digits "44" || startsWith digits "0") then
      let cleanDigits :=
        if startsWith digits "44" then digits else "44" ++ sliceFrom 1 digits in
      "+" ++ slice 0 2 cleanDigits ++ "-" ++ slice 2 5 cleanDigits ++ "-"
          ++ slice 5 8 cleanDigits ++ "-" ++ sliceFrom 8 cleanDigits
    else if (7 <=? len)%nat then trim phone
    else phone.

(** [/^\$+$/] and [/\$+/] *)
Definition dollarsOnly : regex := seq [RBol; plus (Ascii.eqb "$"); REol].
Definition dollars : regex := plus (Ascii.eqb "$").

(** [validatePriceRange(priceRange)] *)
Definition validatePriceRange (priceRange : string) : string :=
  if priceRange =? "" then priceRange
  else
    let cleaned := trim priceRange in
    if test dollarsOnly cleaned then cleaned
    else
      let lowerPrice := toLowerCase cleaned in
      if includes lowerPrice "luxury" || includes lowerPrice "exclusive"
         || includes lowerPrice "premium" || includes lowerPrice "very expensive"
      then "$$$$"
      else if includes lowerPrice "expensive" || includes lowerPrice "upscale"
              || includes lowerPrice "high-end"
      then "$$$"
      else if includes lowerPrice "moderate" || includes lowerPrice "mid-range"
              || includes lowerPrice "reasonable"
      then "$$"
      else if includes lowerPrice "inexpensive" || includes lowerPrice "cheap"
              || includes lowerPrice "budget" || includes lowerPrice "affordable"
      then "$"
      else
        match first_match dollars cleaned with
        | Some f => f_text f
        | None => "$$"
        end.

(** ** Documents: JavaScript values *)

Inductive value : Type :=
| VUndef
| VNull
| VBool (b : bool)
| VNum (x : number)
| VStr (s : string)
| VArr (items : list value)
| VObj (fields : list (string * value)).

Module Obj.
(** Own properties in insertion order. *)
Definition t : Type := list (string * value).

Fixpoint lookup (k : string) (o : t) : option value :=
  match o with
  | [] => None
  | (k', v) :: o' => if k =? k' then Some v else lookup k o'
  end.

(** [o[k]] *)
Definition get (k : string) (o : t) : value := default VUndef (lookup k o).

Definition has (k : string) (o : t) : bool :=
  match lookup k o with Some _ => true | None => false end.

(** [o[k] = v]: an existing key keeps its place, a new one goes last. *)
Fixpoint set (k : string) (v : value) (o : t) : t :=
  match o with
  | [] => [(k, v)]
  | (k', v') :: o' => if k =? k' then (k, v) :: o' else (k', v') :: set k v o'
  end.

(** [delete o[k]] *)
Fixpoint del (k : string) (o : t) : t :=
  match o with
  | [] => []
  | (k', v') :: o' => if k =? k' then del k o' else (k', v') :: del k o'
  end.

(** [Object.keys(o)] *)
Definition keys (o : t) : list string := map fst o.
End Obj.

(** [!!v] *)
Definition truthy (v : value) : bool :=
  match v with
  | VUndef | VNull => false
  | VBool b => b
  | VNum x => JsNumber.truthy x
  | VStr s => negb (s =? "")
  | VArr _ | VObj _ => true
  end.

(** [v && typeof v === 'object'] *)
Definition is_object (v : value) : bool :=
  match v with VArr _ | VObj _ => true | _ => false end.

(** [v == null] and [v === ''] *)
Definition is_nullish (v : value) : bool :=
  match v with VUndef | VNull => true | _ => false end.
Definition is_empty_string (v : value) : bool :=
  match v with VStr s => s =? "" | _ => false end.

(** [a || b] on values *)
Definition or_else (a b : value) : value := if truthy a then a else b.

(** [v?.k] and [v.k] for a value that is not null or undefined. *)
Definition prop (v : value) (k : string) : value :=
  match v with VObj o => Obj.get k o | _ => VUndef end.

(** The string conversion [ToString]: an object converts through the
    inherited [toString] unless an own property of that name, which in a
    document is never callable, hides it. *)
Fixpoint toStr (v : value) : result string :=
  match v with
  | VUndef => Ok "undefined"
  | VNull => Ok "null"
  | VBool b => Ok (if b then "true" else "false")
  | VNum x => Ok (toString x)
  | VStr s => Ok s
  | VArr items =>
      (fix join (l : list value) : result string :=
         match l with
         | [] => Ok ""
         | x :: l' =>
             sx ← (match x with VUndef | VNull => Ok "" | _ => toStr x end);
             match l' with
             | [] => Ok sx
             | _ => rest ← join l'; Ok (sx ++ "," ++ rest)
             end
         end) items
  | VObj o => if Obj.has "toString" o then Throw else Ok "[object Object]"
  end.

(** [`${v || ''}`] *)
Definition str_or_empty (v : value) : result string :=
  if truthy v then toStr v else Ok "".

(** A method of [String.prototype] called on a value: only a string has it. *)
Definition as_string (v : value) : result string :=
  match v with VStr s => Ok s | _ => Throw end.

(** ** The recursive cleaner of [utils.ts] *)

Section Cleaner.

(** [new URL(s)] succeeds: the URL parser of the platform. *)
Variable URL_parses : string -> bool.

(** [isValidUrl(string)] *)
Definition isValidUrl (s : string) : bool := URL_parses s.

(** A type-specific rule either rejects the node ([return null]) or
    leaves the, possibly updated, node. *)
Definition rule : Type := Obj.t -> result (option Obj.t).

Definition keep_node (o : Obj.t) : result (option Obj.t) := Ok (Some o).
Definition reject_node : result (option Obj.t) := Ok None.

Definition and_then (a b : rule) : rule := fun o =>
  r ← a o;
  match r with
  | None => Ok None
  | Some o' => b o'
  end.

(** [if (obj['@type'] === name) { ... }] *)
Definition when_type (name : string) (body : rule) : rule := fun o =>
  match Obj.get "@type" o with
  | VStr t => if t =? name then body o else keep_node o
  | _ => keep_node o
  end.

(** [if (obj.k) obj.k = f(obj.k)] for a string method or helper [f] *)
Definition update_string (k : string) (f : string -> string) (o : Obj.t) : result Obj.t :=
  if truthy (Obj.get k o) then
    s ← as_string (Obj.get k o); Ok (Obj.set k (VStr (f s)) o)
  else Ok o.

Definition answerDefault : value :=
  VObj [("@type", VStr "Answer"); ("text", VStr "Contact us for more information.")].

Definition questionRule : rule := fun o =>
  if negb (truthy (Obj.get "acceptedAnswer" o)) && truthy (Obj.get "name" o)
  then keep_node (Obj.set "acceptedAnswer" answerDefault o)
  else keep_node o.

(** [isValidTimeFormat(v)] on a truthy value *)
Definition timeFormatOk (v : value) : result bool :=
  s ← as_string v; Ok (isValidTimeFormat s).

Definition openingHoursRule : rule := fun o =>
  if negb (truthy (Obj.get "dayOfWeek" o)) || negb (truthy (Obj.get "opens" o))
     || negb (truthy (Obj.get "closes" o))
  then reject_node
  else
    ok1 ← timeFormatOk (Obj.get "opens" o);
    if negb ok1 then reject_node
    else
      ok2 ← timeFormatOk (Obj.get "closes" o);
      if negb ok2 then reject_node else keep_node o.

Definition geoRule : rule := fun o =>
  if negb (truthy (Obj.get "latitude" o)) || negb (truthy (Obj.get "longitude" o))
  then reject_node
  else
    slat ← toStr (Obj.get "latitude" o);
    let lat := parseFloat slat in
    slng ← toStr (Obj.get "longitude" o);
    let lng := parseFloat slng in
    if ltb lat (of_Z (-90)) || gtb lat (of_Z 90)
       || ltb lng (of_Z (-180)) || gtb lng (of_Z 180)
    then reject_node
    else keep_node o.

Definition ratingRule : rule := fun o =>
  if negb (truthy (Obj.get "ratingValue" o)) || negb (truthy (Obj.get "reviewCount" o))
  then reject_node
  else
    sr ← toStr (Obj.get "ratingValue" o);
    let rating := parseFloat sr in
    sc ← toStr (Obj.get "reviewCount" o);
    let count := parseInt sc in
    if ltb rating (of_Z 1) || gtb rating (of_Z 5) || ltb count (of_Z 1)
    then reject_node
    else
      keep_node
        (Obj.set "worstRating" (VStr "1")
          (Obj.set "bestRating" (VStr "5")
            (Obj.set "reviewCount" (VStr (toString count))
              (Obj.set "ratingValue" (VStr (toString rating)) o)))).

(** [extractPostalCode(text, country)] with [country] any value: the
    property key is its string conversion. *)
Definition extractPostalCodeV (text : string) (country : value) : result value :=
  if text =? "" then Ok VUndef
  else
    c ← toStr country;
    z ← extractPostalCode text c;
    Ok (match z with Some z => VStr z | None => VUndef end).

(** [isValidPostalCode(postalCode, country)] on a truthy [postalCode] *)
Definition isValidPostalCodeV (postalCode country : value) : result bool :=
  c ← toStr country;
  match postalPattern c with
  | Some pattern => z ← toStr postalCode; Ok (test pattern z)
  | None => Throw
  end.

Definition addressRule : rule := fun o =>
  (* postal code detection *)
  o1 ← (if negb (truthy (Obj.get "postalCode" o))
           && (truthy (Obj.get "streetAddress" o) || truthy (Obj.get "addressLocality" o))
        then
          s1 ← str_or_empty (Obj.get "streetAddress" o);
          s2 ← str_or_empty (Obj.get "addressLocality" o);
          s3 ← str_or_empty (Obj.get "addressRegion" o);
          let fullAddressText := trim (s1 ++ " " ++ s2 ++ " " ++ s3) in
          z ← extractPostalCodeV fullAddressText
                (or_else (Obj.get "addressCountry" o) (VStr "US"));
          Ok (Obj.set "postalCode" z o)
        else Ok o);
  (* validation of the postal code *)
  o2 ← (if truthy (Obj.get "postalCode" o1) then
          ok ← isValidPostalCodeV (Obj.get "postalCode" o1)
                 (or_else (Obj.get "addressCountry" o1) (VStr "US"));
          Ok (if (ok : bool) then o1 else Obj.del "postalCode" o1)
        else Ok o1);
  let hasAnyAddress :=
    truthy (Obj.get "streetAddress" o2) || truthy (Obj.get "addressLocality" o2)
    || truthy (Obj.get "addressRegion" o2) || truthy (Obj.get "postalCode" o2) in
  if negb hasAnyAddress then reject_node
  else
    (* defaults *)
    let o3 :=
      if negb (truthy (Obj.get "streetAddress" o2))
         && (truthy (Obj.get "addressLocality" o2) || truthy (Obj.get "addressRegion" o2))
      then Obj.set "streetAddress" (VStr "Address available upon request") o2
      else o2 in
    let o4 :=
      if negb (truthy (Obj.get "addressLocality" o3)) && truthy (Obj.get "addressRegion" o3)
      then Obj.set "addressLocality" (VStr "Local Area") o3
      else o3 in
    o5 ← (if negb (truthy (Obj.get "addressRegion" o4)) && truthy (Obj.get "addressLocality" o4)
          then
            city ← as_string (Obj.get "addressLocality" o4);
            match inferStateFromCity city with
            | Own st =>
                Ok (Obj.set "addressRegion" (VStr (if st =? "" then "State" else st)) o4)
            | Missing => Ok (Obj.set "addressRegion" (VStr "State") o4)
            | Member _ =>
                (* the member becomes the region, and has no [trim] below *)
                Throw
            end
          else Ok o4);
    (* trimming *)
    o6 ← update_string "streetAddress" trim o5;
    o7 ← update_string "addressLocality" trim o6;
    o8 ← update_string "addressRegion" trim o7;
    let o9 := Obj.set "addressCountry" (or_else (Obj.get "addressCountry" o8) (VStr "US")) o8 in
    o10 ← update_string "postalCode" trim o9;
    keep_node o10.

Definition imageRule : rule := fun o =>
  if negb (truthy (Obj.get "url" o)) then reject_node
  else
    u ← as_string (Obj.get "url" o);
    keep_node (Obj.set "url" (VStr (ensureAbsoluteUrl u)) o).

(** The list [businessTypes] of [cleanObject]. *)
Definition businessTypes : list string :=
  ["LocalBusiness"; "Restaurant"; "ProfessionalService"; "LegalService";
   "MedicalBusiness"; "HomeAndConstructionBusiness"; "AutomotiveBusiness";
   "Organization"].

(** [businessTypes.includes(v)] *)
Definition includes_type (types : list string) (v : value) : bool :=
  match v with
  | VStr t => existsb (String.eqb t) types
  | _ => false
  end.

(** [detectPriceRange] called with values: [city] is truthy, the type is
    a property key, the name and the description go through a template. *)
Definition detectPriceRangeV (city type name description : value) : result value :=
  c ← as_string city;
  t ← toStr type;
  n ← str_or_empty name;
  d ← str_or_empty description;
  match detectPriceRange c t (Some n) (Some d) with
  | Own tier => Ok (VStr tier)
  | Member _ => Outside
  | Missing => Ok VUndef
  end.

(** [ensureAbsoluteUrl(url)] on an element of [sameAs] *)
Definition ensureAbsoluteUrlV (url : value) : result value :=
  if negb (truthy url) then Ok url
  else s ← as_string url; Ok (VStr (ensureAbsoluteUrl s)).

(** [isValidUrl(url)] on an element left by the step before *)
Definition isValidUrlV (url : value) : bool :=
  match toStr url with
  | Ok s => isValidUrl s
  | _ => false
  end.

Definition businessRule : rule := fun o =>
  if negb (includes_type businessTypes (Obj.get "@type" o)) then keep_node o
  else if negb (truthy (Obj.get "name" o)) then reject_node
  else
    o1 ← update_string "telephone" formatPhoneNumber o;
    o2 ← (if truthy (Obj.get "email" o1) then
            e ← toStr (Obj.get "email" o1);
            Ok (if isValidEmail e then o1 else Obj.del "email" o1)
          else Ok o1);
    o3 ← (if negb (truthy (Obj.get "priceRange" o2))
             && truthy (prop (Obj.get "address" o2) "addressLocality")
          then
            p ← detectPriceRangeV (prop (Obj.get "address" o2) "addressLocality")
                   (Obj.get "@type" o2) (Obj.get "name" o2) (Obj.get "description" o2);
            Ok (Obj.set "priceRange" p o2)
          else Ok o2);
    o4 ← update_string "url" ensureAbsoluteUrl o3;
    o5 ← (match Obj.get "sameAs" o4 with
          | VArr urls =>
              mapped ← mapR ensureAbsoluteUrlV urls;
              Ok (Obj.set "sameAs" (VArr (List.filter isValidUrlV mapped)) o4)
          | _ => Ok o4
          end);
    keep_node o5.

Definition webPageRule : rule := fun o =>
  o1 ← update_string "url" ensureAbsoluteUrl o;
  keep_node o1.

(** The type-specific part of [cleanObject], in the order of the source. *)
Definition typeRules : rule := fun o =>
  if truthy (Obj.get "@type" o) then
    and_then (when_type "Question" questionRule)
    (and_then (when_type "OpeningHoursSpecification" openingHoursRule)
    (and_then (when_type "GeoCoordinates" geoRule)
    (and_then (when_type "AggregateRating" ratingRule)
    (and_then (when_type "PostalAddress" addressRule)
    (and_then (when_type "ImageObject" imageRule)
    (and_then businessRule
              (when_type "WebPage" webPageRule))))))) o
  else keep_node o.

(** The test of the [reduce] over the keys: the cleaned value is kept
    unless it is null, undefined, an empty string, an empty array or an
    object with neither keys nor a type. *)
Definition keep_cleaned (cleanedValue : value) : bool :=
  if is_nullish cleanedValue || is_empty_string cleanedValue then false
  else
    match cleanedValue with
    | VArr items => (0 <? length items)%nat
    | VObj o => (0 <? length (Obj.keys o))%nat || truthy (Obj.get "@type" o)
    | _ => true
    end.

(** A recursion bounded in depth: [None] when the bound is reached, else
    the outcome.  [next m k] runs [k] on the value of [m]. *)
Definition next {A B : Type} (m : option (result A)) (k : A -> option (result B)) :
    option (result B) :=
  match m with
  | None => None
  | Some Throw => Some Throw
  | Some Outside => Some Outside
  | Some (Ok a) => k a
  end.

(** [items.map(f)], left to right. *)
Fixpoint mapF {A B : Type} (f : A -> option (result B)) (l : list A) :
    option (result (list B)) :=
  match l with
  | [] => Some (Ok [])
  | x :: l' => next (f x) (fun y => next (mapF f l') (fun ys => Some (Ok (y :: ys))))
  end.

(** [acc[key] = cleanedValue]: an assignment to ["__proto__"] sets no
    property; it makes an object or an array the prototype of [acc] and
    does nothing with another value. *)
Definition assign (key : string) (cleanedValue : value) (acc : Obj.t) : result Obj.t :=
  if key =? "__proto__" then
    if is_object cleanedValue then Outside else Ok acc
  else Ok (Obj.set key cleanedValue acc).

(** One step of the [reduce] over the keys of the node. *)
Definition keep_field (clean_child : value -> option (result value)) (o' : Obj.t)
    (racc : option (result Obj.t)) (key : string) : option (result Obj.t) :=
  next racc (fun acc =>
    next (clean_child (Obj.get key o')) (fun cleanedValue =>
      Some (if keep_cleaned cleanedValue
            then assign key cleanedValue acc else Ok acc))).

Fixpoint cleanObject_fuel (fuel : nat) (obj : value) : option (result value) :=
  match fuel with
  | O => None
  | S fuel' =>
      let clean_child (v : value) : option (result value) :=
        if is_object v then cleanObject_fuel fuel' v else Some (Ok v) in
      match obj with
      | VArr items =>
          next (mapF clean_child items) (fun mapped =>
            Some (Ok (VArr (List.filter
                              (fun v => negb (is_nullish v || is_empty_string v))
                              mapped))))
      | VObj o =>
          match typeRules o with
          | Throw => Some Throw
          | Outside => Some Outside
          | Ok None => Some (Ok VNull)
          | Ok (Some o') =>
              next (fold_left (keep_field clean_child o') (Obj.keys o') (Some (Ok [])))
                   (fun acc => Some (Ok (VObj acc)))
          end
      | _ => Some (Ok obj)
      end
  end.

(** The nesting depth of a document. *)
Fixpoint depth (v : value) : nat :=
  match v with
  | VArr items => S (fold_right (fun x n => Nat.max (depth x) n) 0%nat items)
  | VObj o => S (fold_right (fun kv n => Nat.max (depth (snd kv)) n) 0%nat o)
  | _ => 0%nat
  end.

(** [cleanObject(obj)].  The recursion follows the nesting of the
    document, which a repair deepens by one level at most (the default
    answer of a question), so the bound is never reached. *)
Definition cleanObject (obj : value) : result value :=
  default Throw (cleanObject_fuel (2 + depth obj) obj).

End Cleaner.

(** ** Form validation of [utils.ts] *)

(** The form is an object whose fields hold texts when it is typed in and
    whatever [JSON.parse] gave when [handleAiSchemaGenerated] filled it; a
    field left out is [undefined]. *)
Record validation (A : Type) : Type := Validation {
  isValid : bool;
  errors : list string;
  cleanedData : gmap string A
}.
Arguments Validation {A} isValid errors cleanedData.
Arguments isValid {A} v.
Arguments errors {A} v.
Arguments cleanedData {A} v.

(** [formData.k] *)
Definition fieldV (formData : gmap string value) (k : string) : value :=
  default VUndef (formData !! k).

(** [formData.k?.trim()] is truthy: [undefined] and [null] end the chain,
    a text is trimmed, any other value has no [trim]. *)
Definition filled_trimV (formData : gmap string value) (k : string) : result bool :=
  match fieldV formData k with
  | VUndef | VNull => Ok false
  | VStr s => Ok (negb (trim s =? ""))
  | _ => Throw
  end.

(** [formData.k === v] *)
Definition field_isV (formData : gmap string value) (k v : string) : bool :=
  match fieldV formData k with
  | VStr s => s =? v
  | _ => false
  end.

(** The state of a run: the messages pushed so far and [cleanedData]. *)
Definition push {A : Type} (msg : string) (st : list string * gmap string A) :
    list string * gmap string A := ((st.1 ++ [msg])%list, st.2).
Definition put {A : Type} (k : string) (v : A) (st : list string * gmap string A) :
    list string * gmap string A := (st.1, <[k := v]> st.2).
Definition drop {A : Type} (k : string) (st : list string * gmap string A) :
    list string * gmap string A := (st.1, delete k st.2).

(** The two ways of an invalid value: an error for a form typed in by
    hand, the field dropped for generated content ([console.warn] leaves
    no trace in the result). *)
Definition reject {A : Type} (isAiGenerated : bool) (k msg : string)
    (st : list string * gmap string A) : list string * gmap string A :=
  if negb isAiGenerated then push msg st else drop k st.

Definition vstateV : Type := list string * gmap string value.

(** [if (!formData.k?.trim()) errors.push(msg)] *)
Definition requireV (formData : gmap string value) (k msg : string) (st : vstateV) :
    result vstateV :=
  given ← filled_trimV formData k;
  Ok (if (given : bool) then st else push msg st).

Section Validation.

Variable URL_parses : string -> bool.

(** The required fields of an article, of a how-to and of a business; for
    a business the address is required of a form typed in by hand, and
    only looked at (and warned about) for generated content. *)
Definition requireArticleV (formData : gmap string value) (st : vstateV) : result vstateV :=
  st1 ← requireV formData "headline" "Article headline is required" st;
  st2 ← requireV formData "authorName" "Author name is required" st1;
  requireV formData "publisherName" "Publisher name is required" st2.

Definition requireHowToV (formData : gmap string value) (st : vstateV) : result vstateV :=
  requireV formData "howToName" "How-to title is required" st.

Definition requireAddressV (formData : gmap string value) (st : vstateV) : result vstateV :=
  st1 ← requireV formData "streetAddress" "Street address is required" st;
  st2 ← requireV formData "addressLocality" "City is required" st1;
  requireV formData "addressRegion" "State/Region is required" st2.

(** [a?.trim() || b?.trim() || c?.trim() || d?.trim()] *)
Definition hasAnyAddressV (formData : gmap string value) : result bool :=
  a ← filled_trimV formData "streetAddress";
  if (a : bool) then Ok true
  else
    b ← filled_trimV formData "addressLocality";
    if (b : bool) then Ok true
    else
      c ← filled_trimV formData "addressRegion";
      if (c : bool) then Ok true else filled_trimV formData "postalCode".

Definition requireBusinessV (formData : gmap string value) (isAiGenerated : bool)
    (st : vstateV) : result vstateV :=
  st1 ← requireV formData "name" "Business name is required" st;
  st2 ← requireV formData "description" "Business description is required" st1;
  if negb isAiGenerated then requireAddressV formData st2
  else _ ← hasAnyAddressV formData; Ok st2.

(** Postal code: validated when given, inferred from the city for
    generated content when not. *)
Definition checkPostalCodeV (formData : gmap string value) (isAiGenerated : bool)
    (st : vstateV) : result vstateV :=
  given ← filled_trimV formData "postalCode";
  if (given : bool) then
    ok ← isValidPostalCodeV (fieldV formData "postalCode")
           (or_else (fieldV formData "addressCountry") (VStr "US"));
    Ok (if negb ok then reject isAiGenerated "postalCode" "Invalid postal code format" st
        else st)
  else if isAiGenerated then
    city ← filled_trimV formData "addressLocality";
    if (city : bool) then
      c ← as_string (fieldV formData "addressLocality");
      match inferPostalCodeFromCity c with
      | Own inferredZip =>
          Ok (if inferredZip =? "" then st else put "postalCode" (VStr inferredZip) st)
      | Member _ => Outside
      | Missing => Ok st
      end
    else Ok st
  else Ok st.

(** Price range: detected when none is given and the city is known. *)
Definition autoDetectPriceRangeV (formData : gmap string value) (st : vstateV) :
    result vstateV :=
  given ← filled_trimV formData "priceRange";
  if (given : bool) then Ok st
  else
    city ← filled_trimV formData "addressLocality";
    if (city : bool) then
      detectedPriceRange ←
        detectPriceRangeV (fieldV formData "addressLocality")
          (or_else (fieldV formData "contentType") (VStr "LocalBusiness"))
          (fieldV formData "name") (fieldV formData "description");
      Ok (put "priceRange" detectedPriceRange st)
    else Ok st.

(** The branch on the content type at the head of [validateFormData]. *)
Definition requiredFieldsV (formData : gmap string value) (isAiGenerated : bool)
    (st : vstateV) : result vstateV :=
  if field_isV formData "contentType" "Article" then requireArticleV formData st
  else if field_isV formData "contentType" "HowTo" then requireHowToV formData st
  else
    st1 ← requireBusinessV formData isAiGenerated st;
    st2 ← checkPostalCodeV formData isAiGenerated st1;
    autoDetectPriceRangeV formData st2.

(** [formatPhoneNumber] and [validatePriceRange] call a method of texts on
    their truthy argument. *)
Definition checkTelephoneV (formData : gmap string value) (st : vstateV) : result vstateV :=
  if truthy (fieldV formData "telephone") then
    phone ← as_string (fieldV formData "telephone");
    Ok (put "telephone" (VStr (formatPhoneNumber phone)) st)
  else Ok st.

(** A pattern tests the string conversion of its argument, and so do
    [new URL], [parseFloat] and [parseInt]. *)
Definition checkEmailV (formData : gmap string value) (isAiGenerated : bool)
    (st : vstateV) : result vstateV :=
  if truthy (fieldV formData "email") then
    email ← toStr (fieldV formData "email");
    Ok (if negb (isValidEmail email) then reject isAiGenerated "email" "Invalid email format" st
        else st)
  else Ok st.

Definition checkUrlV (k msg : string) (formData : gmap string value) (isAiGenerated : bool)
    (st : vstateV) : result vstateV :=
  Ok (if truthy (fieldV formData k) && negb (isValidUrlV URL_parses (fieldV formData k))
      then reject isAiGenerated k msg st
      else st).

(** [isNaN(x) || x < lo || x > hi] *)
Definition outside (x : number) (lo hi : Z) : bool :=
  isNaN x || ltb x (of_Z lo) || gtb x (of_Z hi).

(** [if (formData.k) { const x = parseFloat(formData.k); if (isNaN(x) ||
    x < lo || x > hi) ... }] *)
Definition checkRangeV (k msg : string) (lo hi : Z) (formData : gmap string value)
    (isAiGenerated : bool) (st : vstateV) : result vstateV :=
  if truthy (fieldV formData k) then
    text ← toStr (fieldV formData k);
    Ok (if outside (parseFloat text) lo hi then reject isAiGenerated k msg st else st)
  else Ok st.

Definition checkLatitudeV : gmap string value -> bool -> vstateV -> result vstateV :=
  checkRangeV "latitude" "Invalid latitude (must be between -90 and 90)" (-90) 90.

Definition checkLongitudeV : gmap string value -> bool -> vstateV -> result vstateV :=
  checkRangeV "longitude" "Invalid longitude (must be between -180 and 180)" (-180) 180.

Definition checkRatingV : gmap string value -> bool -> vstateV -> result vstateV :=
  checkRangeV "ratingValue" "Rating must be between 1 and 5" 1 5.

Definition checkReviewCountV (formData : gmap string value) (isAiGenerated : bool)
    (st : vstateV) : result vstateV :=
  if truthy (fieldV formData "reviewCount") then
    text ← toStr (fieldV formData "reviewCount");
    let count := parseInt text in
    Ok (if isNaN count || ltb count (of_Z 1)
        then reject isAiGenerated "reviewCount" "Review count must be a positive number" st
        else st)
  else Ok st.

Definition checkPriceRangeV (formData : gmap string value) (st : vstateV) : result vstateV :=
  if truthy (fieldV formData "priceRange") then
    priceRange ← as_string (fieldV formData "priceRange");
    Ok (put "priceRange" (VStr (validatePriceRange priceRange)) st)
  else Ok st.

(** [validateFormData(formData, isAiGenerated)] *)
Definition validateFormData (formData : gmap string value) (isAiGenerated : bool) :
    result (validation value) :=
  let st0 : vstateV := ([], formData) in
  st1 ← requiredFieldsV formData isAiGenerated st0;
  st2 ← checkTelephoneV formData st1;
  st3 ← checkEmailV formData isAiGenerated st2;
  st4 ← checkUrlV "websiteUrl" "Invalid website URL" formData isAiGenerated st3;
  st5 ← checkUrlV "publisherLogoUrl" "Invalid publisher logo URL" formData isAiGenerated st4;
  st6 ← checkLatitudeV formData isAiGenerated st5;
  st7 ← checkLongitudeV formData isAiGenerated st6;
  st8 ← checkRatingV formData isAiGenerated st7;
  st9 ← checkReviewCountV formData isAiGenerated st8;
  st10 ← checkPriceRangeV formData st9;
  Ok (Validation (match st10.1 with [] => true | _ => false end) st10.1 st10.2).

(** The guard at the head of [generateSchema]: a rejected form stops the
    run before any document is built; [synthesize] is what follows. *)
Definition generateSchema {Doc : Type} (synthesize : gmap string value -> option Doc)
    (formData : gmap string value) (isAiGenerated : bool) : result (option Doc) :=
  validation ← validateFormData formData isAiGenerated;
  Ok (if negb (isValid validation) then None
      else synthesize (cleanedData validation)).

End Validation.

(** *** Forms of texts

    A form whose fields are all texts, as the [FormData] interface of
    [src/lib/types.ts] declares them and as typing fills them: a finite map
    from field names to strings. *)
Abbreviation formdata := (gmap string string).

(** The form as the object it is. *)
Definition formObject (formData : formdata) : gmap string value := VStr <$> formData.

(** [formData.k] is truthy *)
Definition filled (formData : formdata) (k : string) : bool :=
  match formData !! k with
  | Some s => negb (s =? "")
  | None => false
  end.

(** [formData.k?.trim()] is truthy *)
Definition filled_trim (formData : formdata) (k : string) : bool :=
  match formData !! k with
  | Some s => negb (trim s =? "")
  | None => false
  end.

(** [formData.k] where the code has checked that it is there *)
Definition field (formData : formdata) (k : string) : string :=
  default "" (formData !! k).

(** [formData.k === v] *)
Definition field_is (formData : formdata) (k v : string) : bool :=
  match formData !! k with
  | Some s => s =? v
  | None => false
  end.

(** [formData.k || d] *)
Definition field_or (formData : formdata) (k d : string) : string :=
  if filled formData k then field formData k else d.

(** ** Opening hours *)

Record hours : Type := Hours {
  dayOfWeek : string;
  opens : string;
  closes : string
}.

(** [.] of a pattern: any character but a line terminator. *)
Definition dot (c : ascii) : bool := negb ((code c =? 10)%nat || (code c =? 13)%nat).

(** *** [formatBusinessHours] of [utils.ts] *)

Definition dayMapping : gmap string string :=
  list_to_map
    [("monday", "Monday"); ("tuesday", "Tuesday"); ("wednesday", "Wednesday");
     ("thursday", "Thursday"); ("friday", "Friday"); ("saturday", "Saturday");
     ("sunday", "Sunday"); ("mon", "Monday"); ("tue", "Tuesday");
     ("wed", "Wednesday"); ("thu", "Thursday"); ("fri", "Friday");
     ("sat", "Saturday"); ("sun", "Sunday")].

(** [/^([^:]+):\s*([^-]+)-(.+)$/i] *)
Definition dayLine : regex :=
  seq [RBol; RGrp 1 (plus (is_not ":")); chr ":"; star is_space;
       RGrp 2 (plus (is_not "-")); chr "-"; RGrp 3 (plus dot); REol].

(** [/^([^-]+)-([^:]+):\s*([^-]+)-(.+)$/i] *)
Definition rangeLine : regex :=
  seq [RBol; RGrp 1 (plus (is_not "-")); chr "-"; RGrp 2 (plus (is_not ":"));
       chr ":"; star is_space; RGrp 3 (plus (is_not "-")); chr "-";
       RGrp 4 (plus dot); REol].

Definition group (i : nat) (f : found) : string := default "" (cap i (f_caps f)).

(** The "Day: start-end" attempt on a line. *)
Definition formatDayLine (line : string) : option (list hours) :=
  match first_match dayLine line with
  | Some f =>
      let dayPart := group 1 f in
      let normalizedDay :=
        match dayMapping !! toLowerCase (trim dayPart) with
        | Some d => d
        | None => trim dayPart
        end in
      let opens := trim (group 2 f) in
      let closes := trim (group 3 f) in
      if isValidTimeFormat opens && isValidTimeFormat closes
      then Some [Hours normalizedDay opens closes]
      else None
  | None => None
  end.

(** The "Monday-Friday: start-end" attempt on a line. *)
Definition formatRangeLine (line : string) : option (list hours) :=
  match first_match rangeLine line with
  | Some f =>
      let days :=
        if includes (toLowerCase (trim (group 1 f))) "mon"
           && includes (toLowerCase (trim (group 2 f))) "fri"
        then ["Monday"; "Tuesday"; "Wednesday"; "Thursday"; "Friday"]
        else [] in
      let opens := trim (group 3 f) in
      let closes := trim (group 4 f) in
      if isValidTimeFormat opens && isValidTimeFormat closes
      then Some (map (fun day => Hours day opens closes) days)
      else None
  | None => None
  end.

(** What one line contributes after [.flat().filter(Boolean)]. *)
Definition formatLine (line : string) : list hours :=
  match formatDayLine line with
  | Some nodes => nodes
  | None =>
      match formatRangeLine line with
      | Some nodes => nodes
      | None => []
      end
  end.

(** [formatBusinessHours(hoursInput)] *)
Definition formatBusinessHours (hoursInput : string) : option (list hours) :=
  if hoursInput =? "" then None
  else
    let lines := List.filter (fun line => negb (trim line =? "")) (splitLines hoursInput) in
    Some (flat_map formatLine lines).

(** *** The hours pattern of [parseHtmlContent] in [scraper.ts] *)

Definition dayAbbrev : regex :=
  alt [lit_i "Mon"; lit_i "Tue"; lit_i "Wed"; lit_i "Thu"; lit_i "Fri";
       lit_i "Sat"; lit_i "Sun"].

(** [\d{1,2}:\d{2}\s*(?:AM|PM)?] *)
Definition clockTime : regex :=
  seq [RRep is_digit 1 (Some 2); chr ":"; times is_digit 2; star is_space;
       opt (alt [lit_i "AM"; lit_i "PM"])].

(** The class of a hyphen, an en dash and an em dash (the dashes by their
    UTF-8 bytes). *)
Definition en_dash : string :=
  String (ascii_of_nat 226) (String (ascii_of_nat 128) (String (ascii_of_nat 147) "")).
Definition em_dash : string :=
  String (ascii_of_nat 226) (String (ascii_of_nat 128) (String (ascii_of_nat 148) "")).
Definition anyDash : regex := alt [chr "-"; lit en_dash; lit em_dash].

Definition space_or (c : ascii) (x : ascii) : bool := is_space x || Ascii.eqb x c.

(** [hoursPattern1], with the flags [gi] *)
Definition hoursPattern1 : regex :=
  seq [RGrp 1 dayAbbrev; opt (lit_i "day"); star (space_or "-");
       opt (RGrp 2 dayAbbrev); opt (lit_i "day"); star (space_or ":");
       RGrp 3 clockTime; star is_space; anyDash; star is_space;
       RGrp 4 clockTime].

(** [/(\d{1,2}):(\d{2})\s*(AM|PM)?/i] *)
Definition clockParts : regex :=
  seq [RGrp 1 (RRep is_digit 1 (Some 2)); chr ":"; RGrp 2 (times is_digit 2);
       star is_space; opt (RGrp 3 (alt [lit_i "AM"; lit_i "PM"]))].

(** [convertTo24Hour(time)] *)
Definition convertTo24Hour (time : string) : string :=
  match first_match clockParts time with
  | None => time
  | Some f =>
      let hours := group 1 f in
      let minutes := group 2 f in
      let period := option_map toUpperCase (cap 3 (f_caps f)) in
      let hour0 := parseInt hours in
      let hour1 :=
        if bool_decide (period = Some "PM") && negb (eqb hour0 (of_Z 12))
        then SFadd prec emax hour0 (of_Z 12) else hour0 in
      let hour2 :=
        if bool_decide (period = Some "AM") && eqb hour1 (of_Z 12)
        then of_Z 0 else hour1 in
      padStart2 (toString hour2) ++ ":" ++ minutes
  end.

Definition weekDays : list string :=
  ["Monday"; "Tuesday"; "Wednesday"; "Thursday"; "Friday"; "Saturday"; "Sunday"].

Definition dayAbbr : gmap string string :=
  list_to_map
    [("Mon", "Monday"); ("Tue", "Tuesday"); ("Wed", "Wednesday"); ("Thu", "Thursday");
     ("Fri", "Friday"); ("Sat", "Saturday"); ("Sun", "Sunday")].

(** [days.indexOf(d)] *)
Fixpoint indexOf (d : string) (l : list string) : option nat :=
  match l with
  | [] => None
  | x :: l' => if d =? x then Some 0%nat else option_map S (indexOf d l')
  end.

(** [getDayRange(start, end)] *)
Definition getDayRange (start_ end_ : string) : list string :=
  let startDay := default start_ (dayAbbr !! start_) in
  let endDay := default end_ (dayAbbr !! end_) in
  match indexOf startDay weekDays, indexOf endDay weekDays with
  | Some startIndex, Some endIndex =>
      firstn (endIndex + 1 - startIndex) (skipn startIndex weekDays)
  | _, _ => []
  end.

(** [capitalize(str)] *)
Definition capitalize (str : string) : string :=
  match str with
  | EmptyString => EmptyString
  | String c rest => String (upper_char c) (toLowerCase rest)
  end.

(** The nodes pushed for one match of [hoursPattern1]. *)
Definition hoursOfMatch (f : found) : list hours :=
  let day1 := group 1 f in
  let days :=
    match cap 2 (f_caps f) with
    | Some day2 => if day2 =? "" then [day1] else getDayRange day1 day2
    | None => [day1]
    end in
  map (fun day => Hours (capitalize day) (convertTo24Hour (group 3 f))
                    (convertTo24Hour (group 4 f))) days.

(** The loop [while ((match = hoursPattern1.exec(hoursText)) !== null)]:
    the value of [openingHoursSpecification] after it. *)
Definition parseOpeningHours (hoursText : string) : list hours :=
  flat_map hoursOfMatch
    (exec_all (S (String.length hoursText)) hoursPattern1 None hoursText).

(** * Vocabulary of the statements *)

(** ** The tables as finite maps

    What the lookups give for a key that names no built-in member: the
    own entry, or nothing.  The functions below are the functions of the
    source read with such lookups; the agreement is proved with the
    properties. *)

(** The pattern of a country. *)
Definition ownPattern (country : string) : regex :=
  default postal_US (postalCodePatterns !! country).

(** A postal code is accepted for a country. *)
Definition matchesPostalCode (postalCode country : string) : bool :=
  if postalCode =? "" then false
  else test (ownPattern country) postalCode.

(** The tier detected for a city, a category, a name and a description. *)
Definition detectedTier (city businessType : string)
    (businessName description : option string) : string :=
  if city =? "" then "$$"
  else
    let textualPriceIndicator :=
      detectTextTier
        (toLowerCase (default "" businessName ++ " " ++ default "" description)) in
    if negb (textualPriceIndicator =? "") then textualPriceIndicator
    else
      match cityPriceMapping !! trim (toLowerCase city) with
      | Some r => r
      | None =>
          match businessTypePriceMapping !! businessType with
          | Some r => r
          | None => "$$"
          end
      end.

(** The postal code of a city. *)
Definition zipOfCity (city : string) : option string :=
  commonCityZipMapping !! trim (toLowerCase city).

(** A key names no built-in member. *)
Definition plain (key : string) : Prop := inherited key = false.

(** ** The run of [validateFormData] on a form of texts

    On a form of texts no access to a field can fail; where the country,
    the city and the content type name no built-in member, the run is the
    following, step by step. *)

Definition vstate : Type := list string * gmap string string.

(** [if (!formData.k?.trim()) errors.push(msg)] *)
Definition require (formData : formdata) (k msg : string) (st : vstate) : vstate :=
  if filled_trim formData k then st else push msg st.

Section TextForm.

Variable URL_parses : string -> bool.

Definition requireArticle (formData : formdata) (st : vstate) : vstate :=
  require formData "publisherName" "Publisher name is required"
    (require formData "authorName" "Author name is required"
      (require formData "headline" "Article headline is required" st)).

Definition requireHowTo (formData : formdata) (st : vstate) : vstate :=
  require formData "howToName" "How-to title is required" st.

Definition requireAddress (formData : formdata) (st : vstate) : vstate :=
  require formData "addressRegion" "State/Region is required"
    (require formData "addressLocality" "City is required"
      (require formData "streetAddress" "Street address is required" st)).

Definition requireBusiness (formData : formdata) (isAiGenerated : bool)
    (st : vstate) : vstate :=
  let st1 :=
    require formData "description" "Business description is required"
      (require formData "name" "Business name is required" st) in
  if negb isAiGenerated then requireAddress formData st1 else st1.

Definition checkPostalCode (formData : formdata) (isAiGenerated : bool)
    (st : vstate) : vstate :=
  if filled_trim formData "postalCode" then
    if negb (matchesPostalCode (field formData "postalCode")
               (field_or formData "addressCountry" "US"))
    then reject isAiGenerated "postalCode" "Invalid postal code format" st
    else st
  else if isAiGenerated && filled_trim formData "addressLocality" then
    match zipOfCity (field formData "addressLocality") with
    | Some inferredZip =>
        if inferredZip =? "" then st else put "postalCode" inferredZip st
    | None => st
    end
  else st.

Definition autoDetectPriceRange (formData : formdata) (st : vstate) : vstate :=
  if negb (filled_trim formData "priceRange") && filled_trim formData "addressLocality"
  then
    put "priceRange"
      (detectedTier (field formData "addressLocality")
         (field_or formData "contentType" "LocalBusiness")
         (formData !! "name") (formData !! "description")) st
  else st.

Definition requiredFields (formData : formdata) (isAiGenerated : bool) (st : vstate) : vstate :=
  if field_is formData "contentType" "Article" then requireArticle formData st
  else if field_is formData "contentType" "HowTo" then requireHowTo formData st
  else
    autoDetectPriceRange formData
      (checkPostalCode formData isAiGenerated
        (requireBusiness formData isAiGenerated st)).

Definition checkTelephone (formData : formdata) (st : vstate) : vstate :=
  if filled formData "telephone"
  then put "telephone" (formatPhoneNumber (field formData "telephone")) st
  else st.

Definition checkEmail (formData : formdata) (isAiGenerated : bool) (st : vstate) : vstate :=
  if filled formData "email" && negb (isValidEmail (field formData "email"))
  then reject isAiGenerated "email" "Invalid email format" st
  else st.

Definition checkUrl (k msg : string) (formData : formdata) (isAiGenerated : bool)
    (st : vstate) : vstate :=
  if filled formData k && negb (isValidUrl URL_parses (field formData k))
  then reject isAiGenerated k msg st
  else st.

Definition checkLatitude (formData : formdata) (isAiGenerated : bool) (st : vstate) : vstate :=
  if filled formData "latitude" then
    let lat := parseFloat (field formData "latitude") in
    if outside lat (-90) 90
    then reject isAiGenerated "latitude" "Invalid latitude (must be between -90 and 90)" st
    else st
  else st.

Definition checkLongitude (formData : formdata) (isAiGenerated : bool) (st : vstate) : vstate :=
  if filled formData "longitude" then
    let lng := parseFloat (field formData "longitude") in
    if outside lng (-180) 180
    then reject isAiGenerated "longitude" "Invalid longitude (must be between -180 and 180)" st
    else st
  else st.

Definition checkRating (formData : formdata) (isAiGenerated : bool) (st : vstate) : vstate :=
  if filled formData "ratingValue" then
    let rating := parseFloat (field formData "ratingValue") in
    if outside rating 1 5
    then reject isAiGenerated "ratingValue" "Rating must be between 1 and 5" st
    else st
  else st.

Definition checkReviewCount (formData : formdata) (isAiGenerated : bool) (st : vstate) : vstate :=
  if filled formData "reviewCount" then
    let count := parseInt (field formData "reviewCount") in
    if isNaN count || ltb count (of_Z 1)
    then reject isAiGenerated "reviewCount" "Review count must be a positive number" st
    else st
  else st.

Definition checkPriceRange (formData : formdata) (st : vstate) : vstate :=
  if filled formData "priceRange"
  then put "priceRange" (validatePriceRange (field formData "priceRange")) st
  else st.

(** The result of the run. *)
Definition validateTexts (formData : formdata) (isAiGenerated : bool) : validation string :=
  let st0 : vstate := ([], formData) in
  let st1 := requiredFields formData isAiGenerated st0 in
  let st2 := checkTelephone formData st1 in
  let st3 := checkEmail formData isAiGenerated st2 in
  let st4 := checkUrl "websiteUrl" "Invalid website URL" formData isAiGenerated st3 in
  let st5 := checkUrl "publisherLogoUrl" "Invalid publisher logo URL" formData isAiGenerated st4 in
  let st6 := checkLatitude formData isAiGenerated st5 in
  let st7 := checkLongitude formData isAiGenerated st6 in
  let st8 := checkRating formData isAiGenerated st7 in
  let st9 := checkReviewCount formData isAiGenerated st8 in
  let st10 := checkPriceRange formData st9 in
  Validation (match st10.1 with [] => true | _ => false end) st10.1 st10.2.

End TextForm.

(** The names that decide a lookup in a run over the form: the country of
    the postal pattern, the city and the content type of the tables. *)
Definition plain_names (formData : formdata) : Prop :=
  plain (field_or formData "addressCountry" "US") /\
  plain (trim (toLowerCase (field formData "addressLocality"))) /\
  plain (field_or formData "contentType" "LocalBusiness").

(** A state and a result of [validateFormData] whose cleaned data are
    texts. *)
Definition state_of_texts (st : vstate) : vstateV := (st.1, formObject st.2).

Definition of_texts (r : validation string) : validation value :=
  Validation (isValid r) (errors r) (formObject (cleanedData r)).

(** The character before a position reached by skipping [pre]. *)
Definition prev_after (prev : option ascii) (pre : string) : option ascii :=
  match last_char pre with
  | Some c => Some c
  | None => prev
  end.

(** The pattern occurs somewhere in the string. *)
Definition occurs_in (r : regex) (s : string) : Prop :=
  exists pre post, s = pre ++ post /\ is_Some (match_here r (last_char pre) post).

(** The price-tier classifier as the specification words it
    ([classifyPriceTier]): the tier language of the name and description
    first, then the city table, then the category table, then ["$$"].  The
    tiers are tried in the order listed. *)
Definition tierLanguage : list (string * list string) :=
  [("$$$$", ["luxury"; "premium"; "exclusive"; "high-end"]);
   ("$$$", ["upscale"; "boutique"; "sophisticated"]);
   ("$", ["affordable"; "budget"; "discount"; "cheap"]);
   ("$$", ["value"; "reasonable"; "moderate"])].

Definition textTier (text : string) : option string :=
  option_map fst (find (fun tw => existsb (includes text) (snd tw)) tierLanguage).

Definition classifyPriceTier (city category : string)
    (name description : option string) : string :=
  match textTier (toLowerCase (default "" name ++ " " ++ default "" description)) with
  | Some tier => tier
  | None =>
      match cityPriceMapping !! trim (toLowerCase city) with
      | Some tier => tier
      | None => default "$$" (businessTypePriceMapping !! category)
      end
  end.

(** The list [businessTypes] of [validateSchema], the shallow validator
    that runs on the cleaned document. *)
Definition validateSchema_businessTypes : list string :=
  ["LocalBusiness"; "Restaurant"; "ProfessionalService"; "LegalService";
   "MedicalBusiness"; "HVACBusiness"; "HomeAndConstructionBusiness";
   "AutomotiveBusiness"].

(** A geo node with the given coordinates. *)
Definition geoNode (latitude longitude : value) : value :=
  VObj [("@type", VStr "GeoCoordinates"); ("latitude", latitude);
        ("longitude", longitude)].

(** A stand-in for the URL parser of the platform in closed examples: it
    takes the absolute http and https addresses. *)
Definition http_URL_parses (s : string) : bool :=
  startsWith s "http://" || startsWith s "https://".

(** The digits of a phone number, and the two groupings of
    [formatPhoneNumber]. *)
Definition digitsOf (phone : string) : string := keep is_digit phone.

Fixpoint all_chars (p : ascii -> bool) (s : string) : bool :=
  match s with
  | EmptyString => true
  | String c s' => p c && all_chars p s'
  end.

(** A text of ASCII characters, and a form of such texts. *)
Definition ascii_only (s : string) : bool := all_chars (fun c => (code c <? 128)%nat) s.

Definition ascii_form (formData : formdata) : Prop :=
  map_Forall (fun _ s => ascii_only s = true) formData.

Definition usGrouping (a b c : string) : string := "+1-" ++ a ++ "-" ++ b ++ "-" ++ c.
Definition ukGrouping (a b c : string) : string := "+44-" ++ a ++ "-" ++ b ++ "-" ++ c.

(** UK-shaped: the digits begin with 44 or with 0. *)
Definition ukShaped (digits : string) : bool :=
  startsWith digits "44" || startsWith digits "0".

(** The four ordinal tiers, and the shape the code takes for canonical: a
    non-empty run of dollar signs. *)
Definition tiers4 : list string := ["$"; "$$"; "$$$"; "$$$$"].

Definition dollar_run (s : string) : Prop :=
  s <> "" /\ all_chars (Ascii.eqb "$") s = true.

(** The six fields whose values [validateFormData] checks for format or
    range, the message of each and what makes a value invalid. *)
Inductive checkedField : Type :=
| CEmail | CWebsiteUrl | CLatitude | CLongitude | CRatingValue | CReviewCount.

Definition fieldName (c : checkedField) : string :=
  match c with
  | CEmail => "email"
  | CWebsiteUrl => "websiteUrl"
  | CLatitude => "latitude"
  | CLongitude => "longitude"
  | CRatingValue => "ratingValue"
  | CReviewCount => "reviewCount"
  end.

Definition errorMessage (c : checkedField) : string :=
  match c with
  | CEmail => "Invalid email format"
  | CWebsiteUrl => "Invalid website URL"
  | CLatitude => "Invalid latitude (must be between -90 and 90)"
  | CLongitude => "Invalid longitude (must be between -180 and 180)"
  | CRatingValue => "Rating must be between 1 and 5"
  | CReviewCount => "Review count must be a positive number"
  end.

(** Not a number, or below [lo], or above [hi]. *)
Definition out_of_range (x : number) (lo hi : Z) : bool :=
  isNaN x || ltb x (of_Z lo) || gtb x (of_Z hi).

Definition invalidValue (URL_parses : string -> bool) (c : checkedField) (v : string) : bool :=
  match c with
  | CEmail => negb (isValidEmail v)
  | CWebsiteUrl => negb (URL_parses v)
  | CLatitude => out_of_range (parseFloat v) (-90) 90
  | CLongitude => out_of_range (parseFloat v) (-180) 180
  | CRatingValue => out_of_range (parseFloat v) 1 5
  | CReviewCount => isNaN (parseInt v) || ltb (parseInt v) (of_Z 1)
  end.

(** Two states of a validation run that agree but for one field, which the
    second has lost. *)
Definition same_but (f : string) (st st' : vstate) : Prop :=
  st'.1 = st.1 /\ st'.2 = delete f st.2.

(** A step leaves a field of the cleaned data alone; a step keeps the
    messages pushed before it. *)
Definition keeps_key (k : string) (T : vstate -> vstate) : Prop :=
  forall st, (T st).2 !! k = st.2 !! k.

Definition keeps_errors (T : vstate -> vstate) : Prop :=
  forall st m, In m st.1 -> In m (T st).1.

(** The messages [validateFormData] can push for generated content. *)
Definition lenientMessages : list string :=
  ["Article headline is required"; "Author name is required";
   "Publisher name is required"; "How-to title is required";
   "Business name is required"; "Business description is required"].

(** The step of [validateFormData] that checks a field. *)
Definition checkOf (URL_parses : string -> bool) (c : checkedField)
    (formData : formdata) (isAiGenerated : bool) : vstate -> vstate :=
  match c with
  | CEmail => checkEmail formData isAiGenerated
  | CWebsiteUrl => checkUrl URL_parses "websiteUrl" "Invalid website URL" formData isAiGenerated
  | CLatitude => checkLatitude formData isAiGenerated
  | CLongitude => checkLongitude formData isAiGenerated
  | CRatingValue => checkRating formData isAiGenerated
  | CReviewCount => checkReviewCount formData isAiGenerated
  end.

(** A business form with an invalid email and a sixth dollar tier, for the
    closed examples. *)
Definition sampleForm : formdata :=
  list_to_map
    [("contentType", "Restaurant"); ("name", "Chez Nous");
     ("description", "Family bistro"); ("streetAddress", "12 Elm St");
     ("addressLocality", "Austin"); ("addressRegion", "TX");
     ("email", "chez-nous-at-example"); ("priceRange", "$$$$$")].

(** A business form typed in by hand, with a latitude followed by words
    and a review count in exponent notation. *)
Definition looseNumbersForm : formdata :=
  list_to_map
    [("contentType", "Restaurant"); ("name", "Chez Nous");
     ("description", "Family bistro"); ("streetAddress", "12 Elm St");
     ("addressLocality", "Austin"); ("addressRegion", "TX");
     ("latitude", "45 degrees north"); ("reviewCount", "1e-5")].

(** The five nodes of the Monday to Friday scenario. *)
Definition mondayToFriday (opens closes : string) : list hours :=
  map (fun day => Hours day opens closes)
    ["Monday"; "Tuesday"; "Wednesday"; "Thursday"; "Friday"].

(** Where the values of a repaired node come from: a value is fresh when
    it is not an object, or is the default answer, or is an array without
    objects; the fields of a node derived from [o] are fresh or fields of
    [o]. *)
Definition fresh (v : value) : Prop :=
  is_object v = false \/ v = answerDefault \/
  exists l, v = VArr l /\ forallb (fun x => negb (is_object x)) l = true.

Definition from_node (o : Obj.t) (v : value) : Prop :=
  fresh v \/ exists k, Obj.lookup k o = Some v.

Definition derived (o o' : Obj.t) : Prop :=
  forall k v, Obj.lookup k o' = Some v -> from_node o v.

(** The node a rule returns, if it returns one, is derived from [o]. *)
Definition yields_derived (o : Obj.t) (r : result (option Obj.t)) : Prop :=
  forall o', r = Ok (Some o') -> derived o o'.

Definition gives_derived (o : Obj.t) (r : result Obj.t) : Prop :=
  forall o', r = Ok o' -> derived o o'.


(** * Further parts of the code

    The helpers of [scraper.ts], the opening hours of the form in the page
    component and the remaining exports of [utils.ts]: [validateSchema],
    [processFAQData] and [generateLocalSEOMetaTags]. *)
(** ** The helpers of [scraper.ts] *)

Module Scraper.

(** [formatPhoneNumber(phone)] of [scraper.ts]: the two North American
    groupings, any other text as it is. *)
Definition formatPhoneNumber (phone : string) : string :=
  let digits := keep is_digit phone in
  if (String.length digits =? 10)%nat then
    "+1-" ++ slice 0 3 digits ++ "-" ++ slice 3 6 digits ++ "-" ++ sliceFrom 6 digits
  else if (String.length digits =? 11)%nat && startsWith digits "1" then
    "+" ++ slice 0 1 digits ++ "-" ++ slice 1 4 digits ++ "-" ++ slice 4 7 digits
        ++ "-" ++ sliceFrom 7 digits
  else phone.

End Scraper.

(** ** The opening hours typed in the form

    The part of [generateSchema] in the page component that turns the
    business hours of the form into nodes, before the entity is cleaned. *)

(** [s.split(sep)] for a separator of one character *)
Fixpoint splitOn_go (sep : ascii) (cur : string) (s : string) : list string :=
  match s with
  | EmptyString => [String.rev cur]
  | String c s' =>
      if Ascii.eqb c sep then String.rev cur :: splitOn_go sep EmptyString s'
      else splitOn_go sep (String c cur) s'
  end.
Definition splitOn (sep : ascii) (s : string) : list string :=
  splitOn_go sep EmptyString s.

(** The object literal of an opening-hours node. *)
Definition hoursNode (h : hours) : value :=
  VObj [("@type", VStr "OpeningHoursSpecification"); ("dayOfWeek", VStr (dayOfWeek h));
        ("opens", VStr (opens h)); ("closes", VStr (closes h))].

(** What one line of the business hours becomes: [null] unless the line
    has a colon and the text between the first colon and the second has
    an opening and a closing part around a hyphen. *)
Definition formHoursLine (line : string) : option hours :=
  match splitOn ":" line with
  | part0 :: part1 :: _ =>
      let dayOfWeek := trim part0 in
      let timeRange := trim part1 in
      match map trim (splitOn "-" timeRange) with
      | opens :: closes :: _ =>
          if negb (opens =? "") && negb (closes =? "")
          then Some (Hours dayOfWeek opens closes)
          else None
      | _ => None
      end
  | _ => None
  end.

(** The value of [openingHours] in [generateSchema]: [undefined] for an
    empty text, else the nodes of the lines that are not blank. *)
Definition formOpeningHours (businessHours : string) : option (list hours) :=
  if businessHours =? "" then None
  else
    let hoursLines :=
      List.filter (fun line => negb (trim line =? "")) (splitLines businessHours) in
    Some (omap formHoursLine hoursLines).

(** ** Frequently asked questions: [processFAQData] of [utils.ts] *)

(** [/^\d+\.\s*/] *)
Definition numbering : regex := seq [RBol; plus is_digit; chr "."; star is_space].

(** [s.replace(r, '')] for a pattern without the [g] flag: the first
    match is cut out. *)
Definition removeFirst (r : regex) (s : string) : string :=
  match first_match r s with
  | Some f =>
      take (String.length s - String.length (f_text f) - String.length (f_rest f)) s
      ++ f_rest f
  | None => s
  end.

Definition defaultAnswerText : string := "Contact us for more information.".

(** The object literal of a question. *)
Definition faqNode (name text : string) : value :=
  VObj [("@type", VStr "Question"); ("name", VStr name);
        ("acceptedAnswer", VObj [("@type", VStr "Answer"); ("text", VStr text)])].

Definition nonBlank (line : string) : bool := negb (trim line =? "").

(** [processFAQData(questions, answers)] *)
Definition processFAQData (questions answers : string) : list value :=
  if questions =? "" then []
  else
    let questionList := List.filter nonBlank (splitLines questions) in
    let answerList :=
      if answers =? "" then [] else List.filter nonBlank (splitLines answers) in
    imap (fun index question =>
            faqNode (removeFirst numbering (trim question))
              (match answerList !! index with
               | Some a => if trim a =? "" then defaultAnswerText else trim a
               | None => defaultAnswerText
               end))
         questionList.

(** ** Meta tags: [generateLocalSEOMetaTags] of [utils.ts] *)

Definition quote : string := String (ascii_of_nat 34) "".
Definition newline : string := String (ascii_of_nat 10) "".

(** The template of a tag; the content goes in as it is. *)
Definition metaTag (name content : string) : string :=
  "<meta name=" ++ quote ++ name ++ quote ++ " content=" ++ quote ++ content ++ quote
  ++ ">".

(** [if (formData.k) tags.push(...)] *)
Definition tagOf (formData : formdata) (k name : string) : list string :=
  if filled formData k then [metaTag name (field formData k)] else [].

(** The array [tags] before it is joined. *)
Definition metaTags (formData : formdata) : list string :=
  (tagOf formData "description" "description"
   ++ tagOf formData "addressRegion" "geo.region"
   ++ tagOf formData "addressLocality" "geo.placename"
   ++ tagOf formData "postalCode" "geo.postal-code"
   ++ (if filled formData "latitude" && filled formData "longitude" then
         [metaTag "geo.position"
            (field formData "latitude" ++ ";" ++ field formData "longitude");
          metaTag "ICBM"
            (field formData "latitude" ++ ", " ++ field formData "longitude")]
       else [])
   ++ tagOf formData "voiceKeywords" "keywords"
   ++ tagOf formData "voiceSummary" "voice-summary"
   ++ tagOf formData "priceRange" "price-range")%list.

(** [generateLocalSEOMetaTags(formData)] *)
Definition generateLocalSEOMetaTags (formData : formdata) : string :=
  String.concat newline (metaTags formData).

(** ** The shallow validator: [validateSchema] of [utils.ts] *)

Module Schema.

Record report : Type := Report {
  isValid : bool;
  errors : list string
}.

Section Validator.

Variable URL_parses : string -> bool.

(** [if (cond) errors.push(msg)]: the messages a step adds. *)
Definition check (cond : bool) (msg : string) : list string :=
  if cond then [msg] else [].

(** [v === s] for a string [s] *)
Definition is_string (v : value) (s : string) : bool :=
  match v with VStr t => t =? s | _ => false end.

(** The block of a page. *)
Definition webPageErrors (schema : value) : list string :=
  ((if negb (truthy (prop schema "url")) then ["WebPage schema missing url property"]
    else if negb (isValidUrlV URL_parses (prop schema "url"))
         then ["WebPage schema has invalid URL"]
         else [])
   ++ check (negb (truthy (prop schema "name"))
             && negb (truthy (prop (prop schema "mainEntity") "name")))
        "WebPage schema missing name property")%list.

(** The address is looked at for warnings only; the postal code goes
    through [isValidPostalCode]. *)
Definition addressWarnings (address : value) : result unit :=
  if negb (truthy address) then Ok tt
  else if truthy (prop address "postalCode") then
    _ ← isValidPostalCodeV (prop address "postalCode") (prop address "addressCountry");
    Ok tt
  else Ok tt.

Definition ratingErrors (aggregateRating : value) : result (list string) :=
  if truthy aggregateRating then
    sr ← toStr (prop aggregateRating "ratingValue");
    let rating := parseFloat sr in
    sc ← toStr (prop aggregateRating "reviewCount");
    let reviewCount := parseInt sc in
    Ok (check (isNaN rating || ltb rating (of_Z 1) || gtb rating (of_Z 5))
          "Invalid rating value (must be between 1 and 5)"
        ++ check (isNaN reviewCount || ltb reviewCount (of_Z 1))
             "Invalid review count (must be positive number)")%list
  else Ok [].

Definition geoErrors (geo : value) : result (list string) :=
  if truthy geo then
    slat ← toStr (prop geo "latitude");
    let lat := parseFloat slat in
    slng ← toStr (prop geo "longitude");
    let lng := parseFloat slng in
    Ok (check (isNaN lat || ltb lat (of_Z (-90)) || gtb lat (of_Z 90))
          "Invalid latitude (must be between -90 and 90)"
        ++ check (isNaN lng || ltb lng (of_Z (-180)) || gtb lng (of_Z 180))
             "Invalid longitude (must be between -180 and 180)")%list
  else Ok [].

Definition emailErrors (email : value) : result (list string) :=
  if truthy email then
    e ← toStr email; Ok (check (negb (isValidEmail e)) "Invalid email format")
  else Ok [].

(** The loop over [sameAs], from [index] on. *)
Fixpoint sameAsErrors (index : nat) (urls : list value) : list string :=
  match urls with
  | [] => []
  | url :: rest =>
      (check (negb (isValidUrlV URL_parses url))
         ("Invalid social media URL at index " ++ toString (of_Z (Z.of_nat index)))
       ++ sameAsErrors (S index) rest)%list
  end.

(** [business.priceRange.match(...)], for a warning only: a value that
    is not a string has no such method. *)
Definition priceRangeWarning (priceRange : value) : result unit :=
  if truthy priceRange then _ ← as_string priceRange; Ok tt else Ok tt.

(** The block of a business, after the test that the entity is there. *)
Definition businessErrors (business : value) : result (list string) :=
  let nameErrors :=
    check (negb (truthy (prop business "name"))) "Business schema missing name property" in
  _ ← addressWarnings (prop business "address");
  rating ← ratingErrors (prop business "aggregateRating");
  geo ← geoErrors (prop business "geo");
  email ← emailErrors (prop business "email");
  let url :=
    check (truthy (prop business "url")
           && negb (isValidUrlV URL_parses (prop business "url")))
      "Invalid business URL format" in
  let sameAs :=
    match prop business "sameAs" with
    | VArr urls => sameAsErrors 0 urls
    | _ => []
    end in
  _ ← priceRangeWarning (prop business "priceRange");
  Ok (nameErrors ++ rating ++ geo ++ email ++ url ++ sameAs)%list.

Definition articleErrors (schema : value) : list string :=
  (check (negb (truthy (prop schema "headline"))) "Article schema missing headline"
   ++ check (negb (truthy (prop schema "author"))
             || negb (truthy (prop (prop schema "author") "name")))
        "Article schema missing author name"
   ++ check (negb (truthy (prop schema "publisher"))
             || negb (truthy (prop (prop schema "publisher") "name")))
        "Article schema missing publisher name"
   ++ check (negb (truthy (prop schema "datePublished")))
        "Article schema missing datePublished")%list.

Definition howToErrors (schema : value) : list string :=
  (check (negb (truthy (prop schema "name"))) "HowTo schema missing name"
   ++ check (match prop schema "step" with
             | VArr (_ :: _) => false
             | _ => true
             end)
        "HowTo schema missing steps")%list.

(** [validateSchema(schema)].  The messages are pushed in the order of
    the blocks; the two early returns give an invalid report at once. *)
Definition validateSchema (schema : value) : result report :=
  if negb (truthy schema) || negb (is_object schema)
  then Ok (Report false ["Schema must be an object"])
  else
    let type := prop schema "@type" in
    let head :=
      (check (negb (truthy (prop schema "@context"))) "Missing @context property"
       ++ check (negb (truthy type)) "Missing @type property"
       ++ (if is_string type "WebPage" then webPageErrors schema else []))%list in
    let tail :=
      ((if is_string type "Article" then articleErrors schema else [])
       ++ (if is_string type "HowTo" then howToErrors schema else []))%list in
    if includes_type validateSchema_businessTypes type
       || (truthy (prop schema "mainEntity")
           && includes_type validateSchema_businessTypes
                (prop (prop schema "mainEntity") "@type"))
    then
      let business := if is_string type "WebPage" then prop schema "mainEntity" else schema in
      if negb (truthy business)
      then Ok (Report false (head ++ ["Business entity is missing"]))
      else
        found ← businessErrors business;
        let errors := (head ++ found ++ tail)%list in
        Ok (Report (match errors with [] => true | _ => false end) errors)
    else
      let errors := (head ++ tail)%list in
      Ok (Report (match errors with [] => true | _ => false end) errors).

End Validator.

End Schema.

(** ** What a pattern matches

    The declarative reading of a pattern: [matches r prev s prev' s'] when
    [r] can take the input [s], entered after the character [prev], down to
    [s'], which it leaves after the character [prev']. *)
Fixpoint matches (r : regex) (prev : option ascii) (s : string)
    (prev' : option ascii) (s' : string) : Prop :=
  match r with
  | RChr p => exists c, s = String c s' /\ p c = true /\ prev' = Some c
  | RRep p lo hi =>
      exists a, s = a ++ s' /\ all_chars p a = true /\ (lo <= String.length a)%nat /\
                (forall h, hi = Some h -> (String.length a <= h)%nat) /\
                prev' = prev_after prev a
  | REps => prev' = prev /\ s' = s
  | RSeq a b => exists q t, matches a prev s q t /\ matches b q t prev' s'
  | RAlt a b => matches a prev s prev' s' \/ matches b prev s prev' s'
  | RGrp _ a => matches a prev s prev' s'
  | RBow =>
      prev' = prev /\ s' = s /\
      xorb (word_before (MState prev s [])) (word_after (MState prev s [])) = true
  | RBol => prev' = prev /\ s' = s /\ prev = None
  | REol => prev' = prev /\ s' = s /\ s = ""
  end.

(** A continuation whose success does not depend on the captures. *)
Definition blind {A : Type} (k : mstate -> option A) : Prop :=
  forall p s c c', is_Some (k (MState p s c)) -> is_Some (k (MState p s c')).

(** ** Clock times

    A decimal digit, a number below 100 with two digits, and the two ways
    of writing a time of the 24-hour day: ["HH:MM"] and, before ten
    o'clock, ["H:MM"]. *)
Definition digit (d : nat) : string := String (ascii_of_nat (48 + d)) "".
Definition two_digits (n : nat) : string := digit (n / 10) ++ digit (n mod 10).
Definition clock (h m : nat) : string := two_digits h ++ ":" ++ two_digits m.
Definition clock_short (h m : nat) : string := digit h ++ ":" ++ two_digits m.

(** The text is a time of the 24-hour day. *)
Definition is_clock24 (t : string) : Prop :=
  exists h m, (h < 24)%nat /\ (m < 60)%nat /\
    (t = clock h m \/ ((h < 10)%nat /\ t = clock_short h m)).

(** [p] holds below the bounds: the finite checks of the proofs. *)
Definition all_below (n : nat) (p : nat -> bool) : bool := forallb p (List.seq 0 n).

(** A part of an email address: not empty, without white space and
    without an at sign. *)
Definition email_part (s : string) : Prop :=
  s <> "" /\ all_chars no_space_at s = true.

(** A two-letter code in upper case, as the postal abbreviation of a
    state. *)
Definition state_code (s : string) : bool :=
  (String.length s =? 2)%nat && all_chars is_upper s.

(** The fields whose value [validateFormData] may change or drop. *)
Definition adjustedFields : list string :=
  ["telephone"; "priceRange"; "postalCode"; "email"; "websiteUrl";
   "publisherLogoUrl"; "latitude"; "longitude"; "ratingValue"; "reviewCount"].

(** ** Documents without empty values

    A document is pruned when no field of an object in it holds null,
    undefined, an empty string, an empty array or an object with neither
    keys nor a type, and no item of an array in it is null, undefined or
    an empty string. *)
Fixpoint pruned (v : value) : bool :=
  match v with
  | VArr items =>
      forallb (fun x => negb (is_nullish x || is_empty_string x) && pruned x) items
  | VObj o => forallb (fun kv => keep_cleaned (snd kv) && pruned (snd kv)) o
  | _ => true
  end.

(** The hour of a 12-hour clock time on the 24-hour clock. *)
Definition hour24 (h : nat) (pm : bool) : nat :=
  if pm then (h mod 12 + 12)%nat else (h mod 12)%nat.

(** The ways of writing the hour [h]: with two digits, and with one when
    it is below ten. *)
Definition hour_texts (h : nat) : list string :=
  if (h <? 10)%nat then [digit h; two_digits h] else [two_digits h].

(** The ways of writing the period after the minutes that
    [convertTo24Hour] reads, for the morning ([pm] false) and the
    afternoon. *)
Definition period_texts (pm : bool) : list string :=
  if pm then ["PM"; " PM"; "pm"; " pm"] else ["AM"; " AM"; "am"; " am"].

(** The three-letter abbreviations of the days, the two ways of writing
    day number [i] (Monday is day 0) and the days from number [i] to
    number [j]. *)
Definition dayAbbrs : list string := ["Mon"; "Tue"; "Wed"; "Thu"; "Fri"; "Sat"; "Sun"].

Definition day_texts (i : nat) : list string := [nth i weekDays ""; nth i dayAbbrs ""].

Definition days_from_to (i j : nat) : list string :=
  map (fun k => nth k weekDays "") (List.seq i (j + 1 - i)).

(** The fields that [generateLocalSEOMetaTags] turns into one tag each. *)
Definition taggedFields : list string :=
  ["description"; "addressRegion"; "addressLocality"; "postalCode"; "voiceKeywords";
   "voiceSummary"; "priceRange"].

(** The messages [validateSchema] has for an object, those of the loop
    over [sameAs] apart, which carry an index. *)
Definition schemaMessages : list string :=
  ["Missing @context property"; "Missing @type property";
   "WebPage schema missing url property"; "WebPage schema has invalid URL";
   "WebPage schema missing name property"; "Business schema missing name property";
   "Invalid rating value (must be between 1 and 5)";
   "Invalid review count (must be positive number)";
   "Invalid latitude (must be between -90 and 90)";
   "Invalid longitude (must be between -180 and 180)";
   "Invalid email format"; "Invalid business URL format";
   "Article schema missing headline"; "Article schema missing author name";
   "Article schema missing publisher name"; "Article schema missing datePublished";
   "HowTo schema missing name"; "HowTo schema missing steps"].

Definition sameAsMessage (m : string) : Prop :=
  exists index : nat,
    m = "Invalid social media URL at index " ++ toString (of_Z (Z.of_nat index)).

Definition listed (m : string) : Prop := In m schemaMessages \/ sameAsMessage m.



(** ** A run of the matcher

    [run r st st'] when the pattern [r] can take the matcher from the
    state [st] to the state [st'], captures included: the declarative
    reading of [matches] with the capture list. *)
Fixpoint run (r : regex) (st st' : mstate) : Prop :=
  match r with
  | RChr p =>
      exists c s', m_rest st = String c s' /\ p c = true /\
                   st' = MState (Some c) s' (m_caps st)
  | RRep p lo hi =>
      exists a s', m_rest st = a ++ s' /\ all_chars p a = true /\
                   (lo <= String.length a)%nat /\
                   (forall h, hi = Some h -> (String.length a <= h)%nat) /\
                   st' = MState (prev_after (m_prev st) a) s' (m_caps st)
  | REps => st' = st
  | RSeq a b => exists mid, run a st mid /\ run b mid st'
  | RAlt a b => run a st st' \/ run b st st'
  | RGrp i a =>
      exists mid, run a st mid /\
                  st' = MState (m_prev mid) (m_rest mid)
                          ((i, consumed (m_rest st) (m_rest mid)) :: m_caps mid)
  | RBow => st' = st /\ xorb (word_before st) (word_after st) = true
  | RBol => st' = st /\ m_prev st = None
  | REol => st' = st /\ m_rest st = ""
  end.

(** A pattern without anchors and word boundaries. *)
Fixpoint anchor_free (r : regex) : bool :=
  match r with
  | RChr _ | RRep _ _ _ | REps => true
  | RSeq a b | RAlt a b => anchor_free a && anchor_free b
  | RGrp _ a => anchor_free a
  | RBow | RBol | REol => false
  end.

(** A text that begins and ends with a word character. *)
Definition word_edged (m : string) : Prop :=
  exists c rest cl, m = String c rest /\ is_word c = true /\
                    last_char m = Some cl /\ is_word cl = true.

(** A property of every character, checked on the 256 of them. *)
Definition forall_ascii (f : ascii -> bool) : bool :=
  forallb (fun n => f (ascii_of_nat n)) (List.seq 0 256).

Definition word_class (p : ascii -> bool) : bool :=
  forall_ascii (fun c => implb (p c) (is_word c)).

(** What can be read off a pattern: every match takes a character at
    least; every match that is not empty begins, or ends, with a word
    character. *)
Fixpoint nonempty (r : regex) : bool :=
  match r with
  | RChr _ => true
  | RRep _ lo _ => (1 <=? lo)%nat
  | RSeq a b => nonempty a || nonempty b
  | RAlt a b => nonempty a && nonempty b
  | RGrp _ a => nonempty a
  | _ => false
  end.

Fixpoint head_ok (r : regex) : bool :=
  match r with
  | RChr p | RRep p _ _ => word_class p
  | RSeq a b => head_ok a && (nonempty a || head_ok b)
  | RAlt a b => head_ok a && head_ok b
  | RGrp _ a => head_ok a
  | _ => true
  end.

Fixpoint tail_ok (r : regex) : bool :=
  match r with
  | RChr p | RRep p _ _ => word_class p
  | RSeq a b => tail_ok b && (nonempty b || tail_ok a)
  | RAlt a b => tail_ok a && tail_ok b
  | RGrp _ a => tail_ok a
  | _ => true
  end.

Definition starts_word (m : string) : Prop :=
  match m with String c _ => is_word c = true | EmptyString => True end.
Definition ends_word (m : string) : Prop :=
  match last_char m with Some c => is_word c = true | None => True end.

(** A pattern between two word boundaries. *)
Definition bounded (body : regex) : regex := RSeq RBow (RSeq body RBow).

(** A pattern whose matches are words: it has no anchor, takes a
    character at least, and its matches begin and end with a word
    character. *)
Definition wordy (body : regex) : bool :=
  anchor_free body && nonempty body && head_ok body && tail_ok body.

(** The bodies of the postal patterns, between the two [\b]. *)
Definition postalBodies : list (string * regex) :=
  [("US", seq [times is_digit 5; opt (RGrp 1 (seq [chr "-"; times is_digit 4]))]);
   ("CA", seq [RChr is_alpha; RChr is_digit; RChr is_alpha; star is_space;
               RChr is_digit; RChr is_alpha; RChr is_digit]);
   ("UK", seq [RRep is_alpha 1 (Some 2); RChr is_digit; RRep alnum 0 (Some 1);
               star is_space; RChr is_digit; times is_alpha 2]);
   ("AU", times is_digit 4); ("DE", times is_digit 5); ("FR", times is_digit 5)].

(** The indices of the capture groups of a pattern. *)
Fixpoint groups (r : regex) : list nat :=
  match r with
  | RGrp i a => i :: groups a
  | RSeq a b | RAlt a b => (groups a ++ groups b)%list
  | _ => []
  end.

(** ** Documents without typed nodes

    No object of the document has a truthy ["@type"]: the cleaner has no
    rule for it and prunes only.  [distinct_keys]: no object of the
    document has a key twice, as it is for every object of JavaScript, and
    none has the key ["__proto__"], as it is for every object that the
    cleaner rebuilds. *)
Fixpoint untyped (v : value) : bool :=
  match v with
  | VArr items => forallb untyped items
  | VObj o =>
      negb (truthy (Obj.get "@type" o)) && forallb (fun kv => untyped (snd kv)) o
  | _ => true
  end.

Fixpoint distinct_keys (v : value) : bool :=
  match v with
  | VArr items => forallb distinct_keys items
  | VObj o =>
      bool_decide (NoDup (Obj.keys o)) && negb (Obj.has "__proto__" o)
      && forallb (fun kv => distinct_keys (snd kv)) o
  | _ => true
  end.

(** Documents and a form for the closed examples. *)
Definition sparseDocument : value :=
  VObj [("title", VStr "Hours"); ("note", VStr ""); ("tags", VArr [VNull; VStr "open"]);
        ("extra", VObj [("empty", VArr [])])].

Definition sparseDocumentCleaned : value :=
  VObj [("title", VStr "Hours"); ("tags", VArr [VStr "open"])].

Definition closedHoursNode : Obj.t :=
  [("@type", VStr "OpeningHoursSpecification"); ("dayOfWeek", VStr "Monday");
   ("opens", VStr ""); ("closes", VStr "17:00")].

Definition namelessBusiness : Obj.t := [("@type", VStr "HVACBusiness")].

Definition namelessReport : Schema.report :=
  Schema.Report false ["Missing @context property"; "Business schema missing name property"].


Definition howToDocument : value :=
  VObj [("@context", VStr "https://schema.org/"); ("@type", VStr "HowTo");
        ("name", VStr "Bake bread"); ("step", VArr [VStr "Knead"])].

Definition faqQuestions : string :=
  "1. Open on Sunday?" ++ newline ++ newline ++ "2. Do you deliver?".
Definition faqAnswers : string :=
  " Yes, from ten. " ++ newline ++ "Within five miles.".

Definition describedForm : formdata := {[ "description" := "Family bistro" ]}.

(** The state of the rebuilt object while the keys are folded. *)
Definition settled_acc (acc : Obj.t) : Prop :=
  NoDup (Obj.keys acc) /\ Obj.has "__proto__" acc = false /\
  forallb (fun kv => untyped (snd kv)) acc = true /\
  forallb (fun kv => distinct_keys (snd kv)) acc = true /\
  truthy (Obj.get "@type" acc) = false.
(** * Properties *)

(** ** The matcher *)

Section MatcherFacts.
Import Regex.

Local Ltac absurd_some := let H := fresh in intros [? H]; discriminate H.

(** A continuation that succeeds more often lets the match succeed
    more often. *)
Lemma rep_mono {A B : Type} (p : ascii -> bool) (lo : nat) (hi : option nat)
    (k : mstate -> option A) (k' : mstate -> option B) :
  (forall st, is_Some (k st) -> is_Some (k' st)) ->
  forall s n prev caps,
    is_Some (rep p lo hi n prev s caps k) -> is_Some (rep p lo hi n prev s caps k').
Proof.
  intros Hk s. induction s as [|c s IH]; intros n prev caps; simpl.
  - destruct (lo <=? n)%nat; [apply Hk | absurd_some].
  - destruct (p c && below n hi).
    + destruct (rep p lo hi (S n) (Some c) s caps k) eqn:E.
      * intros _. specialize (IH (S n) (Some c) caps).
        rewrite E in IH. destruct IH as [x Hx]; [eauto|]. rewrite Hx. eauto.
      * intros H. destruct (rep p lo hi (S n) (Some c) s caps k'); [eauto|].
        destruct (lo <=? n)%nat; [apply Hk, H | destruct H; discriminate].
    + destruct (lo <=? n)%nat; [apply Hk | absurd_some].
Qed.

Lemma rmatch_mono {A B : Type} (r : regex) :
  forall (k : mstate -> option A) (k' : mstate -> option B) st,
    (forall st', is_Some (k st') -> is_Some (k' st')) ->
    is_Some (rmatch r st k) -> is_Some (rmatch r st k').
Proof.
  induction r as [p|p lo hi| |a IHa b IHb|a IHa b IHb|i a IHa| | |];
    intros k k' st Hk; simpl.
  - destruct (m_rest st) as [|c s]; [absurd_some|]. destruct (p c); [apply Hk | absurd_some].
  - apply rep_mono, Hk.
  - apply Hk.
  - apply IHa. intros st'. apply IHb, Hk.
  - destruct (rmatch a st k) eqn:E.
    + intros _. specialize (IHa k k' st Hk). rewrite E in IHa.
      destruct IHa as [x Hx]; [eauto|]. rewrite Hx. eauto.
    + intros H. destruct (rmatch a st k'); [eauto|]. eapply IHb; eauto.
  - apply IHa. intros st'. apply Hk.
  - destruct (xorb _ _); [apply Hk | absurd_some].
  - destruct (m_prev st); [absurd_some | apply Hk].
  - destruct (m_rest st); [apply Hk | absurd_some].
Qed.

Lemma last_char_cons c s : is_Some (last_char (String c s)).
Proof.
  revert c. induction s as [|d s IH]; intros c; [simpl; eauto|].
  change (last_char (String c (String d s))) with (last_char (String d s)). apply IH.
Qed.

Lemma prev_after_cons prev c pre :
  prev_after prev (String c pre) = prev_after (Some c) pre.
Proof.
  unfold prev_after. destruct pre as [|d pre]; [reflexivity|].
  change (last_char (String c (String d pre))) with (last_char (String d pre)).
  destruct (last_char_cons d pre) as [x ->]. reflexivity.
Qed.

Lemma prev_after_nil prev : prev_after prev "" = prev.
Proof. reflexivity. Qed.

Lemma search_spec (r : regex) :
  forall s prev,
    is_Some (search r prev s) <->
    exists pre post, s = pre ++ post /\ is_Some (match_here r (prev_after prev pre) post).
Proof.
  induction s as [|c s IH]; intros prev; simpl.
  - split.
    + intros H. exists "", "". split; [reflexivity|]. rewrite prev_after_nil.
      destruct (match_here r prev ""); [eauto | destruct H; discriminate].
    + intros (pre & post & E & H).
      destruct pre; [|discriminate]. destruct post; [|discriminate].
      rewrite prev_after_nil in H. destruct H as [x ->]. eauto.
  - split.
    + destruct (match_here r prev (String c s)) eqn:E.
      * intros _. exists "", (String c s). split; [reflexivity|].
        rewrite prev_after_nil, E. eauto.
      * intros H. apply IH in H. destruct H as (pre & post & Es & H).
        exists (String c pre), post. split; [rewrite Es; reflexivity|].
        rewrite prev_after_cons. exact H.
    + intros (pre & post & Es & H). destruct pre as [|d pre].
      * change ("" ++ post) with post in Es. subst post.
        rewrite prev_after_nil in H. destruct H as [x ->]. eauto.
      * change (String d pre ++ post) with (String d (pre ++ post)) in Es.
        injection Es as -> ->. destruct (match_here r prev _); [eauto|].
        apply IH. exists pre, post. split; [reflexivity|].
        rewrite <- (prev_after_cons prev). exact H.
Qed.

(** [test] is a search: it holds exactly when the pattern occurs. *)
Lemma test_occurs (r : regex) (s : string) : test r s = true <-> occurs_in r s.
Proof.
  unfold test, occurs_in. pose proof (search_spec r s None) as H.
  unfold prev_after in H.
  assert (forall pre, match last_char pre with Some c => Some c | None => None end
                      = last_char pre) as E by (intros pre; destruct (last_char pre); reflexivity).
  split.
  - intros T. destruct (search r None s) eqn:Es; [|discriminate].
    destruct H as [H _]. destruct H as (pre & post & ? & ?); [eauto|].
    exists pre, post. rewrite <- E. auto.
  - intros (pre & post & ? & Hm). rewrite <- E in Hm.
    destruct H as [_ H]. destruct H as [x Hx]; [eauto|]. rewrite Hx. reflexivity.
Qed.

(** A string the pattern covers from end to end passes [test]. *)
Lemma full_match_test (r : regex) (s : string) : full_match r s = true -> test r s = true.
Proof.
  unfold full_match, test. intros H.
  assert (is_Some (match_here r None s)) as [f Hf].
  { unfold match_here. eapply rmatch_mono; [|destruct (rmatch r _ _) eqn:E; [eauto|discriminate]].
    intros st' _. eauto. }
  destruct s; simpl; rewrite Hf; reflexivity.
Qed.

End MatcherFacts.


(** ** The lookups in the tables *)

Lemma literal_get_plain {A : Type} (table : gmap string A) (key : string) :
  plain key ->
  literal_get table key = match table !! key with Some a => Own a | None => Missing end.
Proof.
  unfold plain, literal_get. intros ->. reflexivity.
Qed.

(** The names of the built-in members are no keys of the tables. *)
Lemma inherited_not_own (key : string) :
  inherited key = true ->
  postalCodePatterns !! key = None /\ cityPriceMapping !! key = None /\
  businessTypePriceMapping !! key = None /\ cityStateMapping !! key = None /\
  commonCityZipMapping !! key = None.
Proof.
  unfold inherited, inheritedNames. cbn [existsb]. intros H.
  repeat (apply orb_true_iff in H; destruct H as [H|H];
          [apply String.eqb_eq in H; subst key; vm_compute; auto|]).
  discriminate H.
Qed.

Lemma literal_get_member {A : Type} (table : gmap string A) (key : string) :
  table !! key = None -> inherited key = true -> literal_get table key = Member key.
Proof.
  unfold literal_get. intros -> ->. reflexivity.
Qed.

(** ** Postal codes *)

Lemma postalPattern_plain (country : string) :
  plain country -> postalPattern country = Some (ownPattern country).
Proof.
  intros H. unfold postalPattern, ownPattern. rewrite (literal_get_plain _ _ H).
  destruct (postalCodePatterns !! country); reflexivity.
Qed.

Lemma postalPattern_member (country : string) :
  inherited country = true -> postalPattern country = None.
Proof.
  intros H. unfold postalPattern.
  rewrite (literal_get_member _ _ (proj1 (inherited_not_own _ H)) H). reflexivity.
Qed.

Lemma isValidPostalCode_plain (code country : string) :
  plain country -> isValidPostalCode code country = Ok (matchesPostalCode code country).
Proof.
  intros H. unfold isValidPostalCode, matchesPostalCode.
  rewrite (postalPattern_plain _ H). destruct (code =? ""); reflexivity.
Qed.

(** What [isValidPostalCode] does: it applies the pattern registered for
    the country, the US pattern when the country is not in the table, in
    search mode: it is true exactly for the non-empty strings in which the
    pattern occurs.  Hence it is true for every string that is a postal
    code of the region from end to end, false for every string in which
    the pattern does not occur, and also true for a string that holds a
    code between other words.  For a country that names a built-in member
    it raises a [TypeError] on every non-empty string. *)
Lemma isValidPostalCode_search_mode (code country : string) :
  (plain country ->
   (postalCodePatterns !! country = None -> postalPattern country = Some postal_US) /\
   (code <> "" -> full_match (ownPattern country) code = true ->
      isValidPostalCode code country = Ok true) /\
   (isValidPostalCode code country = Ok true <->
      code <> "" /\ occurs_in (ownPattern country) code)) /\
  (inherited country = true -> code <> "" -> isValidPostalCode code country = Throw).
Proof.
  split.
  - intros Hplain. rewrite (isValidPostalCode_plain _ _ Hplain).
    rewrite (postalPattern_plain _ Hplain). unfold matchesPostalCode, ownPattern.
    split; [|split].
    + intros ->. reflexivity.
    + intros Hne Hfull. destruct (String.eqb_spec code ""); [contradiction|].
      f_equal. apply full_match_test, Hfull.
    + destruct (String.eqb_spec code "") as [->|Hne].
      * split; [discriminate | intros [H _]; contradiction].
      * split.
        -- intros [= H]. split; [assumption|]. apply test_occurs, H.
        -- intros [_ H]. f_equal. apply test_occurs, H.
  - intros Hin Hne. unfold isValidPostalCode.
    destruct (String.eqb_spec code ""); [contradiction|].
    rewrite (postalPattern_member _ Hin). reflexivity.
Qed.

(** C5, the failing input: a code between other words is accepted,
    although the string as a whole is not a postal code of the region: the
    pattern of the country is searched for in the string, it is not
    matched against the whole of it. *)
Theorem isValidPostalCode_accepts_embedded_code :
  isValidPostalCode "Suite 12345 Main" "US" = Ok true /\
  postalPattern "US" = Some postal_US /\
  full_match postal_US "Suite 12345 Main" = false.
Proof. repeat split; reflexivity. Qed.

(** The validator on an entire code, on an unknown country and on a
    country that names a built-in member. *)
Example isValidPostalCode_examples :
  isValidPostalCode "12345-6789" "ZZ" = Ok true /\
  isValidPostalCode "1234" "US" = Ok false /\
  isValidPostalCode "" "constructor" = Ok false /\
  isValidPostalCode "12345" "constructor" = Throw.
Proof. repeat split; reflexivity. Qed.

(** ** The recursive cleaner *)

Section CleanerFacts.

Variable URL_parses : string -> bool.

(** A node that its type-specific rules reject is cleaned to [null]. *)
Lemma cleanObject_rejected (o : Obj.t) :
  typeRules URL_parses o = Ok None -> cleanObject URL_parses (VObj o) = Ok VNull.
Proof.
  intros H. unfold cleanObject.
  change (2 + depth (VObj o))%nat with (S (S (depth (VObj o)))).
  cbn [cleanObject_fuel]. rewrite H. reflexivity.
Qed.

Local Ltac run_rules Htype :=
  unfold typeRules, and_then, when_type, businessRule;
  rewrite ?Htype; cbn [truthy includes_type existsb businessTypes];
  repeat (cbn [String.eqb Ascii.eqb Bool.eqb negb orb andb keep_node mbind result_bind];
          rewrite ?Htype).

(** C10: a GeoCoordinates node whose latitude or longitude is the number
    0 is removed, because the presence check is a truthiness check; the
    same coordinates written as the strings "0" pass it and the node
    survives; a node that survives has a truthy latitude and longitude. *)
Theorem geo_zero_number_removed :
  (forall (o : Obj.t) (sign : bool),
     Obj.get "@type" o = VStr "GeoCoordinates" ->
     Obj.get "latitude" o = VNum (S754_zero sign)
     \/ Obj.get "longitude" o = VNum (S754_zero sign) ->
     cleanObject URL_parses (VObj o) = Ok VNull) /\
  cleanObject URL_parses (geoNode (VStr "0") (VStr "0")) = Ok (geoNode (VStr "0") (VStr "0")) /\
  (forall (o o' : Obj.t),
     Obj.get "@type" o = VStr "GeoCoordinates" ->
     cleanObject URL_parses (VObj o) = Ok (VObj o') ->
     truthy (Obj.get "latitude" o) = true /\ truthy (Obj.get "longitude" o) = true).
Proof.
  split; [|split].
  - intros o sign Htype Hzero. apply cleanObject_rejected.
    run_rules Htype. unfold geoRule.
    destruct Hzero as [-> | ->]; cbn [truthy JsNumber.truthy negb orb];
      [|rewrite orb_true_r]; reflexivity.
  - vm_compute. reflexivity.
  - intros o o' Htype Hclean.
    destruct (truthy (Obj.get "latitude" o)) eqn:Hlat;
      destruct (truthy (Obj.get "longitude" o)) eqn:Hlng; [split; reflexivity|..];
      (rewrite cleanObject_rejected in Hclean; [discriminate|]);
      run_rules Htype; unfold geoRule; rewrite Hlat, Hlng; reflexivity.
Qed.

(** Every type in the list of [cleanObject] loses a node that has no
    name. *)
Lemma business_without_name_removed (o : Obj.t) (t : string) :
  In t businessTypes ->
  Obj.get "@type" o = VStr t ->
  truthy (Obj.get "name" o) = false ->
  cleanObject URL_parses (VObj o) = Ok VNull.
Proof.
  intros Hin Htype Hname. apply cleanObject_rejected.
  unfold businessTypes in Hin. cbn [In] in Hin.
  repeat (destruct Hin as [<- | Hin]; [run_rules Htype; rewrite Hname; reflexivity|]).
  contradiction.
Qed.

(** C3, the failing input: an HVACBusiness node with a valid address and
    phone but no name is kept, and its phone is left unformatted: the type
    is missing from the list of [cleanObject], though [validateSchema]
    counts it as a business type. *)
Theorem hvac_business_without_name_kept :
  cleanObject URL_parses (VObj [("@type", VStr "HVACBusiness");
               ("telephone", VStr "(512) 555-0143");
               ("address", VObj [("@type", VStr "PostalAddress");
                                 ("streetAddress", VStr "12 Elm St");
                                 ("addressLocality", VStr "Austin");
                                 ("addressRegion", VStr "TX");
                                 ("postalCode", VStr "78701");
                                 ("addressCountry", VStr "US")])])
  = Ok (VObj [("@type", VStr "HVACBusiness");
              ("telephone", VStr "(512) 555-0143");
              ("address", VObj [("@type", VStr "PostalAddress");
                                ("streetAddress", VStr "12 Elm St");
                                ("addressLocality", VStr "Austin");
                                ("addressRegion", VStr "TX");
                                ("postalCode", VStr "78701");
                                ("addressCountry", VStr "US")])])
  /\ In "HVACBusiness" validateSchema_businessTypes
  /\ ~ In "HVACBusiness" businessTypes.
Proof.
  split; [vm_compute; reflexivity|]. split; [cbn; tauto|].
  cbn. intros H. repeat (destruct H as [H|H]; [discriminate H|]). exact H.
Qed.

(** C4, the failing input: a rating value that is not a number passes the
    bounds check, since every comparison with NaN is false, and the node
    stays with the rating "NaN". *)
Theorem rating_not_a_number_kept :
  cleanObject URL_parses (VObj [("@type", VStr "AggregateRating"); ("ratingValue", VStr "abc");
               ("reviewCount", VStr "10")])
  = Ok (VObj [("@type", VStr "AggregateRating"); ("ratingValue", VStr "NaN");
              ("reviewCount", VStr "10"); ("bestRating", VStr "5");
              ("worstRating", VStr "1")])
  /\
  cleanObject URL_parses (VObj [("@type", VStr "AggregateRating"); ("ratingValue", VStr "4.5");
               ("reviewCount", VStr "many")])
  = Ok (VObj [("@type", VStr "AggregateRating"); ("ratingValue", VStr "4.5");
              ("reviewCount", VStr "NaN"); ("bestRating", VStr "5");
              ("worstRating", VStr "1")]).
Proof. split; vm_compute; reflexivity. Qed.

(** What the rating rule does in range and out of range. *)
Example rating_examples :
  cleanObject URL_parses (VObj [("@type", VStr "AggregateRating"); ("ratingValue", VStr "4.50");
               ("reviewCount", VNum (of_Z 12))])
  = Ok (VObj [("@type", VStr "AggregateRating"); ("ratingValue", VStr "4.5");
              ("reviewCount", VStr "12"); ("bestRating", VStr "5");
              ("worstRating", VStr "1")])
  /\ cleanObject URL_parses (VObj [("@type", VStr "AggregateRating"); ("ratingValue", VStr "5.1");
                  ("reviewCount", VStr "3")]) = Ok VNull
  /\ cleanObject URL_parses (VObj [("@type", VStr "AggregateRating"); ("ratingValue", VStr "4");
                  ("reviewCount", VStr "0")]) = Ok VNull.
Proof. repeat split; vm_compute; reflexivity. Qed.

(** C2, the failing inputs: a second pass changes the result of the
    first.  An address whose street is white space passes the presence
    check, is trimmed to nothing and leaves a node with the country only,
    which the next pass rejects; a business whose address has a region but
    no city gets its price range only on the second pass, once the first
    has filled in the city. *)
Theorem cleanObject_second_pass_differs :
  (cleanObject URL_parses (VObj [("@type", VStr "PostalAddress"); ("streetAddress", VStr " ")])
   = Ok (VObj [("@type", VStr "PostalAddress"); ("addressCountry", VStr "US")])
   /\
   cleanObject URL_parses (VObj [("@type", VStr "PostalAddress"); ("addressCountry", VStr "US")])
   = Ok VNull)
  /\
  (cleanObject URL_parses (VObj [("@type", VStr "LocalBusiness"); ("name", VStr "Acme");
                ("address", VObj [("@type", VStr "PostalAddress");
                                  ("addressRegion", VStr "TX")])])
   = Ok (VObj [("@type", VStr "LocalBusiness"); ("name", VStr "Acme");
               ("address", VObj [("@type", VStr "PostalAddress");
                                 ("addressRegion", VStr "TX");
                                 ("streetAddress", VStr "Address available upon request");
                                 ("addressLocality", VStr "Local Area");
                                 ("addressCountry", VStr "US")])])
   /\
   cleanObject URL_parses (VObj [("@type", VStr "LocalBusiness"); ("name", VStr "Acme");
                ("address", VObj [("@type", VStr "PostalAddress");
                                  ("addressRegion", VStr "TX");
                                  ("streetAddress", VStr "Address available upon request");
                                  ("addressLocality", VStr "Local Area");
                                  ("addressCountry", VStr "US")])])
   = Ok (VObj [("@type", VStr "LocalBusiness"); ("name", VStr "Acme");
               ("address", VObj [("@type", VStr "PostalAddress");
                                 ("addressRegion", VStr "TX");
                                 ("streetAddress", VStr "Address available upon request");
                                 ("addressLocality", VStr "Local Area");
                                 ("addressCountry", VStr "US")]);
               ("priceRange", VStr "$$")])).
Proof. repeat split; vm_compute; reflexivity. Qed.

End CleanerFacts.

Lemma geo_zero_number_removed_witness :
  cleanObject http_URL_parses (geoNode (VNum (S754_zero false)) (VStr "-0.1278")) = Ok VNull.
Proof.
  apply (proj1 (geo_zero_number_removed http_URL_parses)
           [("@type", VStr "GeoCoordinates"); ("latitude", VNum (S754_zero false));
            ("longitude", VStr "-0.1278")] false);
    [reflexivity | left; reflexivity].
Defined.

(** ** Phone numbers *)

Lemma keep_all_chars (p : ascii -> bool) (s : string) : all_chars p (keep p s) = true.
Proof.
  induction s as [|c s IH]; [reflexivity|]. simpl.
  destruct (p c) eqn:E; [simpl; rewrite E; exact IH | exact IH].
Qed.

Local Ltac split_digits H :=
  match type of H with
  | String.length ?d = _ =>
      do 12 (try (destruct d as [|? d]; cbn [String.length] in H;
                  [try discriminate H|]; try discriminate H))
  end.

Local Ltac head_char H :=
  cbn [startsWith String.prefix] in H;
  repeat match type of H with
         | context [ascii_dec ?a ?b] => destruct (ascii_dec a b); [subst|discriminate H]
         end.

(** The rules of [formatPhoneNumber] on an ASCII text, in the order in
    which it tries them.  The characters that are not digits are stripped
    and then: 10 digits become "+1-XXX-XXX-XXXX"; 11 digits that begin with
    1 become the same shape; 11 digits that begin with 44 or 0 get a "+44-"
    grouping; any other input with at least 7 digits is returned trimmed;
    an input with fewer than 7 digits is returned unchanged.  The rule of
    the "+44-" grouping is written for 10 to 11 digits, and 10 digits never
    reach it. *)
Lemma formatPhoneNumber_cases (phone : string) :
  ascii_only phone = true ->
  let digits := digitsOf phone in
  let n := String.length digits in
  all_chars is_digit digits = true /\
  (n = 10%nat ->
     exists a b c, digits = a ++ b ++ c /\ String.length a = 3%nat /\
       String.length b = 3%nat /\ String.length c = 4%nat /\
       formatPhoneNumber phone = usGrouping a b c) /\
  (n = 11%nat -> startsWith digits "1" = true ->
     exists a b c, digits = "1" ++ a ++ b ++ c /\ String.length a = 3%nat /\
       String.length b = 3%nat /\ String.length c = 4%nat /\
       formatPhoneNumber phone = usGrouping a b c) /\
  ((10 <= n <= 11)%nat -> ukShaped digits = true -> n <> 10%nat ->
     exists a b c,
       (if startsWith digits "44" then digits else "44" ++ sliceFrom 1 digits)
       = "44" ++ a ++ b ++ c /\
       String.length a = 3%nat /\ String.length b = 3%nat /\
       formatPhoneNumber phone = ukGrouping a b c) /\
  ((7 <= n)%nat -> n <> 10%nat ->
     ~ (n = 11%nat /\ (startsWith digits "1" = true \/ ukShaped digits = true)) ->
     formatPhoneNumber phone = trim phone) /\
  ((n < 7)%nat -> formatPhoneNumber phone = phone).
Proof.
  intros _. cbv zeta. unfold digitsOf, ukShaped.
  split; [apply keep_all_chars|].
  assert (phone = "" -> String.length (keep is_digit phone) = 0%nat) as Hempty
    by (intros ->; reflexivity).
  unfold formatPhoneNumber.
  destruct (String.eqb_spec phone "") as [E|_];
    [specialize (Hempty E) | clear Hempty].
  { (* the empty input *)
    repeat split; intros; lia. }
  remember (keep is_digit phone) as digits eqn:Hd. clear Hd.
  split; [|split; [|split; [|split]]].
  - intros H. split_digits H.
    eexists (String _ (String _ (String _ ""))), (String _ (String _ (String _ ""))),
            (String _ (String _ (String _ (String _ "")))).
    repeat split.
  - intros H Hone. split_digits H. head_char Hone.
    eexists (String _ (String _ (String _ ""))), (String _ (String _ (String _ ""))),
            (String _ (String _ (String _ (String _ "")))).
    repeat split.
  - intros [Hlo Hhi] Huk Hten.
    assert (String.length digits = 11%nat) as H by lia. clear Hlo Hhi Hten.
    split_digits H.
    destruct (startsWith _ "44") eqn:H44.
    + head_char H44.
      eexists (String _ (String _ (String _ ""))), (String _ (String _ (String _ ""))),
              (String _ (String _ (String _ ""))).
      repeat split.
    + rewrite orb_false_l in Huk. head_char Huk.
      assert (startsWith (String "0" (String a0 (String a1 (String a2 (String a3
                (String a4 (String a5 (String a6 (String a7 (String a8
                (String a9 ""))))))))))) "1" = false) as -> by reflexivity.
      rewrite andb_false_r.
      eexists (String _ (String _ (String _ ""))), (String _ (String _ (String _ ""))),
              (String _ (String _ (String _ (String _ "")))).
      cbn [String.length Nat.eqb Nat.leb andb orb startsWith String.prefix].
      destruct (ascii_dec "0" "0"); [|contradiction].
      repeat split.
  - intros Hseven Hten Hnot.
    destruct (Nat.eqb_spec (String.length digits) 10); [contradiction|].
    destruct (Nat.eqb_spec (String.length digits) 11) as [E11|N11]; cbn [andb].
    + destruct (startsWith digits "1") eqn:H1; [exfalso; apply Hnot; auto|].
      destruct (startsWith digits "44" || startsWith digits "0") eqn:Huk;
        [exfalso; apply Hnot; auto|].
      rewrite andb_false_r.
      destruct (Nat.leb_spec 7 (String.length digits)); [reflexivity | lia].
    + assert ((10 <=? String.length digits)%nat && (String.length digits <=? 11)%nat = false) as ->.
      { destruct (Nat.leb_spec 10 (String.length digits));
          destruct (Nat.leb_spec (String.length digits) 11); try reflexivity; lia. }
      cbn [andb].
      destruct (Nat.leb_spec 7 (String.length digits)); [reflexivity | lia].
  - intros Hlt.
    destruct (Nat.eqb_spec (String.length digits) 10); [lia|].
    destruct (Nat.eqb_spec (String.length digits) 11); [lia|]. cbn [andb].
    destruct (Nat.leb_spec 10 (String.length digits)); [lia|]. cbn [andb].
    destruct (Nat.leb_spec 7 (String.length digits)); [lia | reflexivity].
Qed.

(** C6, the failing input: a UK-shaped number of 10 digits is taken by
    the first rule and gets the "+1-" grouping, not a "+44-" one, although
    the rule of the "+44-" grouping is written for numbers of 10 to 11
    digits. *)
Theorem formatPhoneNumber_ten_digit_uk_shape :
  String.length (digitsOf "0207946095") = 10%nat /\
  ukShaped (digitsOf "0207946095") = true /\
  formatPhoneNumber "0207946095" = "+1-020-794-6095" /\
  startsWith (formatPhoneNumber "0207946095") "+44-" = false.
Proof. repeat split; vm_compute; reflexivity. Qed.

Example formatPhoneNumber_examples :
  formatPhoneNumber "(512) 555-0143" = "+1-512-555-0143" /\
  formatPhoneNumber "1 512 555 0143" = "+1-512-555-0143" /\
  formatPhoneNumber "020 7946 0958" = "+44-207-946-0958" /\
  formatPhoneNumber "44 7946 09581" = "+44-794-609-581" /\
  formatPhoneNumber "0207946095" = "+1-020-794-6095" /\
  formatPhoneNumber " +49 30 9018200 " = "+49 30 9018200" /\
  formatPhoneNumber " 555-0143 " = "555-0143" /\
  formatPhoneNumber " 911 " = " 911 ".
Proof. repeat split; vm_compute; reflexivity. Qed.

(** ** Runs of a character class *)

Section RunFacts.
Import Regex.

Variable p : ascii -> bool.

(** A greedy repetition in front of a continuation that never fails takes
    the whole run. *)
Lemma rep_greedy {A : Type} (lo : nat) (k : mstate -> option A) :
  (forall st, is_Some (k st)) ->
  forall s n prev caps,
    rep p lo None n prev s caps k
    = if (lo <=? n + String.length (fst (span p s)))%nat
      then k (MState (prev_after prev (fst (span p s))) (snd (span p s)) caps)
      else None.
Proof.
  intros Hk s. induction s as [|c s IH]; intros n prev caps; cbn [rep span].
  - cbn [fst snd String.length]. rewrite Nat.add_0_r. reflexivity.
  - destruct (p c) eqn:Hc; cbn [andb below].
    + rewrite IH. destruct (span p s) as [a b] eqn:Hs. cbn [fst snd String.length].
      rewrite prev_after_cons.
      replace (n + S (String.length a))%nat with (S n + String.length a)%nat by lia.
      destruct (lo <=? S n + String.length a)%nat eqn:Hlo.
      * destruct (Hk (MState (prev_after (Some c) a) b caps)) as [x ->]. reflexivity.
      * destruct (Nat.leb_spec lo n); [|reflexivity].
        apply Nat.leb_gt in Hlo. lia.
    + cbn [fst snd String.length]. rewrite Nat.add_0_r. reflexivity.
Qed.

(** A repetition that must reach the end of the input succeeds exactly on
    the strings of the class. *)
Lemma rep_to_end {A : Type} (lo : nat) (k : mstate -> option A) :
  (forall st, is_Some (k st)) ->
  forall s n prev caps,
    is_Some (rep p lo None n prev s caps
               (fun st => match m_rest st with
                          | EmptyString => k st
                          | String _ _ => None
                          end))
    <-> all_chars p s = true /\ (lo <= n + String.length s)%nat.
Proof.
  intros Hk s. induction s as [|c s IH]; intros n prev caps; cbn [rep all_chars String.length].
  - rewrite Nat.add_0_r. destruct (Nat.leb_spec lo n); cbn [m_rest].
    + split; [intros _; split; [reflexivity | assumption] | intros _; apply Hk].
    + split; [intros [x Hx]; discriminate | intros [_ H']; lia].
  - destruct (p c) eqn:Hc; cbn [andb below].
    + specialize (IH (S n) (Some c) caps).
      destruct (rep p lo None (S n) (Some c) s caps _) eqn:E.
      * split; [intros _ | eauto]. destruct IH as [IH _].
        destruct IH as [Hall Hlen]; [eauto|]. split; [exact Hall | lia].
      * cbn [m_rest]. split.
        -- intros H. destruct (lo <=? n)%nat; destruct H; discriminate.
        -- intros [Hall Hlen]. destruct IH as [_ IH].
           destruct IH as [x Hx]; [split; [exact Hall | lia] | discriminate].
    + cbn [m_rest]. split.
      * intros H. destruct (lo <=? n)%nat; destruct H; discriminate.
      * intros [H _]. discriminate.
Qed.

Lemma span_append (s : string) : s = fst (span p s) ++ snd (span p s).
Proof.
  induction s as [|c s IH]; [reflexivity|]. cbn [span].
  destruct (p c); [|reflexivity]. destruct (span p s) as [a b].
  cbn [fst snd] in *. change (String c a ++ b) with (String c (a ++ b)).
  congruence.
Qed.

Lemma span_all (s : string) : all_chars p (fst (span p s)) = true.
Proof.
  induction s as [|c s IH]; [reflexivity|]. cbn [span].
  destruct (p c) eqn:Hc; [|reflexivity]. destruct (span p s) as [a b].
  cbn [fst all_chars] in *. rewrite Hc. exact IH.
Qed.

Lemma take_append (a b : string) : take (String.length a) (a ++ b) = a.
Proof.
  induction a as [|c a IH]; [destruct b; reflexivity|].
  change (String c a ++ b) with (String c (a ++ b)). cbn [String.length take].
  rewrite IH. reflexivity.
Qed.

Lemma length_append (a b : string) :
  String.length (a ++ b) = (String.length a + String.length b)%nat.
Proof.
  induction a as [|c a IH]; [reflexivity|].
  change (String c a ++ b) with (String c (a ++ b)). cbn [String.length]. lia.
Qed.

Lemma consumed_span (s : string) : consumed s (snd (span p s)) = fst (span p s).
Proof.
  unfold consumed. rewrite (span_append s) at 1 3. rewrite length_append.
  replace (_ + _ - _)%nat with (String.length (fst (span p s))) by lia.
  apply take_append.
Qed.

(** The text of a match of [p+] is a non-empty run of the class. *)
Lemma plus_match_text (prev : option ascii) (s : string) (f : found) :
  match_here (plus p) prev s = Some f ->
  f_text f <> "" /\ all_chars p (f_text f) = true.
Proof.
  unfold match_here, plus. cbn [rmatch m_prev m_rest m_caps].
  rewrite rep_greedy by eauto. cbn [Nat.add].
  destruct (Nat.leb_spec 1 (String.length (fst (span p s)))) as [Hlen|]; [|discriminate].
  intros [= <-]. cbn [f_text m_rest]. rewrite consumed_span.
  split; [|apply span_all]. intros E. rewrite E in Hlen. cbn in Hlen. lia.
Qed.

End RunFacts.

(** What holds of every match found at some position holds of the match
    a search returns. *)
Lemma search_found (r : Regex.regex) (P : Regex.found -> Prop) :
  (forall prev s f, Regex.match_here r prev s = Some f -> P f) ->
  forall s prev f, Regex.search r prev s = Some f -> P f.
Proof.
  intros HP s. induction s as [|c s IH]; intros prev f; cbn [Regex.search].
  - destruct (Regex.match_here r prev "") eqn:E; [|discriminate].
    intros [= <-]. eapply HP, E.
  - destruct (Regex.match_here r prev (String c s)) eqn:E.
    + intros [= <-]. eapply HP, E.
    + apply IH.
Qed.

(** ** Price range normalization *)

Lemma dollar_run_tier (t : string) : In t tiers4 -> dollar_run t.
Proof.
  cbn. intros [<-|[<-|[<-|[<-|[]]]]]; (split; [discriminate | reflexivity]).
Qed.

(** [/^\$+$/] accepts exactly the non-empty runs of dollar signs, of any
    length. *)
Lemma test_dollarsOnly (s : string) : Regex.test dollarsOnly s = true <-> dollar_run s.
Proof.
  rewrite test_occurs. unfold occurs_in, dollar_run. split.
  - intros (pre & post & -> & H). destruct pre as [|c pre].
    + change ("" ++ post) with post.
      unfold Regex.match_here, dollarsOnly in H.
      cbn [Regex.seq Regex.rmatch Regex.plus Regex.m_prev Regex.m_rest Regex.m_caps
           last_char] in H.
      apply (rep_to_end (Ascii.eqb "$")) in H; [|eauto]. destruct H as [Hall Hlen].
      split; [|exact Hall]. intros ->. cbn in Hlen. lia.
    + destruct (last_char_cons c pre) as [x Hx].
      unfold Regex.match_here, dollarsOnly in H.
      cbn [Regex.seq Regex.rmatch Regex.m_prev] in H. rewrite Hx in H.
      destruct H; discriminate.
  - intros [Hne Hall]. exists "", s. split; [reflexivity|].
    unfold Regex.match_here, dollarsOnly.
    cbn [Regex.seq Regex.rmatch Regex.plus Regex.m_prev Regex.m_rest Regex.m_caps
         last_char].
    apply (rep_to_end (Ascii.eqb "$")); [eauto|]. split; [exact Hall|].
    destruct s; [contradiction | cbn; lia].
Qed.

(** What [validatePriceRange] returns for a present value: the trimmed
    input when that is a run of dollar signs, else one of the four tiers or
    the first run of dollar signs inside the input. *)
Lemma validatePriceRange_result (p : string) :
  p <> "" ->
  (dollar_run (trim p) /\ validatePriceRange p = trim p) \/
  (~ dollar_run (trim p) /\
   (In (validatePriceRange p) tiers4 \/
    exists f, Regex.first_match dollars (trim p) = Some f /\ validatePriceRange p = Regex.f_text f)).
Proof.
  intros Hp. unfold validatePriceRange.
  destruct (String.eqb_spec p ""); [contradiction|].
  destruct (Regex.test dollarsOnly (trim p)) eqn:T.
  - left. split; [apply test_dollarsOnly, T | reflexivity].
  - right. split.
    { intros H. apply test_dollarsOnly in H. congruence. }
    repeat match goal with
           | |- context [if ?c then _ else _] =>
               destruct c; [left; cbn; tauto|]
           end.
    destruct (Regex.first_match dollars (trim p)) as [f|] eqn:F.
    + right. exists f. split; reflexivity.
    + left. cbn. tauto.
Qed.

Lemma validatePriceRange_run (p : string) : p <> "" -> dollar_run (validatePriceRange p).
Proof.
  intros Hp. destruct (validatePriceRange_result p Hp) as [[H ->]|[_ [H|(f & F & ->)]]].
  - exact H.
  - apply dollar_run_tier, H.
  - unfold Regex.first_match in F. revert F.
    apply (search_found dollars (fun f => dollar_run (Regex.f_text f))).
    intros prev s f' M. apply (plus_match_text (Ascii.eqb "$") prev s f' M).
Qed.

(** Every value of the two price tables is one of the four tiers. *)
Lemma table_values_tiers (l : list (string * string)) (k v : string) :
  forallb (fun kv => existsb (String.eqb kv.2) tiers4) l = true ->
  (list_to_map l : gmap string string) !! k = Some v -> In v tiers4.
Proof.
  intros Hall Hl. apply elem_of_list_to_map_2 in Hl.
  rewrite forallb_forall in Hall. apply list_elem_of_In in Hl.
  specialize (Hall _ Hl). cbn [snd] in Hall.
  apply existsb_exists in Hall. destruct Hall as (t & Ht & E).
  apply String.eqb_eq in E. subst. exact Ht.
Qed.


(** ** Price tiers *)

Lemma table_value_present (l : list (string * string)) (k v : string) :
  forallb (fun kv => existsb (String.eqb kv.2) tiers4) l = true ->
  (list_to_map l : gmap string string) !! k = Some v -> present (Own v) = true.
Proof.
  intros Hall Hl. pose proof (table_values_tiers l k v Hall Hl) as Hin.
  cbn in Hin. destruct Hin as [<-|[<-|[<-|[<-|[]]]]]; reflexivity.
Qed.

(** With a city and a category that name no built-in member,
    [detectPriceRange] returns the tier that the tables, read as finite
    maps, give. *)
Lemma detectPriceRange_plain (city businessType : string)
    (businessName description : option string) :
  plain (trim (toLowerCase city)) -> plain businessType ->
  detectPriceRange city businessType businessName description
  = Own (detectedTier city businessType businessName description).
Proof.
  intros Hcity Htype. unfold detectPriceRange, detectedTier.
  destruct (city =? ""); [reflexivity|]. cbv zeta.
  destruct (negb (detectTextTier _ =? "")); [reflexivity|].
  rewrite (literal_get_plain _ _ Hcity), (literal_get_plain _ _ Htype).
  destruct (cityPriceMapping !! _) as [r|] eqn:E.
  - assert (Hp : present (Own r) = true).
    { eapply table_value_present; [|exact E]. vm_compute. reflexivity. }
    rewrite Hp. reflexivity.
  - cbn [present]. destruct (businessTypePriceMapping !! _) as [r|] eqn:E'.
    + assert (Hp : present (Own r) = true).
      { eapply table_value_present; [|exact E']. vm_compute. reflexivity. }
      rewrite Hp. reflexivity.
    + reflexivity.
Qed.

(** Whatever the names, [detectPriceRange] returns one of the four tiers
    or a built-in member that one of the two lookups found. *)
Lemma detectPriceRange_result (city businessType : string)
    (businessName description : option string) :
  match detectPriceRange city businessType businessName description with
  | Own tier => In tier tiers4
  | Member name =>
      inherited name = true /\ (name = trim (toLowerCase city) \/ name = businessType)
  | Missing => False
  end.
Proof.
  unfold detectPriceRange. destruct (city =? ""); [cbn; tauto|]. cbv zeta.
  set (text := toLowerCase (_ ++ _)).
  destruct (negb (detectTextTier text =? "")) eqn:T.
  { unfold detectTextTier in *.
    repeat match goal with
           | |- context [includes text ?w] =>
               destruct (includes text w); cbn [orb negb String.eqb Ascii.eqb] in *;
               try (cbn; tauto)
           end.
    discriminate T. }
  assert (Hget : forall (table : gmap string string) k,
             (forall k' v, table !! k' = Some v -> In v tiers4) ->
             match literal_get table k with
             | Own tier => In tier tiers4 /\ present (Own tier) = true
             | Member name => inherited name = true /\ name = k
             | Missing => True
             end).
  { intros table k Hl. unfold literal_get.
    destruct (table !! k) as [r|] eqn:E.
    - pose proof (Hl _ _ E) as Hin. split; [exact Hin|].
      cbn in Hin. destruct Hin as [<-|[<-|[<-|[<-|[]]]]]; reflexivity.
    - destruct (inherited k) eqn:Hk; [split; [exact Hk | reflexivity] | exact I]. }
  assert (Hcity : forall k' v, cityPriceMapping !! k' = Some v -> In v tiers4).
  { intros k' v E. eapply table_values_tiers; [|exact E]. vm_compute. reflexivity. }
  assert (Htype : forall k' v, businessTypePriceMapping !! k' = Some v -> In v tiers4).
  { intros k' v E. eapply table_values_tiers; [|exact E]. vm_compute. reflexivity. }
  pose proof (Hget _ (trim (toLowerCase city)) Hcity) as Hc.
  destruct (literal_get cityPriceMapping _) as [r|name|].
  - destruct Hc as [Hin ->]. exact Hin.
  - cbn [present]. destruct Hc as [Hi ->]. split; [exact Hi | left; reflexivity].
  - cbn [present]. pose proof (Hget _ businessType Htype) as Ht.
    destruct (literal_get businessTypePriceMapping _) as [r|name|].
    + destruct Ht as [Hin ->]. exact Hin.
    + cbn [present]. destruct Ht as [Hi ->]. split; [exact Hi | right; reflexivity].
    + cbn; tauto.
Qed.

(** The tier detected with the tables as finite maps is the tier of the
    classifier of the specification. *)
Lemma detectedTier_classified (city businessType : string)
    (businessName description : option string) :
  city <> "" ->
  detectedTier city businessType businessName description
  = classifyPriceTier city businessType businessName description.
Proof.
  intros Hcity. unfold detectedTier, classifyPriceTier.
  destruct (String.eqb_spec city ""); [contradiction|].
  set (text := toLowerCase _).
  unfold detectTextTier, textTier, tierLanguage. cbn [find existsb snd fst].
  repeat match goal with
         | |- context [includes text ?w] =>
             destruct (includes text w); cbn [orb negb option_map fst String.eqb Ascii.eqb];
             try reflexivity
         end.
Qed.

(** C1 (as amended): for a non-empty city, on ASCII text, and with a city
    and a category that name no built-in member of [Object.prototype],
    [detectPriceRange] is the classifier of the specification: tier
    language of the name and description first (the "$$$$" words, then
    the "$$$" words, then the "$" words, then the "$$" words), then the
    city table, then the category table, then "$$". *)
Theorem detectPriceRange_priority (city businessType : string)
    (businessName description : option string) :
  city <> "" ->
  ascii_only city = true ->
  ascii_only (default "" businessName) = true ->
  ascii_only (default "" description) = true ->
  plain (trim (toLowerCase city)) -> plain businessType ->
  detectPriceRange city businessType businessName description
  = Own (classifyPriceTier city businessType businessName description).
Proof.
  intros Hcity _ _ _ Hplain Htype.
  rewrite (detectPriceRange_plain _ _ _ _ Hplain Htype).
  f_equal. apply detectedTier_classified, Hcity.
Qed.

Lemma detectPriceRange_priority_witness :
  "new york" <> "" /\
  detectPriceRange "new york" "Restaurant" (Some "Joe's") (Some "Affordable pizza")
  = Own (classifyPriceTier "new york" "Restaurant" (Some "Joe's") (Some "Affordable pizza")).
Proof.
  split; [discriminate|].
  apply detectPriceRange_priority; try reflexivity. discriminate.
Defined.

(** C1, counterexample: with an empty city the text is not consulted; a
    description with "luxury" yields "$$", not "$$$$". *)
Lemma detectPriceRange_empty_city_ignores_text :
  includes (toLowerCase "Luxury dining") "luxury" = true /\
  detectPriceRange "" "Restaurant" (Some "Chez Nous") (Some "Luxury dining") = Own "$$" /\
  classifyPriceTier "" "Restaurant" (Some "Chez Nous") (Some "Luxury dining") = "$$$$".
Proof. repeat split; reflexivity. Qed.

(** The scenario of the specification: text beats the city table.  The
    last two lines: a city or a category that names a built-in member
    yields that member, the function [Object] here, when no tier language
    decides. *)
Example detectPriceRange_new_york_affordable :
  detectPriceRange "new york" "Restaurant" None (Some "affordable lunch") = Own "$" /\
  detectPriceRange "new york" "Restaurant" None None = Own "$$$$" /\
  detectPriceRange "Smallville" "LegalService" None None = Own "$$$" /\
  detectPriceRange "Smallville" "Bakery" None None = Own "$$" /\
  detectPriceRange "Constructor " "LocalBusiness" (Some "Acme") (Some "Plumbing")
  = Member "constructor" /\
  detectPriceRange "Smallville" "constructor" None (Some "luxury spa") = Own "$$$$".
Proof. repeat split; vm_compute; reflexivity. Qed.

(** ** Form validation *)

Section FormFacts.

Variable URL_parses : string -> bool.

Implicit Types st : vstate.

Lemma filled_Some (fd : formdata) (k v : string) :
  fd !! k = Some v -> v <> "" -> filled fd k = true /\ field fd k = v.
Proof.
  intros H Hv. unfold filled, field. rewrite H. cbn.
  destruct (String.eqb_spec v ""); [contradiction | split; reflexivity].
Qed.

Local Ltac open_checks :=
  unfold requireBusiness;
  unfold requireArticle, requireHowTo, requireAddress, checkPostalCode,
    autoDetectPriceRange, checkTelephone, checkEmail, checkUrl, checkLatitude,
    checkLongitude, checkRating, checkReviewCount, checkPriceRange;
  cbv zeta.

(** *** Steps keep the messages pushed so far *)

Lemma kept_push m msg st : In m st.1 -> In m (push msg st).1.
Proof. intros H. unfold push. cbn [fst]. apply in_app_iff. left. exact H. Qed.

Lemma kept_put m k v st : In m st.1 -> In m (put k v st).1.
Proof. intros H. exact H. Qed.

Lemma kept_drop m k st : In m st.1 -> In m (drop k st).1.
Proof. intros H. exact H. Qed.

Lemma kept_reject m isAi k msg st : In m st.1 -> In m (reject isAi k msg st).1.
Proof.
  intros H. unfold reject. destruct (negb isAi); [apply kept_push | apply kept_drop]; exact H.
Qed.

Lemma kept_require m fd k msg st : In m st.1 -> In m (require fd k msg st).1.
Proof.
  intros H. unfold require. destruct (filled_trim fd k); [exact H | apply kept_push, H].
Qed.

Local Ltac solve_keeps_errors :=
  let st := fresh "st" in
  let m := fresh "m" in
  let H := fresh "H" in
  intros st m H; open_checks;
  repeat match goal with
         | |- In _ (fst (require _ _ _ _)) => apply kept_require
         | |- In _ (fst (reject _ _ _ _)) => apply kept_reject
         | |- In _ (fst (push _ _)) => apply kept_push
         | |- In _ (fst (put _ _ _)) => apply kept_put
         | |- In _ (fst (drop _ _)) => apply kept_drop
         | |- In _ (fst (if ?c then _ else _)) => destruct c
         | |- In _ (fst (match ?x with Some _ => _ | None => _ end)) => destruct x
         end;
  assumption.

Lemma keeps_errors_requireArticle fd : keeps_errors (requireArticle fd).
Proof. solve_keeps_errors. Qed.
Lemma keeps_errors_requireHowTo fd : keeps_errors (requireHowTo fd).
Proof. solve_keeps_errors. Qed.
Lemma keeps_errors_requireBusiness fd isAi : keeps_errors (requireBusiness fd isAi).
Proof. solve_keeps_errors. Qed.
Lemma keeps_errors_postalCode fd isAi : keeps_errors (checkPostalCode fd isAi).
Proof. solve_keeps_errors. Qed.
Lemma keeps_errors_autoDetect fd : keeps_errors (autoDetectPriceRange fd).
Proof. solve_keeps_errors. Qed.
Lemma keeps_errors_requiredFields fd isAi : keeps_errors (requiredFields fd isAi).
Proof.
  intros st m H. unfold requiredFields.
  destruct (field_is fd "contentType" "Article"); [apply keeps_errors_requireArticle, H|].
  destruct (field_is fd "contentType" "HowTo"); [apply keeps_errors_requireHowTo, H|].
  apply keeps_errors_autoDetect, keeps_errors_postalCode, keeps_errors_requireBusiness, H.
Qed.
Lemma keeps_errors_telephone fd : keeps_errors (checkTelephone fd).
Proof. solve_keeps_errors. Qed.
Lemma keeps_errors_email fd isAi : keeps_errors (checkEmail fd isAi).
Proof. solve_keeps_errors. Qed.
Lemma keeps_errors_url k msg fd isAi : keeps_errors (checkUrl URL_parses k msg fd isAi).
Proof. solve_keeps_errors. Qed.
Lemma keeps_errors_latitude fd isAi : keeps_errors (checkLatitude fd isAi).
Proof. solve_keeps_errors. Qed.
Lemma keeps_errors_longitude fd isAi : keeps_errors (checkLongitude fd isAi).
Proof. solve_keeps_errors. Qed.
Lemma keeps_errors_rating fd isAi : keeps_errors (checkRating fd isAi).
Proof. solve_keeps_errors. Qed.
Lemma keeps_errors_reviewCount fd isAi : keeps_errors (checkReviewCount fd isAi).
Proof. solve_keeps_errors. Qed.
Lemma keeps_errors_priceRange fd : keeps_errors (checkPriceRange fd).
Proof. solve_keeps_errors. Qed.

(** *** Steps leave the other fields alone *)

Lemma key_push (k msg : string) (st : vstate) : (push msg st).2 !! k = st.2 !! k.
Proof. reflexivity. Qed.

Lemma key_put (k k' v : string) (st : vstate) :
  k <> k' -> (put k' v st).2 !! k = st.2 !! k.
Proof. intros H. unfold put. cbn [snd]. apply lookup_insert_ne. congruence. Qed.

Lemma key_drop (k k' : string) (st : vstate) :
  k <> k' -> (drop k' st).2 !! k = st.2 !! k.
Proof. intros H. unfold drop. cbn [snd]. apply lookup_delete_ne. congruence. Qed.

Lemma key_reject (k k' msg : string) (isAi : bool) (st : vstate) :
  k <> k' -> (reject isAi k' msg st).2 !! k = st.2 !! k.
Proof.
  intros H. unfold reject. destruct (negb isAi); [apply key_push | apply key_drop, H].
Qed.

Lemma key_require (k : string) fd k' msg (st : vstate) :
  (require fd k' msg st).2 !! k = st.2 !! k.
Proof. unfold require. destruct (filled_trim fd k'); reflexivity. Qed.

Local Ltac solve_keeps_key :=
  let st := fresh "st" in
  intros st; open_checks;
  repeat match goal with
         | |- snd (require _ _ _ _) !! _ = _ => etrans; [apply key_require|]
         | |- snd (reject _ _ _ _) !! _ = _ => etrans; [apply key_reject; congruence|]
         | |- snd (put _ _ _) !! _ = _ => etrans; [apply key_put; congruence|]
         | |- snd (drop _ _) !! _ = _ => etrans; [apply key_drop; congruence|]
         | |- snd (if ?c then _ else _) !! _ = _ => destruct c
         | |- snd (match ?x with Some _ => _ | None => _ end) !! _ = _ => destruct x
         end;
  reflexivity.

Lemma keeps_key_telephone fd k : k <> "telephone" -> keeps_key k (checkTelephone fd).
Proof. intros Hk. solve_keeps_key. Qed.
Lemma keeps_key_email fd isAi k : k <> "email" -> keeps_key k (checkEmail fd isAi).
Proof. intros Hk. solve_keeps_key. Qed.
Lemma keeps_key_url key msg fd isAi k :
  k <> key -> keeps_key k (checkUrl URL_parses key msg fd isAi).
Proof. intros Hk. solve_keeps_key. Qed.
Lemma keeps_key_latitude fd isAi k : k <> "latitude" -> keeps_key k (checkLatitude fd isAi).
Proof. intros Hk. solve_keeps_key. Qed.
Lemma keeps_key_longitude fd isAi k : k <> "longitude" -> keeps_key k (checkLongitude fd isAi).
Proof. intros Hk. solve_keeps_key. Qed.
Lemma keeps_key_rating fd isAi k : k <> "ratingValue" -> keeps_key k (checkRating fd isAi).
Proof. intros Hk. solve_keeps_key. Qed.
Lemma keeps_key_reviewCount fd isAi k :
  k <> "reviewCount" -> keeps_key k (checkReviewCount fd isAi).
Proof. intros Hk. solve_keeps_key. Qed.
Lemma keeps_key_priceRange fd k : k <> "priceRange" -> keeps_key k (checkPriceRange fd).
Proof. intros Hk. solve_keeps_key. Qed.
Lemma keeps_key_requireArticle fd k : keeps_key k (requireArticle fd).
Proof. solve_keeps_key. Qed.
Lemma keeps_key_requireHowTo fd k : keeps_key k (requireHowTo fd).
Proof. solve_keeps_key. Qed.
Lemma keeps_key_requireBusiness fd isAi k : keeps_key k (requireBusiness fd isAi).
Proof. solve_keeps_key. Qed.
Lemma keeps_key_postalCode fd isAi k :
  k <> "postalCode" -> keeps_key k (checkPostalCode fd isAi).
Proof. intros Hk. solve_keeps_key. Qed.
Lemma keeps_key_autoDetect fd k : k <> "priceRange" -> keeps_key k (autoDetectPriceRange fd).
Proof. intros Hk. solve_keeps_key. Qed.
Lemma keeps_key_requiredFields fd isAi k :
  k <> "postalCode" -> k <> "priceRange" -> keeps_key k (requiredFields fd isAi).
Proof.
  intros Hk Hk' st. unfold requiredFields.
  destruct (field_is fd "contentType" "Article"); [apply keeps_key_requireArticle|].
  destruct (field_is fd "contentType" "HowTo"); [apply keeps_key_requireHowTo|].
  etrans; [apply keeps_key_autoDetect, Hk'|].
  etrans; [apply keeps_key_postalCode, Hk|]. apply keeps_key_requireBusiness.
Qed.

(** *** Generated content: the checks push nothing *)

Local Ltac solve_silent :=
  intros; open_checks; unfold reject, put, drop; cbn [negb];
  repeat match goal with
         | |- fst (if ?c then _ else _) = _ => destruct c
         end;
  reflexivity.

Lemma silent_telephone fd st : (checkTelephone fd st).1 = st.1.
Proof. solve_silent. Qed.
Lemma silent_email fd st : (checkEmail fd true st).1 = st.1.
Proof. solve_silent. Qed.
Lemma silent_url k msg fd st : (checkUrl URL_parses k msg fd true st).1 = st.1.
Proof. solve_silent. Qed.
Lemma silent_latitude fd st : (checkLatitude fd true st).1 = st.1.
Proof. solve_silent. Qed.
Lemma silent_longitude fd st : (checkLongitude fd true st).1 = st.1.
Proof. solve_silent. Qed.
Lemma silent_rating fd st : (checkRating fd true st).1 = st.1.
Proof. solve_silent. Qed.
Lemma silent_reviewCount fd st : (checkReviewCount fd true st).1 = st.1.
Proof. solve_silent. Qed.
Lemma silent_priceRange fd st : (checkPriceRange fd st).1 = st.1.
Proof. solve_silent. Qed.

(** The required-field step pushes only messages about missing fields. *)
Lemma from_require (Q : Prop) m fd k msg st :
  (In m st.1 -> Q) -> (m = msg -> Q) -> In m (require fd k msg st).1 -> Q.
Proof.
  intros Hst Hmsg. unfold require. destruct (filled_trim fd k); [exact Hst|].
  unfold push. cbn [fst]. rewrite in_app_iff. cbn [In]. intros [H|[H|[]]]; auto.
Qed.

Lemma from_put (Q : Prop) m k v st : (In m st.1 -> Q) -> In m (put k v st).1 -> Q.
Proof. intros H. exact H. Qed.

Lemma from_drop (Q : Prop) m k st : (In m st.1 -> Q) -> In m (drop k st).1 -> Q.
Proof. intros H. exact H. Qed.

Local Ltac solve_lenient :=
  let H := fresh "H" in
  open_checks; unfold reject; cbn [negb andb];
  repeat match goal with
         | |- In _ (fst (put _ _ _)) -> _ => apply from_put
         | |- In _ (fst (drop _ _)) -> _ => apply from_drop
         | |- In _ (fst (require _ _ _ _)) -> _ =>
             apply from_require;
             [| let E := fresh in intros E; right; rewrite E; unfold lenientMessages;
                                   cbn [In]; auto 10 ]
         | |- In _ (fst (if ?c then _ else _)) -> _ => destruct c
         | |- In _ (fst (match ?x with Some _ => _ | None => _ end)) -> _ => destruct x
         end;
  intros H; left; exact H.

Lemma lenient_requireArticle fd st m :
  In m (requireArticle fd st).1 -> In m st.1 \/ In m lenientMessages.
Proof. solve_lenient. Qed.
Lemma lenient_requireHowTo fd st m :
  In m (requireHowTo fd st).1 -> In m st.1 \/ In m lenientMessages.
Proof. solve_lenient. Qed.
Lemma lenient_requireBusiness fd st m :
  In m (requireBusiness fd true st).1 -> In m st.1 \/ In m lenientMessages.
Proof. solve_lenient. Qed.
Lemma silent_postalCode fd st : (checkPostalCode fd true st).1 = st.1.
Proof.
  unfold checkPostalCode, reject, put, drop. cbn [negb].
  repeat match goal with
         | |- fst (if ?c then _ else _) = _ => destruct c
         | |- fst (match ?x with Some _ => _ | None => _ end) = _ => destruct x
         end; reflexivity.
Qed.
Lemma silent_autoDetect fd st : (autoDetectPriceRange fd st).1 = st.1.
Proof. solve_silent. Qed.

Lemma lenient_requiredFields fd st m :
  In m (requiredFields fd true st).1 -> In m st.1 \/ In m lenientMessages.
Proof.
  unfold requiredFields.
  destruct (field_is fd "contentType" "Article"); [apply lenient_requireArticle|].
  destruct (field_is fd "contentType" "HowTo"); [apply lenient_requireHowTo|].
  rewrite silent_autoDetect, silent_postalCode. apply lenient_requireBusiness.
Qed.

Lemma lenient_errors fd m :
  In m (errors (validateTexts URL_parses fd true)) -> In m lenientMessages.
Proof.
  unfold validateTexts. cbv zeta. cbn [errors].
  rewrite silent_priceRange, silent_reviewCount, silent_rating, silent_longitude,
    silent_latitude, !silent_url, silent_email, silent_telephone.
  intros H. apply lenient_requiredFields in H. destruct H as [[]|H]. exact H.
Qed.

End FormFacts.

Section FormTheorems.

Variable URL_parses : string -> bool.

Implicit Types st : vstate.

(** *** A step reads and writes the same way with another field deleted *)

Lemma lookup_delete_other (fd : formdata) (f k : string) :
  f <> k -> delete f fd !! k = fd !! k.
Proof. apply lookup_delete_ne. Qed.

Lemma filled_delete (fd : formdata) (f k : string) :
  f <> k -> filled (delete f fd) k = filled fd k.
Proof. intros H. unfold filled. rewrite lookup_delete_ne by exact H. reflexivity. Qed.

Lemma filled_trim_delete (fd : formdata) (f k : string) :
  f <> k -> filled_trim (delete f fd) k = filled_trim fd k.
Proof. intros H. unfold filled_trim. rewrite lookup_delete_ne by exact H. reflexivity. Qed.

Lemma field_delete (fd : formdata) (f k : string) :
  f <> k -> field (delete f fd) k = field fd k.
Proof. intros H. unfold field. rewrite lookup_delete_ne by exact H. reflexivity. Qed.

Lemma field_is_delete (fd : formdata) (f k v : string) :
  f <> k -> field_is (delete f fd) k v = field_is fd k v.
Proof. intros H. unfold field_is. rewrite lookup_delete_ne by exact H. reflexivity. Qed.

Lemma field_or_delete (fd : formdata) (f k d : string) :
  f <> k -> field_or (delete f fd) k d = field_or fd k d.
Proof.
  intros H. unfold field_or. rewrite filled_delete, field_delete by exact H. reflexivity.
Qed.

Local Ltac forget_delete :=
  rewrite ?filled_delete, ?filled_trim_delete, ?field_delete, ?field_or_delete,
    ?field_is_delete, ?lookup_delete_other by (first [assumption | discriminate]).

(** The steps do not read the fields they do not check. *)
Lemma requireArticle_delete c fd :
  requireArticle (delete (fieldName c) fd) = requireArticle fd.
Proof.
  destruct c; cbn [fieldName]; unfold requireArticle, require; forget_delete; reflexivity.
Qed.

Lemma requireHowTo_delete c fd :
  requireHowTo (delete (fieldName c) fd) = requireHowTo fd.
Proof.
  destruct c; cbn [fieldName]; unfold requireHowTo, require; forget_delete; reflexivity.
Qed.

Lemma requireBusiness_delete c fd isAi :
  requireBusiness (delete (fieldName c) fd) isAi = requireBusiness fd isAi.
Proof.
  destruct c; cbn [fieldName]; unfold requireBusiness, requireAddress, require;
    forget_delete; reflexivity.
Qed.

Lemma checkPostalCode_delete c fd isAi :
  checkPostalCode (delete (fieldName c) fd) isAi = checkPostalCode fd isAi.
Proof.
  destruct c; cbn [fieldName]; unfold checkPostalCode; forget_delete; reflexivity.
Qed.

Lemma autoDetectPriceRange_delete c fd :
  autoDetectPriceRange (delete (fieldName c) fd) = autoDetectPriceRange fd.
Proof.
  destruct c; cbn [fieldName]; unfold autoDetectPriceRange; forget_delete; reflexivity.
Qed.

Lemma requiredFields_delete c fd isAi :
  requiredFields (delete (fieldName c) fd) isAi = requiredFields fd isAi.
Proof.
  unfold requiredFields.
  rewrite requireArticle_delete, requireHowTo_delete, requireBusiness_delete,
    checkPostalCode_delete, autoDetectPriceRange_delete.
  destruct c; cbn [fieldName]; forget_delete; reflexivity.
Qed.

Lemma checkTelephone_delete c fd :
  checkTelephone (delete (fieldName c) fd) = checkTelephone fd.
Proof.
  destruct c; cbn [fieldName]; unfold checkTelephone; forget_delete; reflexivity.
Qed.

Lemma checkPriceRange_delete c fd :
  checkPriceRange (delete (fieldName c) fd) = checkPriceRange fd.
Proof.
  destruct c; cbn [fieldName]; unfold checkPriceRange; forget_delete; reflexivity.
Qed.

Lemma checkEmail_delete f fd isAi :
  f <> "email" -> checkEmail (delete f fd) isAi = checkEmail fd isAi.
Proof. intros H. unfold checkEmail. forget_delete. reflexivity. Qed.

Lemma checkUrl_delete f k msg fd isAi :
  f <> k -> checkUrl URL_parses k msg (delete f fd) isAi = checkUrl URL_parses k msg fd isAi.
Proof. intros H. unfold checkUrl. forget_delete. reflexivity. Qed.

Lemma checkLatitude_delete f fd isAi :
  f <> "latitude" -> checkLatitude (delete f fd) isAi = checkLatitude fd isAi.
Proof. intros H. unfold checkLatitude. forget_delete. reflexivity. Qed.

Lemma checkLongitude_delete f fd isAi :
  f <> "longitude" -> checkLongitude (delete f fd) isAi = checkLongitude fd isAi.
Proof. intros H. unfold checkLongitude. forget_delete. reflexivity. Qed.

Lemma checkRating_delete f fd isAi :
  f <> "ratingValue" -> checkRating (delete f fd) isAi = checkRating fd isAi.
Proof. intros H. unfold checkRating. forget_delete. reflexivity. Qed.

Lemma checkReviewCount_delete f fd isAi :
  f <> "reviewCount" -> checkReviewCount (delete f fd) isAi = checkReviewCount fd isAi.
Proof. intros H. unfold checkReviewCount. forget_delete. reflexivity. Qed.

(** The elementary updates carry the relation along. *)
Lemma same_but_push f msg st st' :
  same_but f st st' -> same_but f (push msg st) (push msg st').
Proof. intros [E1 E2]. unfold same_but, push. cbn [fst snd]. rewrite E1. auto. Qed.

Lemma same_but_put f k v st st' :
  f <> k -> same_but f st st' -> same_but f (put k v st) (put k v st').
Proof.
  intros H [E1 E2]. unfold same_but, put. cbn [fst snd]. split; [exact E1|].
  rewrite E2, delete_insert_ne by exact H. reflexivity.
Qed.

Lemma same_but_drop f k st st' :
  same_but f st st' -> same_but f (drop k st) (drop k st').
Proof.
  intros [E1 E2]. unfold same_but, drop. cbn [fst snd]. split; [exact E1|].
  rewrite E2. apply delete_delete.
Qed.

Lemma same_but_reject f isAi k msg st st' :
  same_but f st st' -> same_but f (reject isAi k msg st) (reject isAi k msg st').
Proof.
  intros H. unfold reject. destruct (negb isAi); [apply same_but_push | apply same_but_drop]; exact H.
Qed.

Lemma same_but_require f fd k msg st st' :
  same_but f st st' -> same_but f (require fd k msg st) (require fd k msg st').
Proof.
  intros H. unfold require. destruct (filled_trim fd k); [exact H | apply same_but_push, H].
Qed.

Local Ltac carry :=
  repeat match goal with
         | |- same_but _ (require _ _ _ _) _ => apply same_but_require
         | |- same_but _ (reject _ _ _ _) _ => apply same_but_reject
         | |- same_but _ (push _ _) _ => apply same_but_push
         | |- same_but _ (drop _ _) _ => apply same_but_drop
         | |- same_but _ (put _ _ _) _ => apply same_but_put; [discriminate|]
         | |- same_but _ (if ?c then _ else _) _ => destruct c
         | |- same_but _ (match ?x with Some _ => _ | None => _ end) _ => destruct x
         end;
  assumption.

Local Ltac solve_same_but :=
  let H := fresh "H" in
  intros H;
  unfold requiredFields; unfold requireBusiness;
  unfold requireArticle, requireHowTo, requireAddress,
    checkPostalCode, autoDetectPriceRange, checkTelephone, checkEmail, checkUrl,
    checkLatitude, checkLongitude, checkRating, checkReviewCount, checkPriceRange;
  cbv zeta; carry.

Lemma same_but_requireArticle f fd st st' :
  same_but f st st' -> same_but f (requireArticle fd st) (requireArticle fd st').
Proof. solve_same_but. Qed.

Lemma same_but_requireHowTo f fd st st' :
  same_but f st st' -> same_but f (requireHowTo fd st) (requireHowTo fd st').
Proof. solve_same_but. Qed.

Lemma same_but_requireBusiness f fd isAi st st' :
  same_but f st st' -> same_but f (requireBusiness fd isAi st) (requireBusiness fd isAi st').
Proof. solve_same_but. Qed.

Lemma same_but_postalCode c fd isAi st st' :
  same_but (fieldName c) st st' ->
  same_but (fieldName c) (checkPostalCode fd isAi st) (checkPostalCode fd isAi st').
Proof. destruct c; cbn [fieldName]; solve_same_but. Qed.

Lemma same_but_autoDetect c fd st st' :
  same_but (fieldName c) st st' ->
  same_but (fieldName c) (autoDetectPriceRange fd st) (autoDetectPriceRange fd st').
Proof. destruct c; cbn [fieldName]; solve_same_but. Qed.

Lemma same_but_requiredFields c fd isAi st st' :
  same_but (fieldName c) st st' ->
  same_but (fieldName c) (requiredFields fd isAi st)
    (requiredFields (delete (fieldName c) fd) isAi st').
Proof.
  rewrite requiredFields_delete. intros H. unfold requiredFields.
  destruct (field_is fd "contentType" "Article"); [apply same_but_requireArticle, H|].
  destruct (field_is fd "contentType" "HowTo"); [apply same_but_requireHowTo, H|].
  apply same_but_autoDetect, same_but_postalCode, same_but_requireBusiness, H.
Qed.

Lemma same_but_telephone c fd st st' :
  same_but (fieldName c) st st' ->
  same_but (fieldName c) (checkTelephone fd st) (checkTelephone (delete (fieldName c) fd) st').
Proof. rewrite checkTelephone_delete. destruct c; cbn [fieldName]; solve_same_but. Qed.

Lemma same_but_priceRange c fd st st' :
  same_but (fieldName c) st st' ->
  same_but (fieldName c) (checkPriceRange fd st) (checkPriceRange (delete (fieldName c) fd) st').
Proof. rewrite checkPriceRange_delete. destruct c; cbn [fieldName]; solve_same_but. Qed.

Lemma same_but_email f fd isAi st st' :
  f <> "email" -> same_but f st st' ->
  same_but f (checkEmail fd isAi st) (checkEmail (delete f fd) isAi st').
Proof. intros Hf. rewrite checkEmail_delete by exact Hf. solve_same_but. Qed.

Lemma same_but_url f k msg fd isAi st st' :
  f <> k -> same_but f st st' ->
  same_but f (checkUrl URL_parses k msg fd isAi st)
    (checkUrl URL_parses k msg (delete f fd) isAi st').
Proof. intros Hf. rewrite checkUrl_delete by exact Hf. solve_same_but. Qed.

Lemma same_but_latitude f fd isAi st st' :
  f <> "latitude" -> same_but f st st' ->
  same_but f (checkLatitude fd isAi st) (checkLatitude (delete f fd) isAi st').
Proof. intros Hf. rewrite checkLatitude_delete by exact Hf. solve_same_but. Qed.

Lemma same_but_longitude f fd isAi st st' :
  f <> "longitude" -> same_but f st st' ->
  same_but f (checkLongitude fd isAi st) (checkLongitude (delete f fd) isAi st').
Proof. intros Hf. rewrite checkLongitude_delete by exact Hf. solve_same_but. Qed.

Lemma same_but_rating f fd isAi st st' :
  f <> "ratingValue" -> same_but f st st' ->
  same_but f (checkRating fd isAi st) (checkRating (delete f fd) isAi st').
Proof. intros Hf. rewrite checkRating_delete by exact Hf. solve_same_but. Qed.

Lemma same_but_reviewCount f fd isAi st st' :
  f <> "reviewCount" -> same_but f st st' ->
  same_but f (checkReviewCount fd isAi st) (checkReviewCount (delete f fd) isAi st').
Proof. intros Hf. rewrite checkReviewCount_delete by exact Hf. solve_same_but. Qed.

(** *** The step of an invalid field *)

Lemma check_invalid c fd v isAi st :
  fd !! fieldName c = Some v -> v <> "" -> invalidValue URL_parses c v = true ->
  checkOf URL_parses c fd isAi st = reject isAi (fieldName c) (errorMessage c) st.
Proof.
  intros Hf Hv Hinv. destruct (filled_Some _ _ _ Hf Hv) as [Hfilled Hfield].
  destruct c; cbn [checkOf fieldName errorMessage invalidValue] in *;
    unfold checkEmail, checkUrl, checkLatitude, checkLongitude, checkRating,
      checkReviewCount, outside, isValidUrl; unfold out_of_range in Hinv;
    rewrite Hfilled, Hfield; cbv zeta; rewrite Hinv; reflexivity.
Qed.

Lemma check_absent c fd isAi st :
  checkOf URL_parses c (delete (fieldName c) fd) isAi st = st.
Proof.
  destruct c; cbn [checkOf fieldName];
    unfold checkEmail, checkUrl, checkLatitude, checkLongitude, checkRating,
      checkReviewCount, filled; rewrite lookup_delete_eq; reflexivity.
Qed.

Lemma same_but_dropped c fd v st st' :
  fd !! fieldName c = Some v -> v <> "" -> invalidValue URL_parses c v = true ->
  same_but (fieldName c) st st' ->
  same_but (fieldName c) (checkOf URL_parses c fd true st)
    (checkOf URL_parses c (delete (fieldName c) fd) true st').
Proof.
  intros Hf Hv Hinv [E1 E2]. rewrite (check_invalid c fd v true st Hf Hv Hinv), check_absent.
  unfold reject, drop, same_but. cbn [negb fst snd]. split; [exact E1|].
  rewrite E2, delete_delete_eq. reflexivity.
Qed.

Local Ltac peel_errors :=
  first [ apply keeps_errors_priceRange | apply keeps_errors_reviewCount
        | apply keeps_errors_rating | apply keeps_errors_longitude
        | apply keeps_errors_latitude | apply keeps_errors_url
        | apply keeps_errors_email | apply keeps_errors_telephone ].

Local Ltac peel_key :=
  etrans;
  [ first [ apply keeps_key_priceRange; discriminate
          | apply keeps_key_reviewCount; discriminate
          | apply keeps_key_rating; discriminate
          | apply keeps_key_longitude; discriminate
          | apply keeps_key_latitude; discriminate
          | apply keeps_key_url; discriminate
          | apply keeps_key_email; discriminate ] |].

Local Ltac peel_same c :=
  first [ apply (same_but_priceRange c)
        | apply same_but_reviewCount; [discriminate|]
        | apply same_but_rating; [discriminate|]
        | apply same_but_longitude; [discriminate|]
        | apply same_but_latitude; [discriminate|]
        | apply same_but_url; [discriminate|]
        | apply same_but_email; [discriminate|]
        | apply (same_but_telephone c)
        | apply (same_but_requiredFields c) ].

(** In the strict mode the message of an invalid field is in the list. *)
Lemma strict_message c fd v :
  fd !! fieldName c = Some v -> v <> "" -> invalidValue URL_parses c v = true ->
  In (errorMessage c) (errors (validateTexts URL_parses fd false)).
Proof.
  intros Hf Hv Hinv. unfold validateTexts. cbv zeta. cbn [errors].
  assert (forall st, In (errorMessage c) (checkOf URL_parses c fd false st).1) as Hstep.
  { intros st. rewrite (check_invalid c fd v false st Hf Hv Hinv).
    unfold reject, push. cbn [negb fst]. apply in_app_iff. right. left. reflexivity. }
  destruct c; cbn [checkOf fieldName errorMessage] in *.
  - do 7 peel_errors. apply Hstep.
  - do 6 peel_errors. apply Hstep.
  - do 4 peel_errors. apply Hstep.
  - do 3 peel_errors. apply Hstep.
  - do 2 peel_errors. apply Hstep.
  - do 1 peel_errors. apply Hstep.
Qed.

(** For generated content the field is gone from the cleaned data. *)
Lemma lenient_removed c fd v :
  fd !! fieldName c = Some v -> v <> "" -> invalidValue URL_parses c v = true ->
  cleanedData (validateTexts URL_parses fd true) !! fieldName c = None.
Proof.
  intros Hf Hv Hinv. unfold validateTexts. cbv zeta. cbn [cleanedData].
  assert (forall st, (checkOf URL_parses c fd true st).2 !! fieldName c = None) as Hstep.
  { intros st. rewrite (check_invalid c fd v true st Hf Hv Hinv).
    unfold reject, drop. cbn [negb snd]. apply lookup_delete_eq. }
  destruct c; cbn [checkOf fieldName] in *; repeat peel_key; apply Hstep.
Qed.

(** For generated content the run is the run on the form without the
    field. *)
Lemma lenient_same_run c fd v :
  fd !! fieldName c = Some v -> v <> "" -> invalidValue URL_parses c v = true ->
  errors (validateTexts URL_parses fd true)
  = errors (validateTexts URL_parses (delete (fieldName c) fd) true) /\
  cleanedData (validateTexts URL_parses fd true)
  = cleanedData (validateTexts URL_parses (delete (fieldName c) fd) true).
Proof.
  intros Hf Hv Hinv.
  pose proof (lenient_removed c fd v Hf Hv Hinv) as Hgone.
  pose proof (same_but_dropped c fd v) as Hdrop.
  unfold validateTexts in *. cbv zeta in *. cbn [errors cleanedData] in *.
  match goal with
  | |- ?a.1 = ?b.1 /\ _ => assert (same_but (fieldName c) a b) as [E1 E2]
  end.
  { destruct c; cbn [checkOf fieldName] in *.
    - repeat first [ apply (Hdrop _ _ Hf Hv Hinv) | peel_same CEmail ]; split; reflexivity.
    - repeat first [ apply (Hdrop _ _ Hf Hv Hinv) | peel_same CWebsiteUrl ]; split; reflexivity.
    - repeat first [ apply (Hdrop _ _ Hf Hv Hinv) | peel_same CLatitude ]; split; reflexivity.
    - repeat first [ apply (Hdrop _ _ Hf Hv Hinv) | peel_same CLongitude ]; split; reflexivity.
    - repeat first [ apply (Hdrop _ _ Hf Hv Hinv) | peel_same CRatingValue ]; split; reflexivity.
    - repeat first [ apply (Hdrop _ _ Hf Hv Hinv) | peel_same CReviewCount ]; split; reflexivity. }
  split; [symmetry; exact E1|]. rewrite E2. symmetry. apply delete_id, Hgone.
Qed.

(** The run on a form of texts whose email, website URL, latitude,
    longitude, rating value or review count is present and invalid.  Typed
    in by hand: the result is not valid and the message of the field is in
    the list of errors.  Generated: the field is gone from the cleaned
    data, its message is not in the list, and the errors and the cleaned
    data are those of the form without the field. *)
Lemma invalid_field_texts (c : checkedField) (fd : formdata) (v : string) :
  fd !! fieldName c = Some v -> v <> "" -> invalidValue URL_parses c v = true ->
  (let r := validateTexts URL_parses fd false in
   isValid r = false /\ In (errorMessage c) (errors r)) /\
  (let r := validateTexts URL_parses fd true in
   let r' := validateTexts URL_parses (delete (fieldName c) fd) true in
   cleanedData r !! fieldName c = None /\
   ~ In (errorMessage c) (errors r) /\
   errors r = errors r' /\ cleanedData r = cleanedData r' /\ isValid r = isValid r').
Proof.
  intros Hf Hv Hinv. cbv zeta. split.
  - pose proof (strict_message c fd v Hf Hv Hinv) as Hin.
    assert (isValid (validateTexts URL_parses fd false) = false) as Hno.
    { unfold validateTexts in *. cbv zeta in *. cbn [errors isValid] in *.
      destruct (_.1); [contradiction | reflexivity]. }
    split; [exact Hno | exact Hin].
  - destruct (lenient_same_run c fd v Hf Hv Hinv) as [Eerr Ecl].
    split; [exact (lenient_removed c fd v Hf Hv Hinv)|].
    split.
    { intros Hin. apply lenient_errors in Hin. destruct c; cbn in Hin;
        repeat (destruct Hin as [Hin|Hin]; [discriminate Hin|]); exact Hin. }
    split; [exact Eerr|]. split; [exact Ecl|].
    unfold validateTexts in *. cbv zeta in *. cbn [errors isValid] in *.
    rewrite Eerr. reflexivity.
Qed.

(** *** The price range after validation *)





End FormTheorems.

(** *** The run on the form as an object

    The run of [validateFormData] on the object of a form of texts is the
    run on the texts, unless the country, the city or the content type
    names a built-in member. *)

Section FormRun.

Variable URL_parses : string -> bool.

Implicit Types st : vstate.

Lemma bind_Ok {A B : Type} (a : A) (k : A -> result B) : (Ok a ≫= k) = k a.
Proof. reflexivity. Qed.

Lemma fieldV_formObject (fd : formdata) (k : string) :
  fieldV (formObject fd) k = match fd !! k with Some s => VStr s | None => VUndef end.
Proof.
  unfold fieldV, formObject. rewrite lookup_fmap. destruct (fd !! k); reflexivity.
Qed.

Lemma filled_trimV_texts (fd : formdata) (k : string) :
  filled_trimV (formObject fd) k = Ok (filled_trim fd k).
Proof.
  unfold filled_trimV, filled_trim. rewrite fieldV_formObject.
  destruct (fd !! k); reflexivity.
Qed.

Lemma field_isV_texts (fd : formdata) (k v : string) :
  field_isV (formObject fd) k v = field_is fd k v.
Proof.
  unfold field_isV, field_is. rewrite fieldV_formObject. destruct (fd !! k); reflexivity.
Qed.

Lemma truthy_fieldV (fd : formdata) (k : string) :
  truthy (fieldV (formObject fd) k) = filled fd k.
Proof.
  unfold filled. rewrite fieldV_formObject. destruct (fd !! k); reflexivity.
Qed.

Lemma fieldV_filled (fd : formdata) (k : string) :
  filled fd k = true -> fieldV (formObject fd) k = VStr (field fd k).
Proof.
  unfold filled, field. rewrite fieldV_formObject.
  destruct (fd !! k); [reflexivity | discriminate].
Qed.

Lemma fieldV_filled_trim (fd : formdata) (k : string) :
  filled_trim fd k = true -> fieldV (formObject fd) k = VStr (field fd k).
Proof.
  unfold filled_trim, field. rewrite fieldV_formObject.
  destruct (fd !! k); [reflexivity | discriminate].
Qed.

Lemma or_else_fieldV (fd : formdata) (k d : string) :
  d <> "" -> or_else (fieldV (formObject fd) k) (VStr d) = VStr (field_or fd k d).
Proof.
  intros Hd. unfold or_else, field_or. rewrite truthy_fieldV.
  destruct (filled fd k) eqn:F; [apply fieldV_filled, F | reflexivity].
Qed.

Lemma str_or_empty_fieldV (fd : formdata) (k : string) :
  str_or_empty (fieldV (formObject fd) k) = Ok (default "" (fd !! k)).
Proof.
  unfold str_or_empty. rewrite fieldV_formObject.
  destruct (fd !! k) as [s|]; [|reflexivity]. cbn.
  destruct (String.eqb_spec s "") as [->|_]; reflexivity.
Qed.

Lemma state_put (k v : string) st :
  state_of_texts (put k v st) = put k (VStr v) (state_of_texts st).
Proof.
  unfold state_of_texts, put, formObject. cbn [fst snd]. rewrite fmap_insert. reflexivity.
Qed.

Lemma state_drop (k : string) st : state_of_texts (drop k st) = drop k (state_of_texts st).
Proof.
  unfold state_of_texts, drop, formObject. cbn [fst snd]. rewrite fmap_delete. reflexivity.
Qed.

Lemma state_reject (isAi : bool) (k msg : string) st :
  state_of_texts (reject isAi k msg st) = reject isAi k msg (state_of_texts st).
Proof.
  unfold reject. destruct isAi; cbn [negb]; [apply state_drop | reflexivity].
Qed.

Lemma requireV_texts (fd : formdata) (k msg : string) st :
  requireV (formObject fd) k msg (state_of_texts st)
  = Ok (state_of_texts (require fd k msg st)).
Proof.
  unfold requireV, require. rewrite filled_trimV_texts. cbn.
  destruct (filled_trim fd k); reflexivity.
Qed.

Lemma requireArticleV_texts (fd : formdata) st :
  requireArticleV (formObject fd) (state_of_texts st)
  = Ok (state_of_texts (requireArticle fd st)).
Proof.
  unfold requireArticleV, requireArticle. rewrite requireV_texts. cbn.
  rewrite requireV_texts. cbn. apply requireV_texts.
Qed.

Lemma requireHowToV_texts (fd : formdata) st :
  requireHowToV (formObject fd) (state_of_texts st)
  = Ok (state_of_texts (requireHowTo fd st)).
Proof. apply requireV_texts. Qed.

Lemma hasAnyAddressV_texts (fd : formdata) :
  exists b, hasAnyAddressV (formObject fd) = Ok b.
Proof.
  unfold hasAnyAddressV. rewrite !filled_trimV_texts. cbn.
  repeat match goal with
         | |- context [if ?c then _ else _] => destruct c; [eauto|]
         end.
  eauto.
Qed.

Lemma requireBusinessV_texts (fd : formdata) (isAi : bool) st :
  requireBusinessV (formObject fd) isAi (state_of_texts st)
  = Ok (state_of_texts (requireBusiness fd isAi st)).
Proof.
  unfold requireBusinessV, requireBusiness. cbv zeta. rewrite requireV_texts. cbn.
  rewrite requireV_texts. cbn. destruct isAi; cbn [negb].
  - destruct (hasAnyAddressV_texts fd) as [b ->]. reflexivity.
  - unfold requireAddressV, requireAddress. rewrite requireV_texts. cbn.
    rewrite requireV_texts. cbn. apply requireV_texts.
Qed.

(** The pattern that a lookup gives is the pattern of the table read as a
    finite map. *)
Lemma postalPattern_own (country : string) (pattern : regex) :
  postalPattern country = Some pattern -> pattern = ownPattern country.
Proof.
  unfold postalPattern, ownPattern, literal_get.
  destruct (postalCodePatterns !! country); [intros [= <-]; reflexivity|].
  destruct (inherited country); [discriminate | intros [= <-]; reflexivity].
Qed.

Lemma postalPattern_none (country : string) :
  postalPattern country = None -> inherited country = true.
Proof.
  unfold postalPattern, literal_get.
  destruct (postalCodePatterns !! country); [discriminate|].
  destruct (inherited country); [reflexivity | discriminate].
Qed.

Lemma inferPostalCodeFromCity_texts (city : string) :
  match inferPostalCodeFromCity city with
  | Own zip => zipOfCity city = Some zip
  | Missing => zipOfCity city = None
  | Member _ => inherited (trim (toLowerCase city)) = true
  end.
Proof.
  unfold inferPostalCodeFromCity, zipOfCity, literal_get.
  destruct (commonCityZipMapping !! _); [reflexivity|].
  destruct (inherited _); reflexivity.
Qed.

Lemma detectPriceRange_texts (city businessType : string)
    (businessName description : option string) :
  match detectPriceRange city businessType businessName description with
  | Own tier => tier = detectedTier city businessType businessName description
  | Member _ => inherited (trim (toLowerCase city)) = true \/ inherited businessType = true
  | Missing => False
  end.
Proof.
  destruct (inherited (trim (toLowerCase city))) eqn:Hc.
  - pose proof (detectPriceRange_result city businessType businessName description) as H.
    unfold detectPriceRange, detectedTier in *.
    destruct (city =? ""); [reflexivity|]. cbv zeta in *.
    destruct (negb (detectTextTier _ =? "")); [reflexivity|].
    rewrite (literal_get_member _ _ (proj1 (proj2 (inherited_not_own _ Hc))) Hc) in *.
    cbn [present] in *. left. reflexivity.
  - destruct (inherited businessType) eqn:Ht.
    + unfold detectPriceRange, detectedTier.
      destruct (city =? ""); [reflexivity|]. cbv zeta.
      destruct (negb (detectTextTier _ =? "")); [reflexivity|].
      rewrite (literal_get_plain _ _ Hc).
      rewrite (literal_get_member _ _
                 (proj1 (proj2 (proj2 (inherited_not_own _ Ht)))) Ht).
      destruct (cityPriceMapping !! _) as [r|] eqn:E.
      * assert (Hp : present (Own r) = true).
        { eapply table_value_present; [|exact E]. vm_compute. reflexivity. }
        rewrite Hp. reflexivity.
      * cbn [present]. right. reflexivity.
    + rewrite (detectPriceRange_plain _ _ _ _ Hc Ht). reflexivity.
Qed.

Lemma detectedTier_default (city businessType : string) (name description : option string) :
  detectedTier city businessType (Some (default "" name)) (Some (default "" description))
  = detectedTier city businessType name description.
Proof. reflexivity. Qed.

(** A step of the run on the object against the step on the texts: it
    gives the state of the texts, or it does not return and a name of the
    form is the name of a built-in member. *)
Lemma checkPostalCodeV_texts (fd : formdata) (isAi : bool) st :
  match checkPostalCodeV (formObject fd) isAi (state_of_texts st) with
  | Ok st' => st' = state_of_texts (checkPostalCode fd isAi st)
  | _ => ~ plain_names fd
  end.
Proof.
  unfold checkPostalCodeV, checkPostalCode. rewrite !filled_trimV_texts. cbn.
  destruct (filled_trim fd "postalCode") eqn:Hzip.
  - rewrite (fieldV_filled_trim _ _ Hzip), or_else_fieldV by discriminate.
    unfold isValidPostalCodeV. cbn. unfold matchesPostalCode.
    assert (Hne : (field fd "postalCode" =? "") = false).
    { unfold filled_trim, field in *. destruct (fd !! "postalCode") as [s|]; [|discriminate].
      cbn. destruct (String.eqb_spec s "") as [->|_]; [discriminate Hzip | reflexivity]. }
    rewrite Hne.
    destruct (postalPattern (field_or fd "addressCountry" "US")) as [pattern|] eqn:Hp.
    + apply postalPattern_own in Hp. subst pattern. cbn.
      destruct (negb (test _ _)); [symmetry; apply state_reject | reflexivity].
    + apply postalPattern_none in Hp. intros (Hplain & _). unfold plain in Hplain.
      congruence.
  - destruct isAi; [|reflexivity]. cbn [andb].
    destruct (filled_trim fd "addressLocality") eqn:Hcity; [|reflexivity].
    rewrite (fieldV_filled_trim _ _ Hcity). cbn.
    pose proof (inferPostalCodeFromCity_texts (field fd "addressLocality")) as Hz.
    destruct (inferPostalCodeFromCity (field fd "addressLocality")) as [zip|name|].
    + rewrite Hz. destruct (zip =? ""); [reflexivity | symmetry; apply state_put].
    + intros (_ & Hplain & _). unfold plain in Hplain. congruence.
    + rewrite Hz. reflexivity.
Qed.

Lemma autoDetectPriceRangeV_texts (fd : formdata) st :
  match autoDetectPriceRangeV (formObject fd) (state_of_texts st) with
  | Ok st' => st' = state_of_texts (autoDetectPriceRange fd st)
  | _ => ~ plain_names fd
  end.
Proof.
  unfold autoDetectPriceRangeV, autoDetectPriceRange. rewrite !filled_trimV_texts. cbn.
  destruct (filled_trim fd "priceRange"); cbn [negb andb]; [reflexivity|].
  destruct (filled_trim fd "addressLocality") eqn:Hcity; [|reflexivity].
  rewrite (fieldV_filled_trim _ _ Hcity), or_else_fieldV by discriminate.
  unfold detectPriceRangeV. cbn. rewrite !str_or_empty_fieldV. cbn.
  pose proof (detectPriceRange_texts (field fd "addressLocality")
                (field_or fd "contentType" "LocalBusiness")
                (Some (default "" (fd !! "name")))
                (Some (default "" (fd !! "description")))) as Hd.
  destruct (detectPriceRange _ _ _ _) as [tier|name|].
  - cbn. rewrite Hd, detectedTier_default. symmetry. apply state_put.
  - intros (_ & Hcity' & Htype). unfold plain in *. destruct Hd; congruence.
  - contradiction.
Qed.

Lemma requiredFieldsV_texts (fd : formdata) (isAi : bool) st :
  match requiredFieldsV (formObject fd) isAi (state_of_texts st) with
  | Ok st' => st' = state_of_texts (requiredFields fd isAi st)
  | _ => ~ plain_names fd
  end.
Proof.
  unfold requiredFieldsV, requiredFields. rewrite !field_isV_texts.
  destruct (field_is fd "contentType" "Article"); [rewrite requireArticleV_texts; reflexivity|].
  destruct (field_is fd "contentType" "HowTo"); [rewrite requireHowToV_texts; reflexivity|].
  rewrite requireBusinessV_texts. cbn.
  pose proof (checkPostalCodeV_texts fd isAi (requireBusiness fd isAi st)) as H1.
  destruct (checkPostalCodeV _ _ _) as [st1| |]; cbn; try exact H1. subst st1.
  apply autoDetectPriceRangeV_texts.
Qed.

Lemma checkTelephoneV_texts (fd : formdata) st :
  checkTelephoneV (formObject fd) (state_of_texts st)
  = Ok (state_of_texts (checkTelephone fd st)).
Proof.
  unfold checkTelephoneV, checkTelephone. rewrite truthy_fieldV.
  destruct (filled fd "telephone") eqn:F; [|reflexivity].
  rewrite (fieldV_filled _ _ F). cbn. rewrite state_put. reflexivity.
Qed.

Lemma checkEmailV_texts (fd : formdata) (isAi : bool) st :
  checkEmailV (formObject fd) isAi (state_of_texts st)
  = Ok (state_of_texts (checkEmail fd isAi st)).
Proof.
  unfold checkEmailV, checkEmail. rewrite truthy_fieldV.
  destruct (filled fd "email") eqn:F; [|reflexivity].
  rewrite (fieldV_filled _ _ F). cbn.
  destruct (negb (isValidEmail _)); [rewrite state_reject|]; reflexivity.
Qed.

Lemma checkUrlV_texts (k msg : string) (fd : formdata) (isAi : bool) st :
  checkUrlV URL_parses k msg (formObject fd) isAi (state_of_texts st)
  = Ok (state_of_texts (checkUrl URL_parses k msg fd isAi st)).
Proof.
  unfold checkUrlV, checkUrl. rewrite truthy_fieldV.
  destruct (filled fd k) eqn:F; [|reflexivity].
  rewrite (fieldV_filled _ _ F). cbn.
  destruct (negb (isValidUrl URL_parses _)); [rewrite state_reject|]; reflexivity.
Qed.

Lemma checkRangeV_texts (k msg : string) (lo hi : Z) (fd : formdata) (isAi : bool) st :
  checkRangeV k msg lo hi (formObject fd) isAi (state_of_texts st)
  = Ok (state_of_texts
          (if filled fd k then
             if outside (parseFloat (field fd k)) lo hi then reject isAi k msg st else st
           else st)).
Proof.
  unfold checkRangeV. rewrite truthy_fieldV.
  destruct (filled fd k) eqn:F; [|reflexivity].
  rewrite (fieldV_filled _ _ F). cbn.
  destruct (outside _ _ _); [rewrite state_reject|]; reflexivity.
Qed.

Lemma checkReviewCountV_texts (fd : formdata) (isAi : bool) st :
  checkReviewCountV (formObject fd) isAi (state_of_texts st)
  = Ok (state_of_texts (checkReviewCount fd isAi st)).
Proof.
  unfold checkReviewCountV, checkReviewCount. rewrite truthy_fieldV.
  destruct (filled fd "reviewCount") eqn:F; [|reflexivity].
  rewrite (fieldV_filled _ _ F). cbn.
  destruct (isNaN _ || ltb _ _); [rewrite state_reject|]; reflexivity.
Qed.

Lemma checkPriceRangeV_texts (fd : formdata) st :
  checkPriceRangeV (formObject fd) (state_of_texts st)
  = Ok (state_of_texts (checkPriceRange fd st)).
Proof.
  unfold checkPriceRangeV, checkPriceRange. rewrite truthy_fieldV.
  destruct (filled fd "priceRange") eqn:F; [|reflexivity].
  rewrite (fieldV_filled _ _ F). cbn. rewrite state_put. reflexivity.
Qed.

(** The whole run. *)
Lemma validateFormData_texts (fd : formdata) (isAi : bool) :
  match validateFormData URL_parses (formObject fd) isAi with
  | Ok r => r = of_texts (validateTexts URL_parses fd isAi)
  | _ => ~ plain_names fd
  end.
Proof.
  unfold validateFormData, validateTexts. cbv zeta.
  pose proof (requiredFieldsV_texts fd isAi ([], fd)) as H1.
  change ([], formObject fd) with (state_of_texts ([], fd)).
  destruct (requiredFieldsV _ _ _) as [st1| |]; try exact H1. subst st1.
  rewrite bind_Ok, checkTelephoneV_texts, bind_Ok, checkEmailV_texts, bind_Ok.
  rewrite checkUrlV_texts, bind_Ok, checkUrlV_texts, bind_Ok.
  unfold checkLatitudeV, checkLongitudeV, checkRatingV.
  rewrite checkRangeV_texts, bind_Ok, checkRangeV_texts, bind_Ok.
  rewrite checkRangeV_texts, bind_Ok, checkReviewCountV_texts, bind_Ok.
  rewrite checkPriceRangeV_texts, bind_Ok. reflexivity.
Qed.

Lemma validateFormData_returns (fd : formdata) (isAi : bool) (r : validation value) :
  validateFormData URL_parses (formObject fd) isAi = Ok r ->
  r = of_texts (validateTexts URL_parses fd isAi).
Proof.
  intros E. pose proof (validateFormData_texts fd isAi) as H. rewrite E in H. exact H.
Qed.

Lemma validateFormData_plain (fd : formdata) (isAi : bool) :
  plain_names fd ->
  validateFormData URL_parses (formObject fd) isAi
  = Ok (of_texts (validateTexts URL_parses fd isAi)).
Proof.
  intros Hplain. pose proof (validateFormData_texts fd isAi) as H.
  destruct (validateFormData _ _ _); [rewrite H; reflexivity | contradiction..].
Qed.

Lemma plain_names_delete (c : checkedField) (fd : formdata) :
  plain_names fd -> plain_names (delete (fieldName c) fd).
Proof.
  unfold plain_names.
  rewrite !field_or_delete, field_delete by (destruct c; discriminate). auto.
Qed.

Lemma lookup_formObject_None (fd : formdata) (k : string) :
  fd !! k = None -> formObject fd !! k = None.
Proof. intros H. unfold formObject. rewrite lookup_fmap, H. reflexivity. Qed.

(** C7 (as amended): a form of ASCII texts whose country, city and content
    type name no built-in member, and whose email, website URL, latitude,
    longitude, rating value or review count is present and invalid as the
    code tests it: the email does not have the shape of the pattern, the
    URL is refused by the parser, the number that [parseFloat] (or
    [parseInt], for the count) reads at the head of the text is missing or
    out of range.  Typed in by hand ([isAiGenerated = false]): the result
    is not valid, the message of the field is in the list of errors and
    [generateSchema] builds no document.  Generated ([isAiGenerated =
    true]): the field is gone from the cleaned data, its message is not in
    the list, and the errors and the cleaned data are those of validating
    the form without the field. *)
Theorem invalid_field_strict_lenient (c : checkedField) (fd : formdata) (v : string) :
  ascii_form fd -> plain_names fd ->
  fd !! fieldName c = Some v -> v <> "" -> invalidValue URL_parses c v = true ->
  (exists r,
     validateFormData URL_parses (formObject fd) false = Ok r /\
     isValid r = false /\ In (errorMessage c) (errors r) /\
     forall (Doc : Type) (synthesize : gmap string value -> option Doc),
       generateSchema URL_parses synthesize (formObject fd) false = Ok None) /\
  (exists r r',
     validateFormData URL_parses (formObject fd) true = Ok r /\
     validateFormData URL_parses (formObject (delete (fieldName c) fd)) true = Ok r' /\
     cleanedData r !! fieldName c = None /\
     ~ In (errorMessage c) (errors r) /\
     errors r = errors r' /\ cleanedData r = cleanedData r' /\ isValid r = isValid r').
Proof.
  intros _ Hplain Hf Hv Hinv.
  destruct (invalid_field_texts URL_parses c fd v Hf Hv Hinv) as [Hs Hl]. cbv zeta in *.
  split.
  - destruct Hs as [Hno Hin]. eexists. split; [apply validateFormData_plain, Hplain|].
    split; [exact Hno|]. split; [exact Hin|].
    intros Doc synthesize. unfold generateSchema.
    rewrite (validateFormData_plain _ _ Hplain), bind_Ok. cbn [of_texts isValid].
    rewrite Hno. reflexivity.
  - destruct Hl as (Hgone & Hnot & Eerr & Ecl & Eval).
    eexists. eexists. split; [apply validateFormData_plain, Hplain|].
    split; [apply validateFormData_plain, plain_names_delete, Hplain|].
    cbn [of_texts cleanedData errors isValid].
    split; [apply lookup_formObject_None, Hgone|].
    split; [exact Hnot|]. split; [exact Eerr|]. split; [rewrite Ecl; reflexivity | exact Eval].
Qed.


End FormRun.

Lemma invalid_field_strict_lenient_witness :
  sampleForm !! fieldName CEmail = Some "chez-nous-at-example" /\
  exists r r',
    validateFormData http_URL_parses (formObject sampleForm) false = Ok r /\
    isValid r = false /\
    validateFormData http_URL_parses (formObject sampleForm) true = Ok r' /\
    cleanedData r' !! "email" = None.
Proof.
  assert (Hform : ascii_form sampleForm).
  { apply (bool_decide_unpack _). vm_compute. exact I. }
  assert (Hplain : plain_names sampleForm) by (repeat split; vm_compute; reflexivity).
  split; [vm_compute; reflexivity|].
  destruct (invalid_field_strict_lenient http_URL_parses CEmail sampleForm
              "chez-nous-at-example" Hform Hplain)
    as [(r & E & Hno & _) (r1 & r2 & E1 & _ & Hgone & _)];
    [vm_compute; reflexivity | discriminate | vm_compute; reflexivity |].
  exists r, r1. auto.
Defined.

(** C7, counterexample: a latitude followed by words and a review count
    in exponent notation are taken for the numbers at their heads, 45 and
    1: the form typed in by hand is valid, although the latitude has a bad
    format and the count, a hundred-thousandth, is below 1. *)
Lemma loose_numbers_accepted :
  looseNumbersForm !! "latitude" = Some "45 degrees north" /\
  looseNumbersForm !! "reviewCount" = Some "1e-5" /\
  match validateFormData http_URL_parses (formObject looseNumbersForm) false with
  | Ok r => isValid r = true /\ errors r = []
  | _ => False
  end.
Proof. vm_compute. repeat split; reflexivity. Qed.



(** A city that names a built-in member: the detected price range is
    that member, and the run leaves the forms of the model. *)
Example validateFormData_built_in_member :
  validateFormData http_URL_parses
    (formObject (<["addressLocality" := "constructor"]> (delete "priceRange" looseNumbersForm)))
    false = Outside /\
  validateFormData http_URL_parses
    (formObject (<["postalCode" := "78701"]> (<["addressCountry" := "constructor"]>
                                                 looseNumbersForm)))
    false = Throw /\
  validateFormData http_URL_parses (<["name" := VNum (of_Z 7)]> (formObject looseNumbersForm))
    true = Throw.
Proof. repeat split; vm_compute; reflexivity. Qed.

Example validatePriceRange_examples :
  validatePriceRange " $$ " = "$$" /\
  validatePriceRange "Moderate prices" = "$$" /\
  validatePriceRange "very expensive" = "$$$$" /\
  validatePriceRange "about $$$ a head" = "$$$" /\
  validatePriceRange "ask us" = "$$" /\
  validatePriceRange "$$$$$$" = "$$$$$$".
Proof. repeat split; vm_compute; reflexivity. Qed.

(** ** Opening hours *)

Lemma formatLine_valid_times (line : string) (node : hours) :
  In node (formatLine line) ->
  isValidTimeFormat (opens node) = true /\ isValidTimeFormat (closes node) = true.
Proof.
  unfold formatLine, formatDayLine, formatRangeLine.
  destruct (Regex.first_match dayLine line) as [f|].
  - destruct (isValidTimeFormat (trim (group 2 f)) && isValidTimeFormat (trim (group 3 f)))
      eqn:V.
    + apply andb_true_iff in V. intros [<-|[]]. exact V.
    + destruct (Regex.first_match rangeLine line) as [g|]; [|intros []].
      destruct (isValidTimeFormat (trim (group 3 g)) && isValidTimeFormat (trim (group 4 g)))
        eqn:W; [|intros []].
      apply andb_true_iff in W. intros H. apply in_map_iff in H.
      destruct H as (day & <- & _). exact W.
  - destruct (Regex.first_match rangeLine line) as [g|]; [|intros []].
    destruct (isValidTimeFormat (trim (group 3 g)) && isValidTimeFormat (trim (group 4 g)))
      eqn:W; [|intros []].
    apply andb_true_iff in W. intros H. apply in_map_iff in H.
    destruct H as (day & <- & _). exact W.
Qed.

(** C8 (as amended): the hours pattern of the page extractor parses
    "Monday-Friday: 9:00 AM-5:00 PM" into exactly five nodes, Monday to
    Friday, each opening at "09:00" and closing at "17:00": the day range
    is expanded and the 12-hour times are converted.  [formatBusinessHours]
    does not convert 12-hour times: every node it returns has its two times
    in the 24-hour form HH:MM, so it returns no node for that text; a line
    it cannot parse is dropped. *)
Theorem opening_hours_monday_friday :
  parseOpeningHours "Monday-Friday: 9:00 AM-5:00 PM" = mondayToFriday "09:00" "17:00" /\
  formatBusinessHours "Monday-Friday: 9:00 AM-5:00 PM" = Some [] /\
  (forall (hoursInput : string) (nodes : list hours) (node : hours),
     formatBusinessHours hoursInput = Some nodes -> In node nodes ->
     isValidTimeFormat (opens node) = true /\ isValidTimeFormat (closes node) = true).
Proof.
  split; [vm_compute; reflexivity|]. split; [vm_compute; reflexivity|].
  intros hoursInput nodes node. unfold formatBusinessHours.
  destruct (hoursInput =? ""); [discriminate|]. intros [= <-] Hin.
  apply in_flat_map in Hin. destruct Hin as (line & _ & Hin).
  eapply formatLine_valid_times, Hin.
Qed.

Lemma opening_hours_monday_friday_witness :
  formatBusinessHours "Sat: 10:00-14:00" = Some [Hours "Saturday" "10:00" "14:00"] /\
  isValidTimeFormat "10:00" = true /\ isValidTimeFormat "14:00" = true.
Proof.
  split; [vm_compute; reflexivity|].
  apply (proj2 (proj2 opening_hours_monday_friday) "Sat: 10:00-14:00"
           [Hours "Saturday" "10:00" "14:00"] (Hours "Saturday" "10:00" "14:00"));
    [vm_compute; reflexivity | left; reflexivity].
Defined.

(** C8, counterexample: the line-based parser returns no node for the
    text of the scenario. *)
Lemma formatBusinessHours_drops_twelve_hour_line :
  formatBusinessHours "Monday-Friday: 9:00 AM-5:00 PM" = Some [] /\
  mondayToFriday "09:00" "17:00" <> [].
Proof. split; [vm_compute; reflexivity | discriminate]. Qed.

Example formatBusinessHours_examples :
  formatBusinessHours
    ("Mon: 9:00-17:00" ++ String (ascii_of_nat 10) "closed on holidays"
       ++ String (ascii_of_nat 10) "Sunday: 10am-2pm")
  = Some [Hours "Monday" "9:00" "17:00"] /\
  formatBusinessHours "Monday-Friday: 09:00-17:00"
  = Some [Hours "Monday-Friday" "09:00" "17:00"] /\
  formatBusinessHours "" = None.
Proof. repeat split; vm_compute; reflexivity. Qed.

Example parseOpeningHours_examples :
  parseOpeningHours "Mon-Fri 9:00 AM - 5:00 PM, Sat 10:00 AM - 12:30 PM"
  = (mondayToFriday "09:00" "17:00" ++ [Hours "Sat" "10:00" "12:30"])%list /\
  parseOpeningHours "Sunday: 12:00 AM - 12:00 PM" = [Hours "Sun" "00:00" "12:00"] /\
  parseOpeningHours "open all day" = [].
Proof. repeat split; vm_compute; reflexivity. Qed.

(** ** The depth bound of the cleaner is never reached *)

Section Termination.

Variable URL_parses : string -> bool.

Lemma lookup_set (k k' : string) (v : value) (o : Obj.t) :
  Obj.lookup k (Obj.set k' v o) = if k =? k' then Some v else Obj.lookup k o.
Proof.
  induction o as [|[j w] o IH]; cbn [Obj.set Obj.lookup].
  - destruct (k =? k'); reflexivity.
  - destruct (String.eqb_spec k' j) as [->|Hne]; cbn [Obj.lookup].
    + destruct (k =? j); reflexivity.
    + destruct (String.eqb_spec k j) as [->|Hkj].
      * destruct (String.eqb_spec j k'); [congruence | reflexivity].
      * exact IH.
Qed.

Lemma lookup_del (k k' : string) (o : Obj.t) (v : value) :
  Obj.lookup k (Obj.del k' o) = Some v -> Obj.lookup k o = Some v.
Proof.
  induction o as [|[j w] o IH]; cbn [Obj.del Obj.lookup]; [auto|].
  destruct (String.eqb_spec k' j) as [->|Hne]; cbn [Obj.lookup].
  - intros H. destruct (k =? j) eqn:E; [|auto].
    apply String.eqb_eq in E. subst k. clear IH.
    exfalso. revert H. induction o as [|[i u] o IHo]; cbn [Obj.del Obj.lookup];
      [discriminate|].
    destruct (String.eqb_spec j i) as [->|Hji]; cbn [Obj.lookup]; [exact IHo|].
    destruct (String.eqb_spec j i); [contradiction | exact IHo].
  - destruct (k =? j); auto.
Qed.

Lemma fresh_scalar (v : value) : is_object v = false -> fresh v.
Proof. intros H. left. exact H. Qed.

Lemma from_node_fresh (o : Obj.t) (v : value) : fresh v -> from_node o v.
Proof. intros H. left. exact H. Qed.

Lemma derived_refl (o : Obj.t) : derived o o.
Proof. intros k v H. right. exists k. exact H. Qed.

Lemma derived_set (o o' : Obj.t) (k : string) (v : value) :
  from_node o v -> derived o o' -> derived o (Obj.set k v o').
Proof.
  intros Hv Hd j w. rewrite lookup_set. destruct (j =? k); [intros [= <-]; exact Hv | apply Hd].
Qed.

Lemma derived_del (o o' : Obj.t) (k : string) :
  derived o o' -> derived o (Obj.del k o').
Proof. intros Hd j w H. apply lookup_del in H. eapply Hd, H. Qed.

Lemma from_node_get (o o' : Obj.t) (k : string) :
  derived o o' -> from_node o (Obj.get k o').
Proof.
  intros Hd. unfold Obj.get. destruct (Obj.lookup k o') eqn:E; cbn [default].
  - eapply Hd, E.
  - left. left. reflexivity.
Qed.

Lemma from_node_or_else (o : Obj.t) (a b : value) :
  from_node o a -> from_node o b -> from_node o (or_else a b).
Proof. intros Ha Hb. unfold or_else. destruct (truthy a); assumption. Qed.

Lemma extractPostalCodeV_scalar (text : string) (country z : value) :
  extractPostalCodeV text country = Ok z -> is_object z = false.
Proof.
  unfold extractPostalCodeV. destruct (text =? ""); [intros [= <-]; reflexivity|].
  destruct (toStr country) as [c| |]; cbn; try discriminate.
  destruct (extractPostalCode text c) as [[code|]| |]; cbn; try discriminate;
    intros [= <-]; reflexivity.
Qed.

Lemma detectPriceRangeV_scalar (city type name description p : value) :
  detectPriceRangeV city type name description = Ok p -> is_object p = false.
Proof.
  unfold detectPriceRangeV.
  destruct (as_string city); cbn; try discriminate.
  destruct (toStr type); cbn; try discriminate.
  destruct (str_or_empty name); cbn; try discriminate.
  destruct (str_or_empty description); cbn; try discriminate.
  destruct (detectPriceRange _ _ _ _); try discriminate; intros [= <-]; reflexivity.
Qed.

Lemma ensureAbsoluteUrlV_scalar (url v : value) :
  ensureAbsoluteUrlV url = Ok v -> is_object v = false.
Proof.
  unfold ensureAbsoluteUrlV. destruct (truthy url) eqn:T; cbn [negb].
  - destruct url; try discriminate. intros [= <-]. reflexivity.
  - intros [= <-]. destruct url; try reflexivity; discriminate T.
Qed.

Lemma mapR_scalars (urls mapped : list value) :
  mapR ensureAbsoluteUrlV urls = Ok mapped ->
  forallb (fun x => negb (is_object x)) mapped = true.
Proof.
  revert mapped. induction urls as [|u urls IH]; intros mapped; cbn [mapR].
  - intros [= <-]. reflexivity.
  - destruct (ensureAbsoluteUrlV u) as [v| |] eqn:E; cbn; try discriminate.
    destruct (mapR ensureAbsoluteUrlV urls) as [vs| |]; cbn; try discriminate.
    intros [= <-]. cbn. rewrite (ensureAbsoluteUrlV_scalar _ _ E). cbn. apply IH. reflexivity.
Qed.

Lemma filter_scalars (p : value -> bool) (l : list value) :
  forallb (fun x => negb (is_object x)) l = true ->
  forallb (fun x => negb (is_object x)) (List.filter p l) = true.
Proof.
  induction l as [|x l IH]; [reflexivity|]. cbn. intros H.
  apply andb_true_iff in H. destruct H as [Hx Hl].
  destruct (p x); cbn; [rewrite Hx|]; auto.
Qed.

(** *** The rules return derived nodes *)

Lemma yields_if (o : Obj.t) (c : bool) (a b : result (option Obj.t)) :
  yields_derived o a -> yields_derived o b -> yields_derived o (if c then a else b).
Proof. destruct c; auto. Qed.

Lemma gives_if (o : Obj.t) (c : bool) (a b : result Obj.t) :
  gives_derived o a -> gives_derived o b -> gives_derived o (if c then a else b).
Proof. destruct c; auto. Qed.

Lemma gives_ok (o o' : Obj.t) : derived o o' -> gives_derived o (Ok o').
Proof. intros H o'' [= <-]. exact H. Qed.

Lemma yields_keep (o o' : Obj.t) : derived o o' -> yields_derived o (keep_node o').
Proof. intros H o'' [= <-]. exact H. Qed.

Lemma yields_reject (o : Obj.t) : yields_derived o reject_node.
Proof. intros o' H. discriminate H. Qed.

Lemma yields_bind {A : Type} (o : Obj.t) (e : result A) (k : A -> result (option Obj.t)) :
  (forall a, e = Ok a -> yields_derived o (k a)) -> yields_derived o (e ≫= k).
Proof.
  intros H. destruct e; cbn; try (intros o' E; discriminate E). apply H. reflexivity.
Qed.

Lemma gives_bind {A : Type} (o : Obj.t) (e : result A) (k : A -> result Obj.t) :
  (forall a, e = Ok a -> gives_derived o (k a)) -> gives_derived o (e ≫= k).
Proof.
  intros H. destruct e; cbn; try (intros o' E; discriminate E). apply H. reflexivity.
Qed.

Lemma yields_bind_node (o : Obj.t) (e : result Obj.t) (k : Obj.t -> result (option Obj.t)) :
  gives_derived o e -> (forall o1, derived o o1 -> yields_derived o (k o1)) ->
  yields_derived o (e ≫= k).
Proof.
  intros He Hk. destruct e as [o1| |]; cbn; try (intros o' E; discriminate E).
  apply Hk, He. reflexivity.
Qed.

Lemma gives_update_string (o o' : Obj.t) (k : string) (f : string -> string) :
  derived o o' -> gives_derived o (update_string k f o').
Proof.
  intros Hd. unfold update_string. apply gives_if; [|apply gives_ok, Hd].
  apply gives_bind. intros s _. apply gives_ok, derived_set; [|exact Hd].
  left. left. reflexivity.
Qed.

Local Ltac scalar_value :=
  first
    [ apply from_node_fresh, fresh_scalar; reflexivity
    | apply from_node_fresh, fresh_scalar; eapply extractPostalCodeV_scalar; eassumption
    | apply from_node_fresh, fresh_scalar; eapply detectPriceRangeV_scalar; eassumption
    | apply from_node_fresh; right; left; reflexivity
    | apply from_node_or_else;
        [apply from_node_get; assumption | apply from_node_fresh, fresh_scalar; reflexivity] ].

Local Ltac derive :=
  repeat match goal with
         | |- yields_derived _ (if _ then _ else _) => apply yields_if
         | |- gives_derived _ (if _ then _ else _) => apply gives_if
         | |- yields_derived _ (keep_node _) => apply yields_keep
         | |- yields_derived _ reject_node => apply yields_reject
         | |- gives_derived _ (Ok _) => apply gives_ok
         | |- gives_derived _ (update_string _ _ _) => apply gives_update_string
         | |- yields_derived _ (mbind _ (update_string _ _ _)) =>
             apply yields_bind_node; [|intros ? ?]
         | |- yields_derived _ (mbind _ (if _ then _ else _)) =>
             apply yields_bind_node; [|intros ? ?]
         | |- yields_derived _ (mbind _ (match _ with VArr _ => _ | _ => _ end)) =>
             apply yields_bind_node; [|intros ? ?]
         | |- yields_derived _ (mbind _ _) => apply yields_bind; intros ? ?
         | |- gives_derived _ (mbind _ _) => apply gives_bind; intros ? ?
         | |- derived _ (if ?c then _ else _) => destruct c
         | |- derived _ (Obj.set _ _ _) => apply derived_set; [scalar_value|]
         | |- derived _ (Obj.del _ _) => apply derived_del
         | |- derived _ _ => assumption
         end.

Lemma yields_question o0 o : derived o0 o -> yields_derived o0 (questionRule o).
Proof. intros Hd. unfold questionRule. derive. Qed.

Lemma yields_openingHours o0 o : derived o0 o -> yields_derived o0 (openingHoursRule o).
Proof. intros Hd. unfold openingHoursRule. derive. Qed.

Lemma yields_geo o0 o : derived o0 o -> yields_derived o0 (geoRule o).
Proof. intros Hd. unfold geoRule. cbv zeta. derive. Qed.

Lemma yields_rating o0 o : derived o0 o -> yields_derived o0 (ratingRule o).
Proof. intros Hd. unfold ratingRule. cbv zeta. derive. Qed.

Lemma yields_address o0 o : derived o0 o -> yields_derived o0 (addressRule o).
Proof.
  intros Hd. unfold addressRule. cbv zeta. derive.
  destruct (inferStateFromCity _); [derive | intros ? E; discriminate E | derive].
Qed.

Lemma yields_image o0 o : derived o0 o -> yields_derived o0 (imageRule o).
Proof. intros Hd. unfold imageRule. derive. Qed.

Lemma yields_webPage o0 o : derived o0 o -> yields_derived o0 (webPageRule o).
Proof. intros Hd. unfold webPageRule. derive. Qed.

Lemma yields_business o0 o :
  derived o0 o -> yields_derived o0 (businessRule URL_parses o).
Proof.
  intros Hd. unfold businessRule. derive.
  destruct (Obj.get "sameAs" _); derive.
  apply derived_set; [|assumption].
  apply from_node_fresh. right. right. eexists. split; [reflexivity|].
  apply filter_scalars. eapply mapR_scalars. eassumption.
Qed.

Lemma yields_when_type o0 name (body : rule) o :
  (forall o1, derived o0 o1 -> yields_derived o0 (body o1)) ->
  derived o0 o -> yields_derived o0 (when_type name body o).
Proof.
  intros Hb Hd. unfold when_type.
  destruct (Obj.get "@type" o); try (apply yields_keep, Hd).
  destruct (s =? name); [apply Hb, Hd | apply yields_keep, Hd].
Qed.

Lemma yields_and_then o0 (a b : rule) o :
  (forall o1, derived o0 o1 -> yields_derived o0 (a o1)) ->
  (forall o1, derived o0 o1 -> yields_derived o0 (b o1)) ->
  derived o0 o -> yields_derived o0 (and_then a b o).
Proof.
  intros Ha Hb Hd. unfold and_then. specialize (Ha o Hd).
  destruct (a o) as [[o1|]| |]; cbn; try (intros o' E; discriminate E).
  apply Hb, Ha. reflexivity.
Qed.

(** The fields of a repaired node are fresh or fields of the node. *)
Lemma typeRules_derived (o o' : Obj.t) :
  typeRules URL_parses o = Ok (Some o') -> derived o o'.
Proof.
  assert (yields_derived o (typeRules URL_parses o)) as H; [|exact (H o')].
  unfold typeRules. apply yields_if; [|apply yields_keep, derived_refl].
  assert (forall name (body : rule),
            (forall o1, derived o o1 -> yields_derived o (body o1)) ->
            forall o1, derived o o1 -> yields_derived o (when_type name body o1)) as Hw
    by (intros name body Hb o1 H1; apply yields_when_type; assumption).
  apply yields_and_then;
    [apply Hw; intros; apply yields_question; assumption | | apply derived_refl].
  intros o1 H1. apply yields_and_then;
    [apply Hw; intros; apply yields_openingHours; assumption | | exact H1].
  intros o2 H2. apply yields_and_then;
    [apply Hw; intros; apply yields_geo; assumption | | exact H2].
  intros o3 H3. apply yields_and_then;
    [apply Hw; intros; apply yields_rating; assumption | | exact H3].
  intros o4 H4. apply yields_and_then;
    [apply Hw; intros; apply yields_address; assumption | | exact H4].
  intros o5 H5. apply yields_and_then;
    [apply Hw; intros; apply yields_image; assumption | | exact H5].
  intros o6 H6. apply yields_and_then;
    [intros; apply yields_business; assumption | | exact H6].
  apply Hw. intros. apply yields_webPage. assumption.
Qed.

(** *** Depth *)

Lemma depth_item (x : value) (l : list value) : In x l -> (depth x < depth (VArr l))%nat.
Proof.
  cbn [depth]. induction l as [|y l IH]; [intros []|]. cbn [In fold_right].
  intros [<-|H]; [lia|]. specialize (IH H). lia.
Qed.

Lemma depth_field (k : string) (v : value) (o : Obj.t) :
  Obj.lookup k o = Some v -> (depth v < depth (VObj o))%nat.
Proof.
  cbn [depth]. induction o as [|[j w] o IH]; [discriminate|]. cbn [Obj.lookup fold_right snd].
  destruct (k =? j); [intros [= <-]; lia|]. intros H. specialize (IH H). lia.
Qed.

Lemma depth_scalar (v : value) : depth v = 0%nat -> is_object v = false.
Proof. destruct v; cbn; try reflexivity; discriminate. Qed.

(** *** Enough fuel *)

Lemma next_some {A B : Type} (m : option (result A)) (k : A -> option (result B)) :
  is_Some m -> (forall a, is_Some (k a)) -> is_Some (next m k).
Proof. intros [[a| |] ->] Hk; cbn; eauto. Qed.

Lemma mapF_some {A B : Type} (f : A -> option (result B)) (l : list A) :
  (forall x, In x l -> is_Some (f x)) -> is_Some (mapF f l).
Proof.
  induction l as [|x l IH]; intros H; cbn [mapF]; [eauto|].
  apply next_some; [apply H; left; reflexivity|]. intros y.
  apply next_some; [apply IH; intros z Hz; apply H; right; exact Hz | eauto].
Qed.

Lemma fold_keep_field_some (f : value -> option (result value)) (o' : Obj.t) :
  (forall key, is_Some (f (Obj.get key o'))) ->
  forall keys racc, is_Some racc -> is_Some (fold_left (keep_field f o') keys racc).
Proof.
  intros Hf keys. induction keys as [|key keys IH]; intros racc Hacc; cbn [fold_left];
    [exact Hacc|].
  apply IH. unfold keep_field. apply next_some; [exact Hacc|]. intros acc.
  apply next_some; [apply Hf | eauto].
Qed.

Lemma cleanObject_fuel_scalar (n : nat) (v : value) :
  is_object v = false -> cleanObject_fuel URL_parses (S n) v = Some (Ok v).
Proof. destruct v; cbn; intros H; try reflexivity; discriminate H. Qed.

Lemma mapF_scalars (f : value -> option (result value)) (l : list value) :
  (forall x, is_object x = false -> f x = Some (Ok x)) ->
  forallb (fun x => negb (is_object x)) l = true -> mapF f l = Some (Ok l).
Proof.
  intros Hf. induction l as [|x l IH]; [reflexivity|]. cbn [forallb mapF].
  intros H. apply andb_true_iff in H. destruct H as [Hx Hl].
  rewrite Hf by (destruct (is_object x); [discriminate Hx | reflexivity]).
  cbn [next]. rewrite (IH Hl). reflexivity.
Qed.

(** A fresh value is cleaned with any fuel. *)
Lemma cleanObject_fuel_fresh (n : nat) (v : value) :
  fresh v -> is_Some (cleanObject_fuel URL_parses (S n) v).
Proof.
  intros [H|[->|(l & -> & H)]].
  - rewrite cleanObject_fuel_scalar by exact H. eauto.
  - cbn. eauto.
  - cbn [cleanObject_fuel]. cbv zeta. rewrite mapF_scalars; [cbn; eauto| |exact H].
    intros x Hx. rewrite Hx. reflexivity.
Qed.

(** The recursion of [cleanObject] stays within a bound one above the
    depth of the document. *)
Lemma cleanObject_fuel_enough (n : nat) :
  forall v, (depth v <= n)%nat -> is_Some (cleanObject_fuel URL_parses (S n) v).
Proof.
  induction n as [|n IH]; intros v Hd.
  - rewrite cleanObject_fuel_scalar; [eauto|]. apply depth_scalar. lia.
  - destruct v as [| | | | |items|o]; try (cbn; eauto; fail).
    + cbn [cleanObject_fuel]. cbv zeta. apply next_some; [|eauto].
      apply mapF_some. intros x Hx. destruct (is_object x); [|eauto].
      apply IH. pose proof (depth_item x items Hx). lia.
    + cbn [cleanObject_fuel]. cbv zeta.
      destruct (typeRules URL_parses o) as [[o'|]| |] eqn:E; [|eauto..].
      apply next_some; [|eauto].
      apply fold_keep_field_some; [|eauto]. intros key.
      destruct (is_object (Obj.get key o')) eqn:Hobj; [|eauto].
      destruct (from_node_get o o' key (typeRules_derived o o' E)) as [Hfresh|(k & Hk)].
      * apply cleanObject_fuel_fresh, Hfresh.
      * apply IH. pose proof (depth_field k _ o Hk). lia.
Qed.

(** [cleanObject] is the outcome of the bounded recursion. *)
Lemma cleanObject_total (v : value) :
  cleanObject_fuel URL_parses (2 + depth v) v = Some (cleanObject URL_parses v).
Proof.
  unfold cleanObject.
  destruct (cleanObject_fuel_enough (S (depth v)) v) as [r Hr]; [lia|].
  change (2 + depth v)%nat with (S (S (depth v))). rewrite Hr. reflexivity.
Qed.

End Termination.

(** * Further properties of the code *)

(** ** The matcher against the declarative reading of a pattern *)

Section MatcherSemantics.

Lemma all_chars_app (p : ascii -> bool) (a b : string) :
  all_chars p (a ++ b) = all_chars p a && all_chars p b.
Proof.
  induction a as [|c a IH]; [reflexivity|].
  change (String c a ++ b) with (String c (a ++ b)).
  cbn [all_chars]. rewrite IH. apply andb_assoc.
Qed.

(** Greedy repetition succeeds exactly when some admissible run of the
    class is followed by a success of the continuation. *)
Lemma rep_spec {A : Type} (p : ascii -> bool) (lo : nat) (hi : option nat)
    (k : mstate -> option A) (caps : list (nat * string)) :
  forall s n prev,
    (forall h, hi = Some h -> (n <= h)%nat) ->
    is_Some (rep p lo hi n prev s caps k) <->
    exists a s', s = a ++ s' /\ all_chars p a = true /\ (lo <= n + String.length a)%nat /\
                 (forall h, hi = Some h -> (n + String.length a <= h)%nat) /\
                 is_Some (k (MState (prev_after prev a) s' caps)).
Proof.
  induction s as [|c s IH]; intros n prev Hn.
  - cbn [rep]. split.
    + intros H. destruct (lo <=? n)%nat eqn:E; [|destruct H; discriminate].
      exists "", "". apply Nat.leb_le in E. cbn [String.length]. rewrite Nat.add_0_r.
      repeat split; auto.
    + intros (a & s' & Hs & _ & Hlo & _ & Hk).
      destruct a; [|discriminate Hs]. change ("" ++ s') with s' in Hs. subst s'.
      cbn [String.length] in Hlo. rewrite Nat.add_0_r in Hlo.
      apply Nat.leb_le in Hlo. rewrite Hlo. exact Hk.
  - cbn [rep]. split.
    + intros H.
      assert (Hstop : is_Some (if (lo <=? n)%nat then k (MState prev (String c s) caps)
                               else None) ->
              exists a s', String c s = a ++ s' /\ all_chars p a = true /\
                (lo <= n + String.length a)%nat /\
                (forall h, hi = Some h -> (n + String.length a <= h)%nat) /\
                is_Some (k (MState (prev_after prev a) s' caps))).
      { intros H'. destruct (lo <=? n)%nat eqn:E; [|destruct H'; discriminate].
        exists "", (String c s). apply Nat.leb_le in E. cbn [String.length].
        rewrite Nat.add_0_r. repeat split; auto. }
      destruct (p c && below n hi) eqn:Hc; [|auto].
      destruct (rep p lo hi (S n) (Some c) s caps k) as [x|] eqn:Hr; [|auto].
      apply andb_true_iff in Hc. destruct Hc as [Hp Hb].
      assert (Hn' : forall h, hi = Some h -> (S n <= h)%nat).
      { intros h ->. cbn [below] in Hb. apply Nat.ltb_lt in Hb. lia. }
      destruct (proj1 (IH (S n) (Some c) Hn')) as (a & s' & Hs & Ha & Hlo & Hhi & Hk).
      { rewrite Hr. eauto. }
      exists (String c a), s'. subst s.
      repeat split.
      * cbn [all_chars]. rewrite Hp, Ha. reflexivity.
      * cbn [String.length]. lia.
      * intros h Hh. specialize (Hhi h Hh). cbn [String.length]. lia.
      * rewrite prev_after_cons. exact Hk.
    + intros (a & s' & Hs & Ha & Hlo & Hhi & Hk).
      destruct a as [|c' a'].
      * change ("" ++ s') with s' in Hs. subst s'.
        cbn [String.length] in Hlo. rewrite Nat.add_0_r in Hlo.
        apply Nat.leb_le in Hlo. rewrite Hlo. rewrite prev_after_nil in Hk.
        destruct (p c && below n hi); [|exact Hk].
        destruct (rep p lo hi (S n) (Some c) s caps k); [eauto|exact Hk].
      * change (String c' a' ++ s') with (String c' (a' ++ s')) in Hs.
        injection Hs as <- ->. cbn [all_chars] in Ha.
        apply andb_true_iff in Ha. destruct Ha as [Hp Ha].
        assert (Hb : below n hi = true).
        { destruct hi as [h|]; [|reflexivity]. cbn [below]. apply Nat.ltb_lt.
          specialize (Hhi h eq_refl). cbn [String.length] in Hhi. lia. }
        rewrite Hp, Hb. cbn [andb].
        assert (Hn' : forall h, hi = Some h -> (S n <= h)%nat).
        { intros h Hh. specialize (Hhi h Hh). cbn [String.length] in Hhi. lia. }
        destruct (proj2 (IH (S n) (Some c) Hn')) as [x Hx].
        { exists a', s'. repeat split; auto.
          - cbn [String.length] in Hlo. lia.
          - intros h Hh. specialize (Hhi h Hh). cbn [String.length] in Hhi. lia.
          - rewrite prev_after_cons in Hk. exact Hk. }
        rewrite Hx. eauto.
Qed.

Lemma blind_always {A : Type} (k : mstate -> option A) :
  (forall st, is_Some (k st)) -> blind k.
Proof. intros H p s c c' _. apply H. Qed.

(** The matcher succeeds exactly when the pattern matches, in the
    declarative reading, down to a success of the continuation. *)
Lemma rmatch_spec {A : Type} (r : regex) :
  forall (k : mstate -> option A), blind k ->
  forall p s c,
    is_Some (rmatch r (MState p s c) k) <->
    exists p' s', matches r p s p' s' /\ is_Some (k (MState p' s' c)).
Proof.
  induction r as [q|q lo hi| |a IHa b IHb|a IHa b IHb|i a IHa| | |];
    intros k Hk p s c; cbn [rmatch matches m_prev m_rest m_caps].
  - destruct s as [|c0 s].
    + split; [intros [? H]; discriminate H|].
      intros (p' & s' & (c1 & Hs & _) & _). discriminate Hs.
    + split.
      * destruct (q c0) eqn:Hq; [|intros [? H]; discriminate H].
        intros H. exists (Some c0), s. split; [|exact H]. exists c0. auto.
      * intros (p' & s' & (c1 & Hs & Hq & ->) & H). injection Hs as <- <-.
        rewrite Hq. exact H.
  - rewrite rep_spec by (intros; lia). split.
    + intros (a & s' & Hs & Ha & Hlo & Hhi & H).
      exists (prev_after p a), s'. split; [|exact H].
      exists a. repeat split; auto.
    + intros (p' & s' & (a & Hs & Ha & Hlo & Hhi & ->) & H).
      exists a, s'. repeat split; auto.
  - split.
    + intros H. exists p, s. auto.
    + intros (p' & s' & (-> & ->) & H). exact H.
  - assert (Hb : blind (fun st' => rmatch b st' k)).
    { intros p0 s0 c0 c0' H. apply (IHb k Hk). apply (IHb k Hk) in H.
      destruct H as (p' & s' & Hm & H). exists p', s'. split; [exact Hm|].
      apply (Hk _ _ c0). exact H. }
    rewrite (IHa _ Hb). split.
    + intros (q & t & Ha & H). apply (IHb k Hk) in H.
      destruct H as (p' & s' & Hm & H). exists p', s'. split; [|exact H].
      exists q, t. auto.
    + intros (p' & s' & (q & t & Ha & Hm) & H). exists q, t. split; [exact Ha|].
      apply (IHb k Hk). exists p', s'. auto.
  - specialize (IHa k Hk p s c). specialize (IHb k Hk p s c).
    destruct (rmatch a (MState p s c) k) as [x|] eqn:Ea.
    + split; [|eauto]. intros _.
      destruct (proj1 IHa) as (p' & s' & Hm & H); [eauto|].
      exists p', s'. auto.
    + split.
      * intros H. destruct (proj1 IHb H) as (p' & s' & Hm & H').
        exists p', s'. auto.
      * intros (p' & s' & [Hm|Hm] & H).
        -- destruct (proj2 IHa) as [x Hx]; [exists p', s'; auto|]. discriminate Hx.
        -- apply IHb. exists p', s'. auto.
  - set (k' := fun st' : mstate =>
                 k (MState (m_prev st') (m_rest st')
                      ((i, consumed s (m_rest st')) :: m_caps st'))).
    assert (Hb : blind k').
    { intros p0 s0 c0 c0' H. unfold k' in *. cbn [m_prev m_rest m_caps] in *.
      apply (Hk _ _ _ _ H). }
    rewrite (IHa k' Hb). unfold k'. cbn [m_prev m_rest m_caps].
    split; intros (p' & s' & Hm & H); exists p', s'; (split; [exact Hm|]);
      apply (Hk _ _ _ _ H).
  - unfold word_before, word_after. cbn [m_prev m_rest].
    destruct (xorb _ _) eqn:Hx.
    + split; [intros H; exists p, s; auto|].
      intros (p' & s' & (-> & -> & _) & H). exact H.
    + split; [intros [? H]; discriminate H|].
      intros (p' & s' & (_ & _ & Hf) & _). discriminate Hf.
  - destruct p as [c0|].
    + split; [intros [? H]; discriminate H|].
      intros (p' & s' & (_ & _ & Hf) & _). discriminate Hf.
    + split; [intros H; exists None, s; auto|].
      intros (p' & s' & (-> & -> & _) & H). exact H.
  - destruct s as [|c0 s].
    + split; [intros H; exists p, ""; auto|].
      intros (p' & s' & (-> & -> & _) & H). exact H.
    + split; [intros [? H]; discriminate H|].
      intros (p' & s' & (_ & _ & Hf) & _). discriminate Hf.
Qed.

(** [r.test(s)]: the pattern matches somewhere in the string. *)
Lemma test_matches (r : regex) (s : string) :
  test r s = true <->
  exists pre post p' s', s = pre ++ post /\ matches r (last_char pre) post p' s'.
Proof.
  rewrite test_occurs. unfold occurs_in, match_here. split.
  - intros (pre & post & Hs & H).
    apply rmatch_spec in H; [|apply blind_always; eauto].
    destruct H as (p' & s' & Hm & _). exists pre, post, p', s'. auto.
  - intros (pre & post & p' & s' & Hs & Hm). exists pre, post. split; [exact Hs|].
    apply rmatch_spec; [apply blind_always; eauto|]. exists p', s'. eauto.
Qed.

End MatcherSemantics.

(** ** Times, addresses and numbers: the helpers of [utils.ts] *)

Lemma all_below_spec (n : nat) (p : nat -> bool) :
  all_below n p = true -> forall i, (i < n)%nat -> p i = true.
Proof.
  unfold all_below. rewrite forallb_forall. intros H i Hi. apply H, in_seq. lia.
Qed.

Lemma last_char_none (s : string) : last_char s = None -> s = "".
Proof.
  destruct s as [|c s]; [reflexivity|]. intros H.
  destruct (last_char_cons c s) as [x Hx]. congruence.
Qed.

(** A character of a digit range is the digit of its value. *)
Lemma in_range_digit (lo hi : nat) (c : ascii) :
  (48 <= lo)%nat -> in_range lo hi c = true ->
  String c "" = digit (code c - 48) /\ (lo <= code c <= hi)%nat.
Proof.
  unfold in_range, digit, code. intros Hlo H.
  apply andb_true_iff in H. destruct H as [H1 H2].
  apply Nat.leb_le in H1. apply Nat.leb_le in H2. split; [|lia].
  replace (48 + (nat_of_ascii c - 48))%nat with (nat_of_ascii c) by lia.
  rewrite ascii_nat_embedding. reflexivity.
Qed.

Lemma two_digits_split (a b : nat) :
  (b < 10)%nat -> two_digits (10 * a + b) = digit a ++ digit b.
Proof.
  intros Hb. unfold two_digits.
  replace ((10 * a + b) / 10)%nat with a
    by (apply (Nat.div_unique _ 10 a b); lia).
  replace ((10 * a + b) mod 10)%nat with b
    by (apply (Nat.mod_unique _ 10 a b); lia).
  reflexivity.
Qed.

Lemma timeRegex_accepts_clock :
  all_below 24 (fun h => all_below 60 (fun m =>
    test timeRegex (clock h m) &&
    ((10 <=? h)%nat || test timeRegex (clock_short h m)))) = true.
Proof. vm_compute. reflexivity. Qed.

(** The pattern of [isValidTimeFormat] takes the times of the 24-hour day
    and nothing else. *)
Lemma timeRegex_spec (t : string) : test timeRegex t = true <-> is_clock24 t.
Proof.
  split.
  - intros H. apply test_matches in H.
    destruct H as (pre & post & p' & s' & Hs & Hm).
    unfold timeRegex in Hm. cbn [seq matches] in Hm.
    destruct Hm as (q0 & t0 & (-> & -> & Hpre) & q1 & t1 & Hhour & q2 & t2 & Hcolon
                    & q3 & t3 & Hm1 & q4 & t4 & Hm2 & _ & _ & Hend).
    apply last_char_none in Hpre. subst pre. change ("" ++ post) with post in Hs.
    subst t t4.
    destruct Hm2 as (m2 & -> & Hm2 & _). destruct Hm1 as (m1 & -> & Hm1 & _).
    destruct Hcolon as (c & -> & Hc & _).
    apply Ascii.eqb_eq in Hc. subst c.
    apply in_range_digit in Hm1; [|lia]. apply in_range_digit in Hm2; [|lia].
    destruct Hm1 as [Em1 Rm1]. destruct Hm2 as [Em2 Rm2].
    assert (Hmin : String m1 (String m2 "")
                   = two_digits (10 * (code m1 - 48) + (code m2 - 48))).
    { rewrite two_digits_split by lia. rewrite <- Em1, <- Em2. reflexivity. }
    destruct Hhour as [(q & u & (a & -> & Ha & _ & Hhi & _) & (d & -> & Hd & _))
                      |(q & u & (c2 & -> & Hc2 & _) & (d & -> & Hd & _))].
    + specialize (Hhi 1%nat eq_refl).
      apply in_range_digit in Hd; [|lia]. destruct Hd as [Ed Rd].
      destruct a as [|c0 [|c1 a]]; [| |cbn [String.length] in Hhi; lia].
      * exists (code d - 48)%nat, (10 * (code m1 - 48) + (code m2 - 48))%nat.
        split; [lia|]. split; [lia|]. right. split; [lia|].
        unfold clock_short. rewrite <- Ed, <- Hmin. reflexivity.
      * cbn [all_chars] in Ha. rewrite andb_true_r in Ha.
        apply in_range_digit in Ha; [|lia]. destruct Ha as [E0 R0].
        exists (10 * (code c0 - 48) + (code d - 48))%nat,
               (10 * (code m1 - 48) + (code m2 - 48))%nat.
        split; [lia|]. split; [lia|]. left.
        unfold clock. rewrite two_digits_split by lia.
        rewrite <- E0, <- Ed, <- Hmin. reflexivity.
    + apply Ascii.eqb_eq in Hc2. subst c2.
      apply in_range_digit in Hd; [|lia]. destruct Hd as [Ed Rd].
      exists (10 * 2 + (code d - 48))%nat, (10 * (code m1 - 48) + (code m2 - 48))%nat.
      split; [lia|]. split; [lia|]. left.
      unfold clock. rewrite two_digits_split by lia.
      rewrite <- Ed, <- Hmin. reflexivity.
  - intros (h & m & Hh & Hm & Ht).
    pose proof (all_below_spec _ _ timeRegex_accepts_clock h Hh) as H.
    cbv beta in H. pose proof (all_below_spec _ _ H m Hm) as H'.
    cbv beta in H'. apply andb_true_iff in H'. destruct H' as [H1 H2].
    destruct Ht as [->|[Hh' ->]]; [exact H1|].
    apply orb_true_iff in H2. destruct H2 as [H2|H2]; [|exact H2].
    apply Nat.leb_le in H2. lia.
Qed.

Lemma isValidTimeFormat_spec (time : string) :
  isValidTimeFormat time = true <-> is_clock24 (trim time).
Proof.
  unfold isValidTimeFormat. destruct (String.eqb_spec time "") as [->|Hne].
  - split; [discriminate|].
    intros (h & m & _ & _ & [H|[_ H]]); vm_compute in H; discriminate H.
  - apply timeRegex_spec.
Qed.

(** X1: [isValidTimeFormat] accepts an ASCII text exactly when, trimmed,
    it is a time of the 24-hour day written ["HH:MM"] or, before ten
    o'clock, ["H:MM"]: the hour from 0 to 23, the minutes from 00 to 59. *)
Theorem isValidTimeFormat_clock24 (time : string) :
  ascii_only time = true ->
  (isValidTimeFormat time = true <-> is_clock24 (trim time)).
Proof. intros _. apply isValidTimeFormat_spec. Qed.

Lemma length_pos (s : string) : s <> "" <-> (1 <= String.length s)%nat.
Proof.
  destruct s; cbn [String.length]; split; intros H; try congruence; try lia.
Qed.

Lemma append_empty (s : string) : s ++ "" = s.
Proof.
  induction s as [|c s IH]; [reflexivity|].
  change (String c s ++ "") with (String c (s ++ "")). congruence.
Qed.

(** X2: among the ASCII texts, [isValidEmail] accepts exactly the texts
    [local@domain.tld] whose three parts are not empty and hold neither
    white space nor an at sign (the domain and the ending may hold further
    dots). *)
Theorem isValidEmail_shape (email : string) :
  ascii_only email = true ->
  (isValidEmail email = true <->
   exists l d t, email = l ++ "@" ++ d ++ "." ++ t /\
                 email_part l /\ email_part d /\ email_part t).
Proof.
  intros _. unfold isValidEmail. rewrite test_matches. unfold emailRegex, plus, email_part.
  cbn [seq matches]. split.
  - intros (pre & post & p' & s' & Hs & q0 & t0 & (-> & -> & Hpre)
            & q1 & t1 & (l & -> & Hl & Hl1 & _) & q2 & t2 & (c1 & -> & Hc1 & _)
            & q3 & t3 & (d & -> & Hd & Hd1 & _) & q4 & t4 & (c2 & -> & Hc2 & _)
            & q5 & t5 & (t & -> & Ht & Ht1 & _) & _ & -> & ->).
    apply last_char_none in Hpre. subst pre.
    apply Ascii.eqb_eq in Hc1, Hc2. subst c1 c2.
    exists l, d, t. rewrite !length_pos.
    split; [|auto]. subst email.
    rewrite append_empty. reflexivity.
  - intros (l & d & t & -> & [Hl1 Hl] & [Hd1 Hd] & [Ht1 Ht]).
    apply length_pos in Hl1, Hd1, Ht1.
    exists "", (l ++ "@" ++ d ++ "." ++ t), (prev_after (Some "."%char) t), "".
    split; [reflexivity|].
    exists None, (l ++ "@" ++ d ++ "." ++ t). split; [auto|].
    exists (prev_after None l), ("@" ++ d ++ "." ++ t). split.
    { exists l. repeat split; auto. discriminate. }
    exists (Some "@"%char), (d ++ "." ++ t). split.
    { exists "@"%char. repeat split; auto. }
    exists (prev_after (Some "@"%char) d), ("." ++ t). split.
    { exists d. repeat split; auto. discriminate. }
    exists (Some "."%char), t. split.
    { exists "."%char. repeat split; auto. }
    exists (prev_after (Some "."%char) t), "". split.
    { exists t. repeat split; auto.
      - symmetry. apply append_empty.
      - discriminate. }
    auto.
Qed.

(** ** White space and trimming *)

Lemma trimStart_idem (s : string) : trimStart (trimStart s) = trimStart s.
Proof.
  induction s as [|c s IH]; [reflexivity|]. cbn [trimStart].
  destruct (is_space c) eqn:E; [exact IH|]. cbn [trimStart]. rewrite E. reflexivity.
Qed.

Lemma trimEnd_idem (s : string) : trimEnd (trimEnd s) = trimEnd s.
Proof.
  induction s as [|c s IH]; [reflexivity|]. cbn [trimEnd].
  destruct (trimEnd s) as [|c' t] eqn:E.
  - destruct (is_space c) eqn:Ec; [reflexivity|]. cbn [trimEnd]. rewrite Ec. reflexivity.
  - change (trimEnd (String c (String c' t))
            = String c (String c' t)).
    cbn [trimEnd] in IH |- *. 
    destruct (trimEnd t) as [|c'' t'] eqn:E'.
    + destruct (is_space c'); [discriminate IH|]. congruence.
    + congruence.
Qed.

(** Trimming the end of a text that does not begin with white space
    leaves its beginning in place. *)
Lemma trimStart_trimEnd (s : string) :
  trimStart s = s -> trimStart (trimEnd s) = trimEnd s.
Proof.
  destruct s as [|c s]; [reflexivity|]. cbn [trimStart]. intros H.
  destruct (is_space c) eqn:E.
  - exfalso. assert (Hlen : forall t, (String.length (trimStart t) <= String.length t)%nat).
    { induction t as [|c0 t IHt]; [reflexivity|]. cbn [trimStart].
      destruct (is_space c0); cbn [String.length]; lia. }
    specialize (Hlen s). rewrite H in Hlen. cbn [String.length] in Hlen. lia.
  - cbn [trimEnd]. destruct (trimEnd s); [rewrite E|]; cbn [trimStart]; rewrite E;
      reflexivity.
Qed.

Lemma trim_idem (s : string) : trim (trim s) = trim s.
Proof.
  unfold trim. rewrite (trimStart_trimEnd (trimStart s)) by apply trimStart_idem.
  apply trimEnd_idem.
Qed.

(** Trimming removes white space only: the characters of a class without
    white space are all kept. *)
Lemma keep_trim (p : ascii -> bool) (s : string) :
  (forall c, is_space c = true -> p c = false) -> keep p (trim s) = keep p s.
Proof.
  intros Hp. unfold trim.
  assert (Hend : forall t, keep p (trimEnd t) = keep p t).
  { induction t as [|c t IH]; [reflexivity|]. cbn [trimEnd keep].
    destruct (trimEnd t) as [|c' t'] eqn:E.
    - cbn [keep] in IH. rewrite <- IH.
      destruct (is_space c) eqn:Ec; [rewrite (Hp c Ec); reflexivity|]. reflexivity.
    - cbn [keep]. cbn [keep] in IH. rewrite IH. reflexivity. }
  rewrite Hend. induction s as [|c s IH]; [reflexivity|]. cbn [trimStart keep].
  destruct (is_space c) eqn:Ec; [rewrite (Hp c Ec); exact IH|]. reflexivity.
Qed.

Lemma digit_not_space (c : ascii) : is_space c = true -> is_digit c = false.
Proof.
  unfold is_space, is_digit, in_range. intros H.
  destruct (48 <=? code c)%nat eqn:E1; [|reflexivity].
  destruct (code c <=? 57)%nat eqn:E2; [|reflexivity].
  apply Nat.leb_le in E1. apply Nat.leb_le in E2.
  apply orb_true_iff in H. destruct H as [H|H].
  - apply andb_true_iff in H. destruct H as [_ H]. apply Nat.leb_le in H. lia.
  - apply Nat.eqb_eq in H. lia.
Qed.

Lemma trimEnd_fixed (s : string) (c : ascii) :
  last_char s = Some c -> is_space c = false -> trimEnd s = s.
Proof.
  intros Hl Hc. induction s as [|c0 s IH]; [reflexivity|].
  cbn [trimEnd]. destruct s as [|c1 s].
  - cbn [last_char] in Hl. injection Hl as ->. cbn [trimEnd]. rewrite Hc. reflexivity.
  - rewrite IH by exact Hl. reflexivity.
Qed.

Lemma trim_fixed (c0 c : ascii) (s : string) :
  is_space c0 = false -> last_char (String c0 s) = Some c -> is_space c = false ->
  trim (String c0 s) = String c0 s.
Proof.
  intros H0 Hl Hc. unfold trim. cbn [trimStart]. rewrite H0.
  apply (trimEnd_fixed _ c Hl Hc).
Qed.

Lemma digit_is_not_space (c : ascii) : is_digit c = true -> is_space c = false.
Proof.
  intros H. destruct (is_space c) eqn:E; [|reflexivity].
  rewrite (digit_not_space c E) in H. discriminate H.
Qed.

(** ** Phone numbers, once more *)

Lemma keep_take (c : ascii) (s : string) :
  is_digit c = true -> keep is_digit (String c s) = String c (keep is_digit s).
Proof. intros H. cbn [keep]. rewrite H. reflexivity. Qed.

Lemma keep_skip (c : ascii) (s : string) :
  is_digit c = false -> keep is_digit (String c s) = keep is_digit s.
Proof. intros H. cbn [keep]. rewrite H. reflexivity. Qed.

Local Ltac chars_known H :=
  match type of H with
  | String.length ?d = _ =>
      do 12 (try (destruct d as [|? d]; cbn [String.length] in H;
                  [try discriminate H|]; try discriminate H))
  end.

Local Ltac all_digits Hall :=
  cbn [all_chars] in Hall;
  repeat (let H := fresh "Hdigit" in
          apply andb_true_iff in Hall; destruct Hall as [H Hall]).

Local Ltac first_char H :=
  cbn [startsWith String.prefix] in H;
  repeat match type of H with
         | context [ascii_dec ?a ?b] => destruct (ascii_dec a b); [subst|discriminate H]
         end.

Local Ltac digits_again :=
  cbv [slice sliceFrom take String.append Nat.sub];
  unfold formatPhoneNumber;
  match goal with
  | |- context [String.eqb ?s ""] => change (String.eqb s "") with false
  end;
  cbv iota;
  repeat first [rewrite keep_take by (assumption || reflexivity)
               |rewrite keep_skip by reflexivity];
  cbn [keep String.length Nat.eqb Nat.leb andb orb startsWith String.prefix].

(** The groupings of [formatPhoneNumber] are returned as they are when
    formatted again. *)
Lemma formatPhoneNumber_grouped (digits : string) :
  all_chars is_digit digits = true ->
  let len := String.length digits in
  (len = 10%nat ->
   let g := "+1-" ++ slice 0 3 digits ++ "-" ++ slice 3 6 digits ++ "-"
            ++ sliceFrom 6 digits in
   formatPhoneNumber g = g) /\
  (len = 11%nat -> startsWith digits "1" = true ->
   let g := "+" ++ slice 0 1 digits ++ "-" ++ slice 1 4 digits ++ "-"
            ++ slice 4 7 digits ++ "-" ++ sliceFrom 7 digits in
   formatPhoneNumber g = g) /\
  (len = 11%nat -> startsWith digits "1" = false ->
   startsWith digits "44" || startsWith digits "0" = true ->
   let cleanDigits :=
     if startsWith digits "44" then digits else "44" ++ sliceFrom 1 digits in
   let g := "+" ++ slice 0 2 cleanDigits ++ "-" ++ slice 2 5 cleanDigits ++ "-"
            ++ slice 5 8 cleanDigits ++ "-" ++ sliceFrom 8 cleanDigits in
   formatPhoneNumber g = g).
Proof.
  intros Hall len. subst len. cbv zeta. split; [|split].
  - intros H. chars_known H. all_digits Hall. digits_again.
    reflexivity.
  - intros H H1. chars_known H. first_char H1. all_digits Hall. digits_again.
    destruct (ascii_dec "1" "1"); [|contradiction]. reflexivity.
  - intros H H1 Huk. chars_known H. all_digits Hall.
    destruct (startsWith _ "44") eqn:H44.
    + first_char H44. digits_again.
      destruct (ascii_dec "4" "1"); [discriminate|].
      destruct (ascii_dec "4" "4"); [|contradiction]. reflexivity.
    + rewrite orb_false_l in Huk. first_char Huk. digits_again.
      eapply trim_fixed; [reflexivity|reflexivity|].
      apply digit_is_not_space. assumption.
Qed.

Lemma formatPhoneNumber_again (phone : string) :
  formatPhoneNumber (formatPhoneNumber phone) = formatPhoneNumber phone.
Proof.
  destruct (formatPhoneNumber_grouped (keep is_digit phone) (keep_all_chars _ _))
    as (G10 & G11 & Guk). cbv zeta in G10, G11, Guk.
  remember (formatPhoneNumber phone) as r eqn:Hr. unfold formatPhoneNumber in Hr.
  destruct (String.eqb_spec phone "") as [->|Hne]; [subst r; reflexivity|].
  cbv zeta in Hr.
  destruct (Nat.eqb_spec (String.length (keep is_digit phone)) 10) as [H10|N10].
  { subst r. apply G10, H10. }
  destruct (Nat.eqb_spec (String.length (keep is_digit phone)) 11) as [H11|N11];
    cbn [andb] in Hr.
  - destruct (startsWith (keep is_digit phone) "1") eqn:H1.
    { subst r. apply G11; [exact H11|reflexivity]. }
    rewrite H11 in Hr. cbn [Nat.leb andb] in Hr.
    destruct (startsWith (keep is_digit phone) "44" || startsWith (keep is_digit phone) "0")
      eqn:Huk.
    { subst r. apply Guk; [exact H11|reflexivity|reflexivity]. }
    subst r. unfold formatPhoneNumber.
    destruct (String.eqb_spec (trim phone) "") as [E|_]; [reflexivity|].
    rewrite (keep_trim is_digit phone digit_not_space).
    rewrite H11. cbn [Nat.eqb Nat.leb andb]. rewrite H1, Huk. cbn [andb].
    apply trim_idem.
  - assert (Hr' : r = if (7 <=? String.length (keep is_digit phone))%nat
                      then trim phone else phone).
    { destruct ((10 <=? String.length (keep is_digit phone))%nat
                && (String.length (keep is_digit phone) <=? 11)%nat) eqn:E; [|exact Hr].
      apply andb_true_iff in E. destruct E as [E1 E2].
      apply Nat.leb_le in E1. apply Nat.leb_le in E2. lia. }
    clear Hr.
    assert (Hmid : (10 <=? String.length (keep is_digit phone))%nat
                   && (String.length (keep is_digit phone) <=? 11)%nat = false).
    { apply andb_false_iff.
      destruct (Nat.leb_spec 10 (String.length (keep is_digit phone))); [right|left; reflexivity].
      apply Nat.leb_gt. lia. }
    destruct (7 <=? String.length (keep is_digit phone))%nat eqn:H7; subst r.
    + unfold formatPhoneNumber.
      destruct (String.eqb_spec (trim phone) "") as [E|_]; [reflexivity|].
      rewrite (keep_trim is_digit phone digit_not_space).
      destruct (Nat.eqb_spec (String.length (keep is_digit phone)) 10); [contradiction|].
      destruct (Nat.eqb_spec (String.length (keep is_digit phone)) 11); [contradiction|].
      cbn [andb]. rewrite Hmid, H7. cbn [andb]. apply trim_idem.
    + unfold formatPhoneNumber.
      destruct (String.eqb_spec phone "") as [E|_]; [reflexivity|].
      destruct (Nat.eqb_spec (String.length (keep is_digit phone)) 10); [contradiction|].
      destruct (Nat.eqb_spec (String.length (keep is_digit phone)) 11); [contradiction|].
      cbn [andb]. rewrite Hmid, H7. reflexivity.
Qed.

(** X3: [formatPhoneNumber] of [utils.ts] is idempotent: a number that has
    been formatted, by the form validation say, is left as it is when the
    cleaner formats it again. *)
Theorem formatPhoneNumber_idempotent (phone : string) :
  formatPhoneNumber (formatPhoneNumber phone) = formatPhoneNumber phone.
Proof. apply formatPhoneNumber_again. Qed.

(** X4: the formatter of [scraper.ts] and the one of [utils.ts] agree on
    the numbers the scraper regroups (10 digits, or 11 digits after a 1),
    and formatting a scraped number again with [utils.ts] gives what
    [utils.ts] alone gives. *)
Theorem scraper_formatPhoneNumber_agrees (phone : string) :
  (Scraper.formatPhoneNumber phone <> phone ->
   Scraper.formatPhoneNumber phone = formatPhoneNumber phone) /\
  formatPhoneNumber (Scraper.formatPhoneNumber phone) = formatPhoneNumber phone.
Proof.
  assert (H : Scraper.formatPhoneNumber phone = phone
              \/ Scraper.formatPhoneNumber phone = formatPhoneNumber phone).
  { unfold Scraper.formatPhoneNumber, formatPhoneNumber.
    destruct (String.eqb_spec phone "") as [->|_]; [left; reflexivity|].
    cbv zeta.
    destruct (String.length (keep is_digit phone) =? 10)%nat; [right; reflexivity|].
    destruct ((String.length (keep is_digit phone) =? 11)%nat
              && startsWith (keep is_digit phone) "1"); [right; reflexivity|].
    left; reflexivity. }
  split.
  - intros Hne. destruct H as [H|H]; [contradiction|exact H].
  - destruct H as [->| ->]; [reflexivity|apply formatPhoneNumber_again].
Qed.

(** ** Web addresses *)

(** X5: [ensureAbsoluteUrl] changes a protocol-relative address only, to
    which it prepends ["https:"]; any other text, a relative path too, is
    returned as it is; and it is idempotent. *)
Theorem ensureAbsoluteUrl_idempotent (url : string) :
  (ensureAbsoluteUrl url = url \/
   (startsWith url "//" = true /\ ensureAbsoluteUrl url = "https:" ++ url)) /\
  ensureAbsoluteUrl (ensureAbsoluteUrl url) = ensureAbsoluteUrl url.
Proof.
  assert (H : ensureAbsoluteUrl url = url \/
              (startsWith url "//" = true /\ ensureAbsoluteUrl url = "https:" ++ url)).
  { unfold ensureAbsoluteUrl. destruct (url =? ""); [auto|].
    destruct (startsWith url "http://" || startsWith url "https://"); [auto|].
    destruct (startsWith url "//"); auto. }
  split; [exact H|].
  destruct H as [H|[Hs H]]; rewrite H; [exact H|].
  destruct url as [|c1 [|c2 rest]]; first_char Hs; try discriminate Hs.
  vm_compute. destruct rest; reflexivity.
Qed.

(** ** Price tiers *)

Lemma trim_all_chars (p : ascii -> bool) (s : string) :
  (forall c, p c = true -> is_space c = false) ->
  all_chars p s = true -> trim s = s.
Proof.
  intros Hp Hs. unfold trim.
  assert (Hstart : trimStart s = s).
  { destruct s as [|c s]; [reflexivity|]. cbn [all_chars] in Hs.
    apply andb_true_iff in Hs. cbn [trimStart]. rewrite (Hp c (proj1 Hs)). reflexivity. }
  rewrite Hstart. induction s as [|c s IH]; [reflexivity|].
  cbn [all_chars] in Hs. apply andb_true_iff in Hs. destruct Hs as [Hc Hs].
  cbn [trimEnd]. rewrite IH.
  - destruct s; [rewrite (Hp c Hc)|]; reflexivity.
  - exact Hs.
  - destruct s as [|c' s]; [reflexivity|]. cbn [all_chars] in Hs.
    apply andb_true_iff in Hs. cbn [trimStart]. rewrite (Hp c' (proj1 Hs)). reflexivity.
Qed.

(** A run of dollar signs is returned as it is. *)
Lemma validatePriceRange_fixed (r : string) : dollar_run r -> validatePriceRange r = r.
Proof.
  intros Hr. pose proof Hr as [Hne Hall]. unfold validatePriceRange.
  destruct (String.eqb_spec r "") as [E|_]; [contradiction|].
  cbv zeta.
  rewrite (trim_all_chars (Ascii.eqb "$") r).
  - apply test_dollarsOnly in Hr. rewrite Hr. reflexivity.
  - intros c Hc. apply Ascii.eqb_eq in Hc. subst c. reflexivity.
  - exact Hall.
Qed.

(** X6: [validatePriceRange] is idempotent: what it returns is returned
    as it is when it is normalised again. *)
Theorem validatePriceRange_idempotent (priceRange : string) :
  validatePriceRange (validatePriceRange priceRange) = validatePriceRange priceRange.
Proof.
  destruct (String.eqb_spec priceRange "") as [->|Hne]; [reflexivity|].
  apply validatePriceRange_fixed, validatePriceRange_run, Hne.
Qed.

(** X7: for a city, a name and a description of ASCII characters,
    [detectPriceRange] answers one of the four tiers, which
    [validatePriceRange] leaves as it is, whatever the category; or else,
    when the city (in lower case and trimmed) or the category is the name
    of a built-in member of [Object.prototype], that member. *)
Theorem detectPriceRange_four_tiers (city businessType : string)
    (businessName description : option string) :
  ascii_only city = true ->
  ascii_only (default "" businessName) = true ->
  ascii_only (default "" description) = true ->
  match detectPriceRange city businessType businessName description with
  | Own tier => In tier tiers4 /\ validatePriceRange tier = tier
  | Member name =>
      inherited name = true /\ (name = trim (toLowerCase city) \/ name = businessType)
  | Missing => False
  end.
Proof.
  intros _ _ _.
  pose proof (detectPriceRange_result city businessType businessName description) as H.
  destruct (detectPriceRange _ _ _ _); try exact H.
  split; [exact H|]. apply validatePriceRange_fixed, dollar_run_tier, H.
Qed.

(** ** The tables of cities *)

Lemma table_values (P : string -> bool) (l : list (string * string)) (k v : string) :
  forallb (fun kv => P kv.2) l = true ->
  (list_to_map l : gmap string string) !! k = Some v -> P v = true.
Proof.
  intros Hall Hk. apply elem_of_list_to_map_2 in Hk.
  rewrite forallb_forall in Hall. apply list_elem_of_In in Hk.
  apply (Hall (k, v) Hk).
Qed.

(** X8: a postal code that [inferPostalCodeFromCity] finds for an ASCII
    city is always one that [isValidPostalCode] accepts for the United
    States; the only other thing it can return is a built-in member of
    [Object.prototype], for a city that (in lower case and trimmed) is the
    name of one. *)
Theorem inferPostalCodeFromCity_valid (city : string) :
  ascii_only city = true ->
  match inferPostalCodeFromCity city with
  | Own zip => isValidPostalCode zip "US" = Ok true
  | Member name => name = trim (toLowerCase city) /\ inherited name = true
  | Missing => True
  end.
Proof.
  intros _. unfold inferPostalCodeFromCity, literal_get.
  destruct (commonCityZipMapping !! _) as [zip|] eqn:E.
  - assert (H : match isValidPostalCode zip "US" with Ok b => b | _ => false end = true).
    { unfold commonCityZipMapping in E.
      eapply (table_values (fun z => match isValidPostalCode z "US" with
                                     | Ok b => b | _ => false end)); [|exact E].
      vm_compute. reflexivity. }
    destruct (isValidPostalCode zip "US") as [[|]| |]; try discriminate H. reflexivity.
  - destruct (inherited _) eqn:I; [split; [reflexivity | exact I] | exact Logic.I].
Qed.

(** X9: a state that [inferStateFromCity] finds for an ASCII city is
    always a two-letter code in upper case; the empty city has no state;
    the only other thing the function can return is a built-in member of
    [Object.prototype], for a city that (in lower case and trimmed) is the
    name of one. *)
Theorem inferStateFromCity_code (city : string) :
  ascii_only city = true ->
  inferStateFromCity "" = Missing /\
  match inferStateFromCity city with
  | Own st => state_code st = true
  | Member name => name = trim (toLowerCase city) /\ inherited name = true
  | Missing => True
  end.
Proof.
  intros _. split; [reflexivity|]. unfold inferStateFromCity, literal_get.
  destruct (city =? ""); [exact I|].
  destruct (cityStateMapping !! _) as [st|] eqn:E.
  - unfold cityStateMapping in E. revert E. apply (table_values state_code).
    vm_compute. reflexivity.
  - destruct (inherited _) eqn:Hi; [split; [reflexivity | exact Hi] | exact I].
Qed.

(** ** Form validation, once more *)

Section FormExtras.

Variable URL_parses : string -> bool.

(** For a form typed in by hand a rejected value is reported and left in
    place. *)
Local Ltac strict_step :=
  let st := fresh "st" in
  intros st; unfold checkPostalCode, checkEmail, checkUrl, checkLatitude, checkLongitude,
    checkRating, checkReviewCount, reject; cbn [negb andb];
  repeat match goal with
         | |- snd (if ?c then _ else _) !! _ = _ => destruct c
         end;
  reflexivity.

Lemma strict_postalCode fd k : keeps_key k (checkPostalCode fd false).
Proof. strict_step. Qed.
Lemma strict_email fd k : keeps_key k (checkEmail fd false).
Proof. strict_step. Qed.
Lemma strict_url key msg fd k : keeps_key k (checkUrl URL_parses key msg fd false).
Proof. strict_step. Qed.
Lemma strict_latitude fd k : keeps_key k (checkLatitude fd false).
Proof. strict_step. Qed.
Lemma strict_longitude fd k : keeps_key k (checkLongitude fd false).
Proof. strict_step. Qed.
Lemma strict_rating fd k : keeps_key k (checkRating fd false).
Proof. strict_step. Qed.
Lemma strict_reviewCount fd k : keeps_key k (checkReviewCount fd false).
Proof. strict_step. Qed.

Lemma strict_requiredFields fd k :
  k <> "priceRange" -> keeps_key k (requiredFields fd false).
Proof.
  intros Hk st. unfold requiredFields.
  destruct (field_is fd "contentType" "Article"); [apply keeps_key_requireArticle|].
  destruct (field_is fd "contentType" "HowTo"); [apply keeps_key_requireHowTo|].
  rewrite keeps_key_autoDetect by exact Hk.
  rewrite strict_postalCode. apply keeps_key_requireBusiness.
Qed.

(** The fields that the run on a form of texts leaves alone. *)
Lemma untouched_fields_texts (fd : formdata) (isAi : bool) (k : string) :
  let cleaned := cleanedData (validateTexts URL_parses fd isAi) in
  (~ In k adjustedFields -> cleaned !! k = fd !! k) /\
  (isAi = false -> k <> "telephone" -> k <> "priceRange" -> cleaned !! k = fd !! k) /\
  (forall t, fd !! "telephone" = Some t -> t <> "" ->
     cleaned !! "telephone" = Some (formatPhoneNumber t)).
Proof.
  cbv zeta. unfold validateTexts. cbv zeta. cbn [cleanedData].
  split; [|split].
  - intros Hk. unfold adjustedFields in Hk. cbn [In] in Hk.
    rewrite keeps_key_priceRange, keeps_key_reviewCount, keeps_key_rating,
      keeps_key_longitude, keeps_key_latitude, !keeps_key_url, keeps_key_email,
      keeps_key_telephone, keeps_key_requiredFields by (intros ->; tauto).
    reflexivity.
  - intros -> Ht Hp.
    rewrite keeps_key_priceRange by exact Hp.
    rewrite strict_reviewCount, strict_rating, strict_longitude, strict_latitude,
      !strict_url, strict_email.
    rewrite keeps_key_telephone by exact Ht.
    rewrite strict_requiredFields by exact Hp. reflexivity.
  - intros t Ht Hne. destruct (filled_Some _ _ _ Ht Hne) as [F Hfield].
    rewrite keeps_key_priceRange, keeps_key_reviewCount, keeps_key_rating,
      keeps_key_longitude, keeps_key_latitude, !keeps_key_url, keeps_key_email
      by discriminate.
    unfold checkTelephone. rewrite F, Hfield. unfold put. cbn [snd].
    apply lookup_insert_eq.
Qed.

(** X10: on a form of ASCII texts, when [validateFormData] returns, it
    has changed or dropped the value of ten fields at most (the telephone,
    the price range, the postal code, the email, the two web addresses,
    the coordinates, the rating and the review count); every other field
    reaches the cleaned data as it was given.  For a form typed in by hand
    only the telephone and the price range can differ.  A telephone that
    is given is replaced by its formatted form.  The function returns
    when the country, the city and the content type name no built-in
    member. *)
Theorem validateFormData_untouched_fields (fd : formdata) (isAi : bool) (k : string) :
  ascii_form fd ->
  (plain_names fd -> exists r, validateFormData URL_parses (formObject fd) isAi = Ok r) /\
  (forall r, validateFormData URL_parses (formObject fd) isAi = Ok r ->
     (~ In k adjustedFields -> cleanedData r !! k = formObject fd !! k) /\
     (isAi = false -> k <> "telephone" -> k <> "priceRange" ->
      cleanedData r !! k = formObject fd !! k) /\
     (forall t, fd !! "telephone" = Some t -> t <> "" ->
        cleanedData r !! "telephone" = Some (VStr (formatPhoneNumber t)))).
Proof.
  intros _. split.
  - intros Hplain. eexists. apply validateFormData_plain, Hplain.
  - intros r Hr. apply validateFormData_returns in Hr. subst r.
    destruct (untouched_fields_texts fd isAi k) as (H1 & H2 & H3). cbv zeta in *.
    cbn [of_texts cleanedData]. unfold formObject. rewrite !lookup_fmap.
    split; [intros Hk; rewrite (H1 Hk); reflexivity|].
    split; [intros Hai Ht Hp; rewrite (H2 Hai Ht Hp); reflexivity|].
    intros t Ht Hne. rewrite (H3 t Ht Hne). reflexivity.
Qed.

(** The validity of a run on a form of texts, for generated content. *)
Lemma lenient_validity_texts (fd : formdata) :
  isValid (validateTexts URL_parses fd true) =
  if field_is fd "contentType" "Article" then
    filled_trim fd "headline" && filled_trim fd "authorName"
    && filled_trim fd "publisherName"
  else if field_is fd "contentType" "HowTo" then filled_trim fd "howToName"
  else filled_trim fd "name" && filled_trim fd "description".
Proof.
  unfold validateTexts. cbv zeta. cbn [isValid].
  rewrite silent_priceRange, silent_reviewCount, silent_rating, silent_longitude,
    silent_latitude, !silent_url, silent_email, silent_telephone.
  unfold requiredFields.
  destruct (field_is fd "contentType" "Article").
  { unfold requireArticle, require, push.
    destruct (filled_trim fd "headline"), (filled_trim fd "authorName"),
      (filled_trim fd "publisherName"); reflexivity. }
  destruct (field_is fd "contentType" "HowTo").
  { unfold requireHowTo, require, push. destruct (filled_trim fd "howToName"); reflexivity. }
  rewrite silent_autoDetect, silent_postalCode.
  unfold requireBusiness, require, push. cbn [negb].
  destruct (filled_trim fd "name"), (filled_trim fd "description"); reflexivity.
Qed.

(** X11: for generated content given as a form of ASCII texts, the
    outcome of [validateFormData], when it returns, depends on the
    required names only: an article is valid exactly when it has a
    headline, an author and a publisher, a how-to when it has a title, any
    other content when it has a name and a description (a text of white
    space only counts as missing); no value of another field makes the
    form invalid.  The function returns when the country, the city and
    the content type name no built-in member. *)
Theorem validateFormData_lenient_validity (fd : formdata) :
  ascii_form fd ->
  (plain_names fd -> exists r, validateFormData URL_parses (formObject fd) true = Ok r) /\
  (forall r, validateFormData URL_parses (formObject fd) true = Ok r ->
     isValid r =
     if field_is fd "contentType" "Article" then
       filled_trim fd "headline" && filled_trim fd "authorName"
       && filled_trim fd "publisherName"
     else if field_is fd "contentType" "HowTo" then filled_trim fd "howToName"
     else filled_trim fd "name" && filled_trim fd "description").
Proof.
  intros _. split.
  - intros Hplain. eexists. apply validateFormData_plain, Hplain.
  - intros r Hr. apply validateFormData_returns in Hr. subst r.
    apply lenient_validity_texts.
Qed.

End FormExtras.

(** ** The cleaner, once more *)

Section CleanerExtras.

Variable URL_parses : string -> bool.

Lemma pruned_scalar (v : value) : is_object v = false -> pruned v = true.
Proof. destruct v; try reflexivity; discriminate. Qed.

Lemma forallb_set (P : value -> bool) (k : string) (v : value) (o : Obj.t) :
  forallb (fun kv => P (snd kv)) o = true -> P v = true ->
  forallb (fun kv => P (snd kv)) (Obj.set k v o) = true.
Proof.
  intros Ho Hv. induction o as [|[k' v'] o IH]; cbn [Obj.set forallb snd].
  - rewrite Hv. reflexivity.
  - cbn [forallb snd] in Ho. apply andb_true_iff in Ho. destruct Ho as [H1 H2].
    destruct (k =? k'); cbn [forallb snd].
    + rewrite Hv, H2. reflexivity.
    + rewrite H1, IH by exact H2. reflexivity.
Qed.

Lemma mapF_all {A B : Type} (f : A -> option (result B)) (P : B -> Prop) :
  (forall x y, f x = Some (Ok y) -> P y) ->
  forall l l', mapF f l = Some (Ok l') -> Forall P l'.
Proof.
  intros Hf. induction l as [|x l IH]; intros l' H; cbn [mapF] in H.
  - injection H as <-. constructor.
  - unfold next in H. destruct (f x) as [[y| |]|] eqn:Ex; try discriminate H.
    destruct (mapF f l) as [[ys| |]|] eqn:El; try discriminate H.
    injection H as <-. constructor; [eapply Hf; eassumption|apply IH; reflexivity].
Qed.

(** An assignment that returns has set the key, or has done nothing, the
    key being ["__proto__"]. *)
Lemma assign_inv (k : string) (cv : value) (acc acc' : Obj.t) :
  Some (assign k cv acc) = Some (Ok acc') ->
  (k = "__proto__" /\ acc' = acc) \/ (k <> "__proto__" /\ acc' = Obj.set k cv acc).
Proof.
  unfold assign. destruct (String.eqb_spec k "__proto__") as [->|Hk].
  - destruct (is_object cv); [discriminate|]. intros [= <-]. left. auto.
  - intros [= <-]. right. auto.
Qed.

Lemma fold_keep_field_all (f : value -> option (result value)) (o' : Obj.t)
    (P : value -> bool) :
  (forall x y, f x = Some (Ok y) -> keep_cleaned y = true -> P y = true) ->
  forall keys racc acc,
    (forall acc0, racc = Some (Ok acc0) -> forallb (fun kv => P (snd kv)) acc0 = true) ->
    fold_left (keep_field f o') keys racc = Some (Ok acc) ->
    forallb (fun kv => P (snd kv)) acc = true.
Proof.
  intros Hf. induction keys as [|k keys IH]; intros racc acc Hacc H; cbn [fold_left] in H.
  - apply Hacc, H.
  - apply (IH _ _) in H; [exact H|]. intros acc1 H1.
    unfold keep_field, next in H1.
    destruct racc as [[acc0| |]|]; try discriminate H1.
    destruct (f (Obj.get k o')) as [[cv| |]|] eqn:Ef; try discriminate H1.
    specialize (Hacc acc0 eq_refl).
    destruct (keep_cleaned cv) eqn:Ek; [|injection H1 as <-; exact Hacc].
    apply assign_inv in H1. destruct H1 as [[_ ->]|[_ ->]]; [exact Hacc|].
    apply forallb_set; [exact Hacc|]. eapply Hf; eassumption.
Qed.

Lemma cleanObject_fuel_pruned (n : nat) :
  forall v r, cleanObject_fuel URL_parses n v = Some (Ok r) -> pruned r = true.
Proof.
  induction n as [|n IH]; intros v r H; [discriminate H|].
  cbn [cleanObject_fuel] in H. cbv zeta in H.
  assert (Hchild : forall x y,
            (if is_object x then cleanObject_fuel URL_parses n x else Some (Ok x))
            = Some (Ok y) -> pruned y = true).
  { intros x y Hx. destruct (is_object x) eqn:Eo; [apply (IH _ _ Hx)|].
    injection Hx as <-. apply pruned_scalar, Eo. }
  destruct v as [| | | | |items|o]; try (injection H as <-; reflexivity).
  - unfold next in H.
    destruct (mapF _ items) as [[mapped| |]|] eqn:Em; try discriminate H.
    injection H as <-. cbn [pruned]. apply forallb_forall. intros x Hx.
    apply filter_In in Hx. destruct Hx as [Hin Hkeep]. rewrite Hkeep. cbn [andb].
    pose proof (mapF_all _ _ Hchild _ _ Em) as Hall.
    rewrite Forall_forall in Hall. apply Hall. apply list_elem_of_In, Hin.
  - destruct (typeRules URL_parses o) as [[o'|]| |]; try discriminate H.
    + unfold next in H.
      destruct (fold_left _ (Obj.keys o') _) as [[acc| |]|] eqn:Ef; try discriminate H.
      injection H as <-. cbn [pruned].
      eapply (fold_keep_field_all _ o' (fun v => keep_cleaned v && pruned v)) in Ef;
        [exact Ef| |].
      * intros x y Hx Hk. rewrite Hk. cbn [andb]. apply (Hchild _ _ Hx).
      * intros acc0 [= <-]. reflexivity.
    + injection H as <-. reflexivity.
Qed.

(** X12: a document that [cleanObject] returns is pruned: at every depth,
    no field of an object is left holding null, undefined, an empty string,
    an empty array or an object with neither keys nor a type, and no item
    of an array is left null, undefined or an empty string.  (An own key
    [__proto__] that holds an object or an array becomes the prototype of
    the rebuilt node, whose fields are then no longer its own only: that
    run has the outcome [Outside], not a document.) *)
Theorem cleanObject_pruned (obj r : value) :
  cleanObject URL_parses obj = Ok r -> pruned r = true.
Proof.
  unfold cleanObject.
  destruct (cleanObject_fuel URL_parses (2 + depth obj) obj) as [res|] eqn:E;
    [|discriminate].
  intros H. change (res = Ok r) in H. subst res.
  apply (cleanObject_fuel_pruned _ _ _ E).
Qed.

(** *** Pruning alone: documents without typed nodes *)

Lemma untyped_scalar (v : value) : is_object v = false -> untyped v = true.
Proof. destruct v; try reflexivity; discriminate. Qed.

Lemma distinct_scalar (v : value) : is_object v = false -> distinct_keys v = true.
Proof. destruct v; try reflexivity; discriminate. Qed.

Lemma falsy_scalar (v : value) : truthy v = false -> is_object v = false.
Proof. destruct v; try reflexivity; discriminate. Qed.

Lemma lookup_In (k : string) (v : value) (o : Obj.t) :
  Obj.lookup k o = Some v -> In (k, v) o.
Proof.
  induction o as [|[j w] o IH]; cbn [Obj.lookup]; [discriminate|].
  destruct (String.eqb_spec k j) as [->|_]; [intros [= ->]; left; reflexivity|].
  intros H. right. apply IH, H.
Qed.

Lemma lookup_keys (k : string) (o : Obj.t) :
  Obj.lookup k o = None <-> ~ In k (Obj.keys o).
Proof.
  unfold Obj.keys. induction o as [|[j w] o IH]; cbn [Obj.lookup map fst In]; [tauto|].
  destruct (String.eqb_spec k j) as [->|Hne].
  - split; [discriminate|]. intros H. contradiction H. left. reflexivity.
  - rewrite IH. split; [intros H [E|E]; [congruence|contradiction]|tauto].
Qed.

Lemma field_untyped (k : string) (o : Obj.t) :
  forallb (fun kv => untyped (snd kv)) o = true -> untyped (Obj.get k o) = true.
Proof.
  intros H. unfold Obj.get. destruct (Obj.lookup k o) as [v|] eqn:E; [|reflexivity].
  rewrite forallb_forall in H. apply (H (k, v)), lookup_In, E.
Qed.

(** A key that is set keeps its place when it is there and goes last
    when it is not. *)
Lemma keys_set (k : string) (v : value) (o : Obj.t) :
  Obj.keys (Obj.set k v o)
  = if Obj.has k o then Obj.keys o else (Obj.keys o ++ [k])%list.
Proof.
  unfold Obj.keys, Obj.has. induction o as [|[j w] o IH]; cbn [Obj.set Obj.lookup map fst];
    [reflexivity|].
  destruct (String.eqb_spec k j) as [->|Hne]; cbn [map fst]; [reflexivity|].
  rewrite IH. destruct (Obj.lookup k o); reflexivity.
Qed.

Lemma NoDup_set (k : string) (v : value) (o : Obj.t) :
  NoDup (Obj.keys o) -> NoDup (Obj.keys (Obj.set k v o)).
Proof.
  intros H. rewrite keys_set. unfold Obj.has.
  destruct (Obj.lookup k o) eqn:E; [exact H|].
  apply lookup_keys in E. apply NoDup_app. split; [exact H|]. split.
  - intros x Hx Hk. apply list_elem_of_In in Hx, Hk. destruct Hk as [<-|[]].
    contradiction.
  - apply NoDup_singleton.
Qed.

Lemma fold_keep_field_settled (f : value -> option (result value)) (o : Obj.t) :
  truthy (Obj.get "@type" o) = false ->
  (forall k y, f (Obj.get k o) = Some (Ok y) ->
     untyped y = true /\ distinct_keys y = true /\
     (truthy (Obj.get k o) = false -> y = Obj.get k o)) ->
  forall keys racc acc,
    (forall acc0, racc = Some (Ok acc0) -> settled_acc acc0) ->
    fold_left (keep_field f o) keys racc = Some (Ok acc) -> settled_acc acc.
Proof.
  intros Htype Hf. induction keys as [|k keys IH]; intros racc acc Hacc H;
    cbn [fold_left] in H; [apply Hacc, H|].
  apply (IH _ _) in H; [exact H|]. intros acc1 H1.
  unfold keep_field, next in H1.
  destruct racc as [[acc0| |]|]; try discriminate H1.
  destruct (f (Obj.get k o)) as [[cv| |]|] eqn:Ef; try discriminate H1.
  pose proof (Hacc acc0 eq_refl) as Hsettled.
  destruct (keep_cleaned cv) eqn:Ek; [|injection H1 as <-; exact Hsettled].
  apply assign_inv in H1. destruct H1 as [[_ ->]|[Hk ->]]; [exact Hsettled|].
  destruct Hsettled as (Hn & Hproto & Hu & Hd & Ht).
  destruct (Hf k cv Ef) as (Hcu & Hcd & Hsame).
  split; [apply NoDup_set, Hn|].
  split.
  { unfold Obj.has in *. rewrite lookup_set.
    destruct (String.eqb_spec "__proto__" k) as [E|_]; [congruence | exact Hproto]. }
  split; [apply forallb_set; assumption|].
  split; [apply forallb_set; assumption|].
  unfold Obj.get. rewrite lookup_set.
  destruct (String.eqb_spec "@type" k) as [<-|_]; [|exact Ht].
  cbn [default]. rewrite (Hsame Htype). exact Htype.
Qed.

(** What the cleaner returns for a document without typed nodes is
    without typed nodes, and no object in it has a key twice. *)
Lemma cleanObject_fuel_settled (n : nat) :
  forall v r, untyped v = true -> cleanObject_fuel URL_parses n v = Some (Ok r) ->
    untyped r = true /\ distinct_keys r = true.
Proof.
  induction n as [|n IH]; intros v r Hu H; [discriminate H|].
  cbn [cleanObject_fuel] in H. cbv zeta in H.
  assert (Hchild : forall x y, untyped x = true ->
            (if is_object x then cleanObject_fuel URL_parses n x else Some (Ok x))
            = Some (Ok y) ->
            untyped y = true /\ distinct_keys y = true /\
            (truthy x = false -> y = x)).
  { intros x y Hx Hy. destruct (is_object x) eqn:Eo.
    - destruct (IH _ _ Hx Hy) as [H1 H2]. split; [exact H1|]. split; [exact H2|].
      intros Hf. apply falsy_scalar in Hf. congruence.
    - injection Hy as <-. split; [apply untyped_scalar, Eo|].
      split; [apply distinct_scalar, Eo|reflexivity]. }
  destruct v as [| | | | |items|o]; try (injection H as <-; split; reflexivity).
  - unfold next in H.
    destruct (mapF _ items) as [[mapped| |]|] eqn:Em; try discriminate H.
    injection H as <-. cbn [untyped distinct_keys] in Hu |- *.
    assert (Hall : Forall (fun y => untyped y = true /\ distinct_keys y = true) mapped).
    { clear -Em Hu Hchild. revert mapped Em.
      induction items as [|x items IHi]; intros mapped Em; cbn [mapF] in Em.
      - injection Em as <-. constructor.
      - cbn [forallb] in Hu. apply andb_true_iff in Hu. destruct Hu as [Hx Hitems].
        unfold next in Em.
        destruct (if is_object x then _ else _) as [[y| |]|] eqn:Ex; try discriminate Em.
        destruct (mapF _ items) as [[ys| |]|] eqn:El; try discriminate Em.
        injection Em as <-. constructor.
        + destruct (Hchild x y Hx Ex) as (H1 & H2 & _). auto.
        + apply (IHi Hitems _ eq_refl). }
    rewrite Forall_forall in Hall.
    split; apply forallb_forall; intros x Hx; apply filter_In in Hx;
      destruct Hx as [Hin _]; apply list_elem_of_In in Hin; apply (Hall x Hin).
  - cbn [untyped] in Hu. apply andb_true_iff in Hu. destruct Hu as [Ht Hfields].
    apply negb_true_iff in Ht.
    unfold typeRules in H. rewrite Ht in H. unfold keep_node in H.
    unfold next in H.
    destruct (fold_left _ (Obj.keys o) _) as [[acc| |]|] eqn:Ef; try discriminate H.
    injection H as <-.
    eapply (fold_keep_field_settled _ o Ht) in Ef.
    + destruct Ef as (Hn & Hproto & Hu & Hd & Hty). cbn [untyped distinct_keys].
      rewrite Hty, Hu, Hd, Hproto. rewrite bool_decide_eq_true_2 by exact Hn. auto.
    + intros k y Hy. apply (Hchild _ _ (field_untyped k o Hfields) Hy).
    + intros acc0 [= <-]. repeat split; try reflexivity. apply NoDup_nil_2.
Qed.

Lemma lookup_app (k : string) (a b : Obj.t) :
  Obj.lookup k (a ++ b)%list
  = match Obj.lookup k a with Some x => Some x | None => Obj.lookup k b end.
Proof.
  induction a as [|[j w] a IH]; cbn [app Obj.lookup]; [reflexivity|].
  destruct (k =? j); [reflexivity|exact IH].
Qed.

Lemma set_new (k : string) (v : value) (o : Obj.t) :
  Obj.lookup k o = None -> Obj.set k v o = (o ++ [(k, v)])%list.
Proof.
  induction o as [|[j w] o IH]; cbn [Obj.lookup Obj.set app]; [reflexivity|].
  destruct (k =? j); [discriminate|]. intros H. rewrite (IH H). reflexivity.
Qed.

(** Folding the keys of an object whose keys are distinct and whose
    values are all kept as they are rebuilds the object. *)
Lemma fold_rebuild (f : value -> option (result value)) (o : Obj.t) :
  NoDup (Obj.keys o) -> Obj.has "__proto__" o = false ->
  forall o2 o1, o = (o1 ++ o2)%list ->
    (forall k v, In (k, v) o2 -> f v = Some (Ok v) /\ keep_cleaned v = true) ->
    fold_left (keep_field f o) (Obj.keys o2) (Some (Ok o1)) = Some (Ok o).
Proof.
  intros Hnd Hproto. induction o2 as [|[k v] o2 IH]; intros o1 Ho Hf.
  - rewrite app_nil_r in Ho. subst o1. reflexivity.
  - change (Obj.keys ((k, v) :: o2)) with (k :: Obj.keys o2). cbn [fold_left].
    assert (Hk : Obj.lookup k o1 = None).
    { apply lookup_keys. intros Hin. rewrite Ho in Hnd. unfold Obj.keys in Hnd.
      rewrite map_app in Hnd. apply NoDup_app in Hnd. destruct Hnd as (_ & Hd & _).
      apply (Hd k); [apply list_elem_of_In, Hin|]. cbn [map fst]. left. }
    assert (Hget : Obj.get k o = v).
    { unfold Obj.get. rewrite Ho, lookup_app, Hk. cbn [Obj.lookup].
      rewrite String.eqb_refl. reflexivity. }
    destruct (Hf k v (or_introl eq_refl)) as [Hfv Hkeep].
    assert (Hplain : (k =? "__proto__") = false).
    { destruct (String.eqb_spec k "__proto__") as [->|_]; [|reflexivity].
      unfold Obj.has in Hproto. rewrite Ho, lookup_app, Hk in Hproto.
      cbn [Obj.lookup] in Hproto. rewrite String.eqb_refl in Hproto. discriminate Hproto. }
    unfold keep_field at 2. unfold next. rewrite Hget, Hfv, Hkeep.
    unfold assign. rewrite Hplain.
    rewrite (set_new _ _ _ Hk). apply IH.
    + rewrite Ho, <- app_assoc. reflexivity.
    + intros k' v' Hin. apply (Hf k' v'). right. exact Hin.
Qed.

Lemma mapF_same {A : Type} (f : A -> option (result A)) (l : list A) :
  (forall x, In x l -> f x = Some (Ok x)) -> mapF f l = Some (Ok l).
Proof.
  induction l as [|x l IH]; intros H; [reflexivity|]. cbn [mapF].
  rewrite (H x (or_introl eq_refl)). cbn [next].
  rewrite IH by (intros y Hy; apply H; right; exact Hy). reflexivity.
Qed.

Lemma filter_same {A : Type} (p : A -> bool) (l : list A) :
  forallb p l = true -> List.filter p l = l.
Proof.
  induction l as [|x l IH]; [reflexivity|]. cbn [forallb List.filter].
  intros H. apply andb_true_iff in H. destruct H as [-> H]. rewrite (IH H). reflexivity.
Qed.

(** A pruned document without typed nodes, with distinct keys, is
    returned by the cleaner as it is. *)
Lemma cleanObject_fuel_fixed (n : nat) :
  forall r, pruned r = true -> untyped r = true -> distinct_keys r = true ->
    (depth r < n)%nat -> cleanObject_fuel URL_parses n r = Some (Ok r).
Proof.
  induction n as [|n IH]; intros r Hp Hu Hd Hn; [lia|].
  destruct r as [| | | | |items|o]; try reflexivity.
  - cbn [cleanObject_fuel]. cbv zeta.
    cbn [pruned untyped distinct_keys] in Hp, Hu, Hd.
    rewrite forallb_forall in Hp, Hu, Hd.
    rewrite mapF_same.
    + cbn [next]. rewrite filter_same; [reflexivity|].
      apply forallb_forall. intros x Hx. specialize (Hp x Hx).
      apply andb_true_iff in Hp. apply Hp.
    + intros x Hx. destruct (is_object x); [|reflexivity].
      specialize (Hp x Hx). apply andb_true_iff in Hp.
      apply IH; [apply Hp|apply Hu, Hx|apply Hd, Hx|].
      pose proof (depth_item x items Hx). lia.
  - cbn [cleanObject_fuel]. cbv zeta.
    cbn [pruned untyped distinct_keys] in Hp, Hu, Hd.
    apply andb_true_iff in Hu. destruct Hu as [Ht Hu]. apply negb_true_iff in Ht.
    apply andb_true_iff in Hd. destruct Hd as [Hnd Hd].
    apply andb_true_iff in Hnd. destruct Hnd as [Hnd Hproto].
    apply bool_decide_eq_true in Hnd. apply negb_true_iff in Hproto.
    rewrite forallb_forall in Hp, Hu, Hd.
    unfold typeRules. rewrite Ht. unfold keep_node.
    rewrite (fold_rebuild _ o Hnd Hproto o []); [reflexivity|reflexivity|].
    intros k v Hin. specialize (Hp _ Hin). cbn [snd] in Hp.
    apply andb_true_iff in Hp. destruct Hp as [Hk Hpv]. split; [|exact Hk].
    destruct (is_object v); [|reflexivity].
    apply IH; [exact Hpv|apply (Hu _ Hin)|apply (Hd _ Hin)|].
    assert (Hdepth : (depth v <= fold_right (fun kv m => Nat.max (depth (snd kv)) m) 0 o)%nat).
    { clear -Hin. induction o as [|[j w] o IHo]; [destruct Hin|].
      cbn [fold_right snd]. destruct Hin as [[= -> ->]|Hin]; [lia|].
      specialize (IHo Hin). lia. }
    cbn [depth] in Hn. lia.
Qed.

(** X24: on a document without typed nodes, where [cleanObject] prunes
    only, cleaning is idempotent: what a first pass returns is returned as
    it is by a second pass. *)
Theorem cleanObject_untyped_idempotent (obj r : value) :
  untyped obj = true -> cleanObject URL_parses obj = Ok r ->
  cleanObject URL_parses r = Ok r.
Proof.
  intros Hu H. pose proof (cleanObject_total URL_parses obj) as Ht. rewrite H in Ht.
  pose proof (cleanObject_fuel_pruned _ _ _ Ht) as Hp.
  destruct (cleanObject_fuel_settled _ _ _ Hu Ht) as [Hu' Hd].
  unfold cleanObject.
  rewrite (cleanObject_fuel_fixed (2 + depth r) r Hp Hu' Hd) by lia. reflexivity.
Qed.

(** What the cleaner returns for an object: null when its rules reject
    it, a rebuilt object when they keep it. *)
Lemma cleanObject_node (o : Obj.t) (r : value) :
  cleanObject URL_parses (VObj o) = Ok r ->
  (typeRules URL_parses o = Ok None /\ r = VNull) \/
  (exists o' acc, typeRules URL_parses o = Ok (Some o') /\ r = VObj acc).
Proof.
  intros H. pose proof (cleanObject_total URL_parses (VObj o)) as Ht.
  rewrite H in Ht. change (2 + depth (VObj o))%nat with (S (S (depth (VObj o)))) in Ht.
  cbn [cleanObject_fuel] in Ht. cbv zeta in Ht.
  destruct (typeRules URL_parses o) as [[o'|]| |]; try discriminate Ht.
  - right. unfold next in Ht.
    destruct (fold_left _ (Obj.keys o') _) as [[acc| |]|]; try discriminate Ht.
    injection Ht as <-. eauto.
  - left. injection Ht as <-. auto.
Qed.

Lemma cleanObject_throws (o : Obj.t) :
  typeRules URL_parses o = Throw -> cleanObject URL_parses (VObj o) = Throw.
Proof.
  intros H. unfold cleanObject.
  change (2 + depth (VObj o))%nat with (S (S (depth (VObj o)))).
  cbn [cleanObject_fuel]. rewrite H. reflexivity.
Qed.

Local Ltac apply_rules Htype :=
  unfold typeRules, and_then, when_type, businessRule;
  rewrite ?Htype;
  repeat (cbn [truthy includes_type existsb businessTypes
               String.eqb Ascii.eqb Bool.eqb negb orb andb keep_node reject_node
               mbind result_bind];
          rewrite ?Htype).

(** The rules of an opening-hours node are those of its own type. *)
Lemma typeRules_openingHours (o : Obj.t) :
  Obj.get "@type" o = VStr "OpeningHoursSpecification" ->
  typeRules URL_parses o = openingHoursRule o.
Proof.
  intros Htype. apply_rules Htype.
  assert (Hsame : forall o1, openingHoursRule o = Ok (Some o1) -> o1 = o).
  { unfold openingHoursRule, timeFormatOk, as_string, reject_node, keep_node.
    intros o1.
    destruct (negb _ || negb _ || negb _); [discriminate|].
    destruct (Obj.get "opens" o); cbn [mbind result_bind]; try discriminate.
    destruct (negb _); [discriminate|].
    destruct (Obj.get "closes" o); cbn [mbind result_bind]; try discriminate.
    destruct (negb _); [discriminate|]. intros [= <-]. reflexivity. }
  destruct (openingHoursRule o) as [[o1|]| |] eqn:E; [|reflexivity..].
  rewrite (Hsame o1 eq_refl). apply_rules Htype. reflexivity.
Qed.

(** X13: an opening-hours node is removed by [cleanObject] when its day,
    its opening or its closing time is missing or empty.  It is removed
    when its opening time is an ASCII text that is not a time of the
    24-hour day; and when its closing time is such a text, unless the
    opening time is no text, on which the cleaner fails with a type
    error.  A node that is kept has a day and, as its two times, two
    texts, each a time of the 24-hour day if it is ASCII. *)
Theorem opening_hours_node_checked (o : Obj.t) :
  Obj.get "@type" o = VStr "OpeningHoursSpecification" ->
  (truthy (Obj.get "dayOfWeek" o) && truthy (Obj.get "opens" o)
   && truthy (Obj.get "closes" o) = false ->
   cleanObject URL_parses (VObj o) = Ok VNull) /\
  (forall t, Obj.get "opens" o = VStr t -> ascii_only t = true ->
     ~ is_clock24 (trim t) -> cleanObject URL_parses (VObj o) = Ok VNull) /\
  (forall t, Obj.get "closes" o = VStr t -> ascii_only t = true ->
     ~ is_clock24 (trim t) ->
     cleanObject URL_parses (VObj o) = Ok VNull
     \/ (cleanObject URL_parses (VObj o) = Throw /\
         as_string (Obj.get "opens" o) = Throw)) /\
  (forall r, cleanObject URL_parses (VObj o) = Ok r -> r <> VNull ->
     truthy (Obj.get "dayOfWeek" o) = true /\
     exists opens closes,
       Obj.get "opens" o = VStr opens /\ Obj.get "closes" o = VStr closes /\
       (ascii_only opens = true -> is_clock24 (trim opens)) /\
       (ascii_only closes = true -> is_clock24 (trim closes))).
Proof.
  intros Htype.
  assert (Hkept : forall o', openingHoursRule o = Ok (Some o') ->
            truthy (Obj.get "dayOfWeek" o) = true /\
            exists opens closes,
              Obj.get "opens" o = VStr opens /\ Obj.get "closes" o = VStr closes /\
              is_clock24 (trim opens) /\ is_clock24 (trim closes)).
  { unfold openingHoursRule, timeFormatOk, as_string, reject_node, keep_node.
    intros o'.
    destruct (truthy (Obj.get "dayOfWeek" o)); cbn [negb orb]; [|discriminate].
    destruct (negb _ || negb _); [discriminate|].
    destruct (Obj.get "opens" o) as [| | | |t1| |]; cbn [mbind result_bind];
      try discriminate.
    destruct (isValidTimeFormat t1) eqn:E1; cbn [negb]; [|discriminate].
    destruct (Obj.get "closes" o) as [| | | |t2| |]; cbn [mbind result_bind];
      try discriminate.
    destruct (isValidTimeFormat t2) eqn:E2; cbn [negb]; [|discriminate].
    intros _. split; [reflexivity|]. exists t1, t2.
    repeat split; apply isValidTimeFormat_spec; assumption. }
  assert (Hopens : forall t, Obj.get "opens" o = VStr t -> ~ is_clock24 (trim t) ->
            openingHoursRule o = Ok None).
  { intros t Ht Hbad. unfold openingHoursRule, timeFormatOk, reject_node. rewrite Ht.
    destruct (negb _ || negb _ || negb _); [reflexivity|]. cbn [as_string mbind result_bind].
    destruct (isValidTimeFormat t) eqn:E; [|reflexivity].
    apply isValidTimeFormat_spec in E. contradiction. }
  assert (Hcloses : forall t, Obj.get "closes" o = VStr t -> ~ is_clock24 (trim t) ->
            openingHoursRule o = Ok None \/
            (openingHoursRule o = Throw /\ as_string (Obj.get "opens" o) = Throw)).
  { intros t Ht Hbad. unfold openingHoursRule, timeFormatOk, reject_node. rewrite Ht.
    destruct (negb _ || negb _ || negb _); [left; reflexivity|].
    destruct (as_string (Obj.get "opens" o)) as [t1| |] eqn:E1; cbn [mbind result_bind].
    - destruct (negb (isValidTimeFormat t1)); [left; reflexivity|].
      cbn [as_string mbind result_bind].
      destruct (isValidTimeFormat t) eqn:E; [|left; reflexivity].
      apply isValidTimeFormat_spec in E. contradiction.
    - right. auto.
    - destruct (Obj.get "opens" o); discriminate E1. }
  split; [|split; [|split]].
  - intros Hmiss. apply cleanObject_rejected. rewrite typeRules_openingHours by exact Htype.
    unfold openingHoursRule.
    destruct (truthy (Obj.get "dayOfWeek" o)), (truthy (Obj.get "opens" o)),
      (truthy (Obj.get "closes" o)); try discriminate Hmiss; reflexivity.
  - intros t Ht _ Hbad. apply cleanObject_rejected.
    rewrite typeRules_openingHours by exact Htype. apply (Hopens t Ht Hbad).
  - intros t Ht _ Hbad. destruct (Hcloses t Ht Hbad) as [E|[E Hno]].
    + left. apply cleanObject_rejected. rewrite typeRules_openingHours by exact Htype.
      exact E.
    + right. split; [|exact Hno]. apply cleanObject_throws.
      rewrite typeRules_openingHours by exact Htype. exact E.
  - intros r Hr Hnull. apply cleanObject_node in Hr.
    destruct Hr as [[_ ->]|(o' & acc & E & _)]; [contradiction|].
    rewrite typeRules_openingHours in E by exact Htype.
    destruct (Hkept o' E) as (Hday & t1 & t2 & H1 & H2 & C1 & C2).
    split; [exact Hday|]. exists t1, t2. auto.
Qed.

(** *** The opening hours typed in the form *)

Lemma all_chars_rev (p : ascii -> bool) (s : string) :
  all_chars p (String.rev s) = all_chars p s.
Proof.
  unfold String.rev.
  assert (H : forall acc, all_chars p (String.rev_app s acc)
                          = all_chars p s && all_chars p acc).
  { induction s as [|c s IH]; intros acc; [reflexivity|].
    cbn [String.rev_app all_chars]. rewrite IH. cbn [all_chars].
    destruct (p c), (all_chars p s), (all_chars p acc); reflexivity. }
  rewrite H. apply andb_true_r.
Qed.

(** The pieces of a split hold no separator, and no character of a kind
    that the text does not hold. *)
Lemma splitOn_no_sep (sep : ascii) (s : string) :
  forall cur x, all_chars (is_not sep) cur = true ->
    In x (splitOn_go sep cur s) -> all_chars (is_not sep) x = true.
Proof.
  induction s as [|c s IH]; intros cur x Hcur Hx; cbn [splitOn_go] in Hx.
  - destruct Hx as [<-|[]]. rewrite all_chars_rev. exact Hcur.
  - destruct (Ascii.eqb c sep) eqn:E.
    + destruct Hx as [<-|Hx]; [rewrite all_chars_rev; exact Hcur|].
      apply (IH "" x eq_refl Hx).
    + apply (IH (String c cur) x); [|exact Hx]. cbn [all_chars]. unfold is_not at 1.
      rewrite E, Hcur. reflexivity.
Qed.

Lemma splitOn_all_chars (p : ascii -> bool) (sep : ascii) (s : string) :
  forall cur x, all_chars p cur = true -> all_chars p s = true ->
    In x (splitOn_go sep cur s) -> all_chars p x = true.
Proof.
  induction s as [|c s IH]; intros cur x Hcur Hs Hx; cbn [splitOn_go] in Hx.
  - destruct Hx as [<-|[]]. rewrite all_chars_rev. exact Hcur.
  - cbn [all_chars] in Hs. apply andb_true_iff in Hs. destruct Hs as [Hc Hs].
    destruct (Ascii.eqb c sep).
    + destruct Hx as [<-|Hx]; [rewrite all_chars_rev; exact Hcur|].
      apply (IH "" x eq_refl Hs Hx).
    + apply (IH (String c cur) x); [|exact Hs|exact Hx]. cbn [all_chars].
      rewrite Hc, Hcur. reflexivity.
Qed.

Lemma all_chars_trim (p : ascii -> bool) (s : string) :
  all_chars p s = true -> all_chars p (trim s) = true.
Proof.
  intros Hs. unfold trim.
  assert (Hstart : all_chars p (trimStart s) = true).
  { induction s as [|c s IH]; [reflexivity|]. cbn [trimStart].
    destruct (is_space c); [|exact Hs]. cbn [all_chars] in Hs.
    apply andb_true_iff in Hs. apply IH, Hs. }
  revert Hstart. generalize (trimStart s). clear s Hs.
  induction s as [|c s IH]; [reflexivity|]. cbn [trimEnd all_chars]. intros H.
  apply andb_true_iff in H. destruct H as [Hc Hs]. specialize (IH Hs).
  destruct (trimEnd s) as [|c' t].
  - destruct (is_space c); [reflexivity|]. cbn [all_chars]. rewrite Hc. reflexivity.
  - cbn [all_chars] in IH |- *. rewrite Hc, IH. reflexivity.
Qed.

(** A time of the 24-hour day holds a colon. *)
Lemma clock24_colon (t : string) : is_clock24 t -> all_chars (is_not ":") t = false.
Proof.
  intros (h & m & _ & _ & [->|[_ ->]]); unfold clock, clock_short;
    rewrite all_chars_app;
    change (":" ++ two_digits m) with (String ":" (two_digits m));
    cbn [all_chars]; apply andb_false_r.
Qed.

(** The opening time of a node built from the form holds no colon. *)
Lemma formHoursLine_opens (line : string) (h : hours) :
  formHoursLine line = Some h -> all_chars (is_not ":") (opens h) = true.
Proof.
  unfold formHoursLine.
  destruct (splitOn ":" line) as [|part0 [|part1 parts]] eqn:Es; try discriminate.
  assert (H1 : all_chars (is_not ":") (trim part1) = true).
  { apply all_chars_trim. apply (splitOn_no_sep ":" line "" part1 eq_refl).
    unfold splitOn in Es. rewrite Es. right. left. reflexivity. }
  cbv zeta.
  destruct (splitOn "-" (trim part1)) as [|o [|c rest]] eqn:Et; cbn [map]; try discriminate.
  destruct (negb (trim o =? "") && negb (trim c =? "")); [|discriminate].
  intros [= <-]. cbn [opens]. apply all_chars_trim.
  apply (splitOn_all_chars _ "-" (trim part1) "" o eq_refl H1).
  unfold splitOn in Et. rewrite Et. left. reflexivity.
Qed.

Lemma hoursNode_rejected (h : hours) (n : nat) :
  isValidTimeFormat (opens h) = false ->
  cleanObject_fuel URL_parses (S n) (hoursNode h) = Some (Ok VNull).
Proof.
  intros Hbad. unfold hoursNode. cbn [cleanObject_fuel].
  rewrite typeRules_openingHours by reflexivity.
  unfold openingHoursRule, timeFormatOk, as_string.
  change (Obj.get "dayOfWeek" _) with (VStr (dayOfWeek h)).
  change (Obj.get "opens" _) with (VStr (opens h)).
  change (Obj.get "closes" _) with (VStr (closes h)).
  destruct (negb _ || negb _ || negb _); [reflexivity|].
  cbn [mbind result_bind]. rewrite Hbad. reflexivity.
Qed.

(** X14: the opening hours typed in the form never reach the document:
    every node that [generateSchema] builds from the business hours has an
    opening time without a colon, cut before the minutes, which
    [isValidTimeFormat] refuses, so [cleanObject] removes each node and
    leaves the list empty. *)
Theorem form_opening_hours_removed (businessHours : string) (nodes : list hours) :
  formOpeningHours businessHours = Some nodes ->
  Forall (fun h => isValidTimeFormat (opens h) = false) nodes /\
  cleanObject URL_parses (VArr (map hoursNode nodes)) = Ok (VArr []).
Proof.
  unfold formOpeningHours. destruct (businessHours =? ""); [discriminate|].
  cbv zeta. intros [= <-].
  set (lines := List.filter _ _).
  assert (Hbad : Forall (fun h => isValidTimeFormat (opens h) = false)
                   (omap formHoursLine lines)).
  { apply Forall_forall. intros h Hh. apply list_elem_of_omap in Hh.
    destruct Hh as (line & _ & Hline). apply formHoursLine_opens in Hline.
    destruct (isValidTimeFormat (opens h)) eqn:E; [|reflexivity].
    apply isValidTimeFormat_spec, clock24_colon in E.
    rewrite all_chars_trim in E by exact Hline. discriminate E. }
  split; [exact Hbad|].
  generalize dependent (omap formHoursLine lines). clear lines. intros nodes Hbad.
  unfold cleanObject.
  change (2 + depth (VArr (map hoursNode nodes)))%nat
    with (S (S (depth (VArr (map hoursNode nodes))))).
  generalize (depth (VArr (map hoursNode nodes))). intros n.
  cbn [cleanObject_fuel]. cbv zeta.
  assert (Hmap : forall f,
            (forall h, isValidTimeFormat (opens h) = false ->
                       f (hoursNode h) = Some (Ok VNull)) ->
            mapF f (map hoursNode nodes) = Some (Ok (map (fun _ => VNull) nodes))).
  { intros f Hf. induction Hbad as [|h l Hh Hl IH]; [reflexivity|].
    cbn [map mapF]. rewrite (Hf h Hh), IH. reflexivity. }
  rewrite Hmap.
  - cbn [next default]. clear. induction nodes as [|h l IH]; [reflexivity|].
    cbn [map List.filter is_nullish orb negb]. exact IH.
  - intros h Hh. cbn [hoursNode is_object]. apply hoursNode_rejected, Hh.
Qed.

End CleanerExtras.

(** ** The opening hours of the page extractor *)

Lemma convertTo24Hour_plain_check :
  all_below 24 (fun h => all_below 60 (fun m =>
    forallb (fun hour =>
      String.eqb (convertTo24Hour (hour ++ ":" ++ two_digits m)) (clock h m))
      (hour_texts h))) = true.
Proof. vm_compute. reflexivity. Qed.

Lemma convertTo24Hour_period_check :
  all_below 13 (fun h => all_below 60 (fun m =>
    forallb (fun hour =>
      forallb (fun pm =>
        forallb (fun period =>
          (h =? 0)%nat ||
          String.eqb (convertTo24Hour (hour ++ ":" ++ two_digits m ++ period))
                     (clock (hour24 h pm) m))
          (period_texts pm)) [false; true]) (hour_texts h))) = true.
Proof. vm_compute. reflexivity. Qed.

(** X15: [convertTo24Hour] is right on every clock time.  A time of the
    12-hour clock, the hour from 1 to 12 written with one or two digits,
    followed by AM or PM (in either case, after a space or not), becomes
    the time of the 24-hour day with two digits for the hour: 12 AM is
    hour 00 and 12 PM is hour 12.  A time without a period keeps its hour
    and gets the two digits. *)
Theorem convertTo24Hour_clock (h m : nat) (hour : string) :
  (m < 60)%nat -> In hour (hour_texts h) ->
  ((h < 24)%nat -> convertTo24Hour (hour ++ ":" ++ two_digits m) = clock h m) /\
  (forall (pm : bool) (period : string),
     (1 <= h <= 12)%nat -> In period (period_texts pm) ->
     convertTo24Hour (hour ++ ":" ++ two_digits m ++ period) = clock (hour24 h pm) m).
Proof.
  intros Hm Hhour. split.
  - intros Hh.
    pose proof (all_below_spec _ _ convertTo24Hour_plain_check h Hh) as H. cbv beta in H.
    pose proof (all_below_spec _ _ H m Hm) as H'. cbv beta in H'.
    rewrite forallb_forall in H'. apply String.eqb_eq, H', Hhour.
  - intros pm period Hh Hperiod.
    pose proof (all_below_spec _ _ convertTo24Hour_period_check h) as H.
    cbv beta in H. specialize (H ltac:(lia)).
    pose proof (all_below_spec _ _ H m Hm) as H'. cbv beta in H'.
    rewrite forallb_forall in H'. specialize (H' hour Hhour).
    rewrite forallb_forall in H'. specialize (H' pm ltac:(destruct pm; cbn; auto)).
    rewrite forallb_forall in H'. specialize (H' period Hperiod).
    apply orb_true_iff in H'. destruct H' as [H'|H'].
    + apply Nat.eqb_eq in H'. lia.
    + apply String.eqb_eq, H'.
Qed.

Lemma indexOf_In (d : string) (l : list string) (i : nat) :
  indexOf d l = Some i -> In d l.
Proof.
  revert i. induction l as [|x l IH]; intros i H; [discriminate H|].
  cbn [indexOf] in H. destruct (String.eqb_spec d x) as [->|_]; [left; reflexivity|].
  destruct (indexOf d l) as [k|]; [|discriminate H]. right. apply (IH k eq_refl).
Qed.

Lemma day_known (s : string) (i : nat) :
  indexOf (default s (dayAbbr !! s)) weekDays = Some i -> In s (weekDays ++ dayAbbrs).
Proof.
  destruct (dayAbbr !! s) as [d|] eqn:E; cbn [default].
  - intros _. apply in_or_app. right. unfold dayAbbr in E.
    apply elem_of_list_to_map_2, list_elem_of_In in E. cbn [In] in E.
    unfold dayAbbrs. cbn [In].
    repeat (destruct E as [E|E]; [injection E as <- _; tauto|]). contradiction.
  - intros H. apply in_or_app. left. apply (indexOf_In _ _ _ H).
Qed.

Lemma getDayRange_check :
  all_below 7 (fun i => all_below 7 (fun j =>
    forallb (fun s => forallb (fun e =>
      bool_decide (getDayRange s e = days_from_to i j)) (day_texts j)) (day_texts i)))
  = true.
Proof. vm_compute. reflexivity. Qed.

(** X16: [getDayRange] reads a day by its full name or by its
    three-letter abbreviation, the first letter a capital, and by nothing
    else: for any other text at either end it returns no day.  From day
    number [i] to day number [j] of the week that begins on Monday it
    returns the days in between, both ends included, and none when [j]
    comes before [i]: a range never wraps around the end of the week. *)
Theorem getDayRange_days :
  (forall s e, getDayRange s e <> [] ->
     In s (weekDays ++ dayAbbrs) /\ In e (weekDays ++ dayAbbrs)) /\
  (forall i j s e, (i < 7)%nat -> (j < 7)%nat ->
     In s (day_texts i) -> In e (day_texts j) ->
     getDayRange s e = days_from_to i j /\
     List.length (getDayRange s e) = (j + 1 - i)%nat).
Proof.
  split.
  - intros s e. unfold getDayRange.
    destruct (indexOf (default s (dayAbbr !! s)) weekDays) as [i|] eqn:Es;
      [|intros H; contradiction].
    destruct (indexOf (default e (dayAbbr !! e)) weekDays) as [j|] eqn:Ee;
      [|intros H; contradiction].
    intros _. split; eapply day_known; eassumption.
  - intros i j s e Hi Hj Hs He.
    pose proof (all_below_spec _ _ getDayRange_check i Hi) as H. cbv beta in H.
    pose proof (all_below_spec _ _ H j Hj) as H'. cbv beta in H'.
    rewrite forallb_forall in H'. specialize (H' s Hs).
    rewrite forallb_forall in H'. specialize (H' e He).
    apply bool_decide_eq_true in H'. split; [exact H'|].
    rewrite H'. unfold days_from_to. rewrite length_map, length_seq. reflexivity.
Qed.

(** *** Letter case *)

Lemma lower_lower (c : ascii) : lower_char (lower_char c) = lower_char c.
Proof. destruct c as [[] [] [] [] [] [] [] []]; reflexivity. Qed.
Lemma lower_upper (c : ascii) : lower_char (upper_char c) = lower_char c.
Proof. destruct c as [[] [] [] [] [] [] [] []]; reflexivity. Qed.
Lemma upper_upper (c : ascii) : upper_char (upper_char c) = upper_char c.
Proof. destruct c as [[] [] [] [] [] [] [] []]; reflexivity. Qed.
Lemma upper_lower (c : ascii) : upper_char (lower_char c) = upper_char c.
Proof. destruct c as [[] [] [] [] [] [] [] []]; reflexivity. Qed.

Lemma toLowerCase_idem (s : string) : toLowerCase (toLowerCase s) = toLowerCase s.
Proof.
  induction s as [|c s IH]; [reflexivity|]. cbn [toLowerCase].
  rewrite lower_lower, IH. reflexivity.
Qed.

Lemma toLowerCase_toUpperCase (s : string) : toLowerCase (toUpperCase s) = toLowerCase s.
Proof.
  induction s as [|c s IH]; [reflexivity|]. cbn [toLowerCase toUpperCase].
  rewrite lower_upper, IH. reflexivity.
Qed.

(** X17: on a text of ASCII characters [capitalize] does not depend on the
    letter case of its argument and is idempotent: the first letter comes
    out as a capital, every other letter in lower case. *)
Theorem capitalize_case (str : string) :
  ascii_only str = true ->
  capitalize (toUpperCase str) = capitalize str /\
  capitalize (toLowerCase str) = capitalize str /\
  capitalize (capitalize str) = capitalize str.
Proof.
  intros _. destruct str as [|c s]; [repeat split|].
  cbn [capitalize toUpperCase toLowerCase].
  rewrite upper_upper, upper_lower, toLowerCase_toUpperCase, toLowerCase_idem.
  repeat split.
Qed.

(** ** Frequently asked questions *)

Section FaqExtras.

Variable URL_parses : string -> bool.

Lemma nonBlank_trim (line : string) : nonBlank line = true -> trim line <> "".
Proof.
  unfold nonBlank. intros H E. rewrite E in H. discriminate H.
Qed.

(** A question with a name and an answer is returned by the cleaner as it
    is. *)
Lemma faqNode_clean (name text : string) :
  name <> "" -> text <> "" ->
  cleanObject URL_parses (faqNode name text) = Ok (faqNode name text).
Proof.
  intros Hn Ht. destruct name as [|c n]; [contradiction|].
  destruct text as [|c' t]; [contradiction|]. vm_compute. reflexivity.
Qed.

Lemma filter_lookup_nonBlank (lines : list string) (index : nat) (a : string) :
  List.filter nonBlank lines !! index = Some a -> trim a <> "".
Proof.
  intros H. apply list_elem_of_lookup_2, list_elem_of_In, filter_In in H.
  apply nonBlank_trim, H.
Qed.

(** X18: for questions and answers of ASCII characters, [processFAQData]
    returns one question for each line of the questions that is not blank,
    in order.  The answer of the question of rank [index] is the trimmed
    line of rank [index] among the lines of the answers that are not
    blank, and the fixed sentence exactly when there is no such line; it is
    never empty.  A question whose name is not empty after the numbering is
    removed is left as it is by [cleanObject]. *)
Theorem processFAQData_answers (questions answers : string) :
  ascii_only questions = true -> ascii_only answers = true ->
  let questionList := List.filter nonBlank (splitLines questions) in
  let answerList := List.filter nonBlank (splitLines answers) in
  List.length (processFAQData questions answers) = List.length questionList /\
  forall index question, questionList !! index = Some question ->
    let name := removeFirst numbering (trim question) in
    let text := match answerList !! index with
                | Some a => trim a
                | None => defaultAnswerText
                end in
    processFAQData questions answers !! index = Some (faqNode name text) /\
    text <> "" /\
    (name <> "" -> cleanObject URL_parses (faqNode name text) = Ok (faqNode name text)).
Proof.
  intros _ _. cbv zeta. unfold processFAQData.
  destruct (String.eqb_spec questions "") as [->|_].
  { split; [reflexivity|]. intros index question H. vm_compute in H.
    destruct index; discriminate H. }
  cbv zeta. split; [apply length_imap|].
  intros index question Hlook. rewrite list_lookup_imap, Hlook.
  cbn [fmap option_fmap option_map].
  assert (Hlist : (if answers =? "" then [] else List.filter nonBlank (splitLines answers))
                  = List.filter nonBlank (splitLines answers)).
  { destruct (String.eqb_spec answers "") as [->|_]; reflexivity. }
  rewrite Hlist.
  assert (Htext : match List.filter nonBlank (splitLines answers) !! index with
                  | Some a => if trim a =? "" then defaultAnswerText else trim a
                  | None => defaultAnswerText
                  end
                  = match List.filter nonBlank (splitLines answers) !! index with
                    | Some a => trim a
                    | None => defaultAnswerText
                    end).
  { destruct (List.filter nonBlank (splitLines answers) !! index) as [a|] eqn:El;
      [|reflexivity].
    apply filter_lookup_nonBlank in El.
    destruct (String.eqb_spec (trim a) "") as [Et|_]; [contradiction|reflexivity]. }
  rewrite Htext. split; [reflexivity|].
  assert (Hne : match List.filter nonBlank (splitLines answers) !! index with
                | Some a => trim a
                | None => defaultAnswerText
                end <> "").
  { destruct (List.filter nonBlank (splitLines answers) !! index) as [a|] eqn:El;
      [apply (filter_lookup_nonBlank _ _ _ El)|discriminate]. }
  split; [exact Hne|]. intros Hname. apply faqNode_clean; assumption.
Qed.

End FaqExtras.

(** ** Meta tags *)

Lemma append_assoc (a b c : string) : (a ++ b) ++ c = a ++ (b ++ c).
Proof.
  induction a as [|x a IH]; [reflexivity|].
  change (String x (a ++ b) ++ c = String x (a ++ (b ++ c))).
  change (String x ((a ++ b) ++ c) = String x (a ++ (b ++ c))). rewrite IH. reflexivity.
Qed.

Lemma prefix_append (b c : string) : String.prefix b (b ++ c) = true.
Proof.
  induction b as [|x b IH]; [destruct c; reflexivity|].
  change (String x b ++ c) with (String x (b ++ c)). cbn [String.prefix].
  destruct (ascii_dec x x); [exact IH|contradiction].
Qed.

Lemma includes_append (a b c : string) : includes (a ++ b ++ c) b = true.
Proof.
  induction a as [|x a IH].
  - change ("" ++ b ++ c) with (b ++ c). destruct (b ++ c) eqn:E; cbn [includes];
      rewrite <- E, prefix_append; reflexivity.
  - change (String x a ++ b ++ c) with (String x (a ++ b ++ c)). cbn [includes].
    rewrite IH. apply orb_true_r.
Qed.

Lemma concat_empty (sep : string) (l : list string) :
  Forall (fun s => s <> "") l -> String.concat sep l = "" -> l = [].
Proof.
  intros Hl H. destruct l as [|x l]; [reflexivity|].
  apply Forall_cons in Hl. destruct Hl as [Hx _].
  destruct x as [|c x]; [contradiction|].
  cbn [String.concat] in H. destruct l; discriminate H.
Qed.

Lemma metaTag_not_empty (name content : string) : metaTag name content <> "".
Proof. discriminate. Qed.

(** X19: [generateLocalSEOMetaTags] returns the empty text exactly when
    none of the seven fields it tags is filled and the two coordinates are
    not both filled; a coordinate alone gives no tag.  The content of a
    field goes into its tag as it is: nothing is escaped, so a description
    stands in the result between two double quotes whatever characters it
    holds. *)
Theorem generateLocalSEOMetaTags_empty (formData : formdata) :
  (generateLocalSEOMetaTags formData = "" <->
   (forall k, In k taggedFields -> filled formData k = false) /\
   filled formData "latitude" && filled formData "longitude" = false) /\
  (forall d, formData !! "description" = Some d -> d <> "" ->
     includes (generateLocalSEOMetaTags formData) (quote ++ d ++ quote) = true).
Proof.
  split.
  - unfold generateLocalSEOMetaTags. split.
    + intros H. apply concat_empty in H.
      * unfold metaTags, tagOf in H.
        repeat match type of H with
               | (?a ++ ?b)%list = [] => apply app_eq_nil in H; destruct H as [? H]
               end.
        split.
        -- unfold taggedFields. intros k Hk. cbn [In] in Hk.
           repeat (destruct Hk as [<-|Hk];
                   [match goal with
                    | |- filled ?fd ?k = false =>
                      destruct (filled fd k); [discriminate|reflexivity]
                    end|]).
           contradiction.
        -- destruct (filled formData "latitude" && filled formData "longitude");
             [discriminate|reflexivity].
      * unfold metaTags, tagOf.
        repeat (apply Forall_app; split);
          repeat match goal with
                 | |- Forall _ (if ?c then _ else _) => destruct c
                 | |- Forall _ (_ :: _) => apply Forall_cons; split;
                                           [apply metaTag_not_empty|]
                 | |- Forall _ [] => apply Forall_nil_2
                 end.
    + intros [Hk Hgeo]. unfold metaTags, tagOf. rewrite Hgeo.
      rewrite !Hk by (unfold taggedFields; cbn [In]; tauto). reflexivity.
  - intros d Hd Hne. destruct (filled_Some _ _ _ Hd Hne) as [F Hfield].
    unfold generateLocalSEOMetaTags, metaTags, tagOf. rewrite F, Hfield.
    cbn [app]. set (rest := (_ ++ _)%list).
    assert (Hshape : exists tail, String.concat newline (metaTag "description" d :: rest)
                                  = ("<meta name=" ++ quote ++ "description" ++ quote
                                     ++ " content=") ++ (quote ++ d ++ quote) ++ tail).
    { unfold metaTag. cbn [String.concat]. destruct rest as [|y rest'].
      - exists ">". rewrite !append_assoc. reflexivity.
      - exists (">" ++ newline ++ String.concat newline (y :: rest')).
        rewrite !append_assoc. reflexivity. }
    destruct Hshape as [tail ->]. apply includes_append.
Qed.

(** ** The shallow validator *)

Section SchemaExtras.

Variable URL_parses : string -> bool.

Import Schema.

Lemma listed_check (c : bool) (msg m : string) :
  In msg schemaMessages -> In m (check c msg) -> listed m.
Proof.
  unfold check. intros Hmsg Hm. destruct c; [|contradiction].
  destruct Hm as [<-|[]]. left. exact Hmsg.
Qed.

Lemma listed_app (a b : list string) (m : string) :
  (In m a -> listed m) -> (In m b -> listed m) -> In m (a ++ b)%list -> listed m.
Proof. intros Ha Hb H. apply in_app_or in H. tauto. Qed.

Local Ltac listed_static :=
  repeat match goal with
         | |- In _ (_ ++ _)%list -> listed _ => apply listed_app
         | |- In _ (check _ _) -> listed _ =>
             apply listed_check; unfold schemaMessages; cbn [In]; tauto
         | |- In _ (if ?c then _ else _) -> listed _ => destruct c
         | |- In _ [] -> _ => intros []
         | |- In ?m [?x] -> listed _ =>
             intros [<-|[]]; left; unfold schemaMessages; cbn [In]; tauto
         end.

Lemma listed_sameAs (urls : list value) (m : string) :
  forall index, In m (sameAsErrors URL_parses index urls) -> listed m.
Proof.
  induction urls as [|url urls IH]; intros index; cbn [sameAsErrors]; [intros []|].
  apply listed_app; [|apply IH].
  unfold check. destruct (negb _); [|intros []].
  intros [<-|[]]. right. exists index. reflexivity.
Qed.

Lemma listed_business (business : value) (found : list string) (m : string) :
  businessErrors URL_parses business = Ok found -> In m found -> listed m.
Proof.
  unfold businessErrors, ratingErrors, geoErrors, emailErrors. cbv zeta.
  destruct (addressWarnings _); cbn [mbind result_bind]; [|discriminate..].
  destruct (truthy (prop business "aggregateRating")); cbn [mbind result_bind].
  1: destruct (toStr (prop (prop business "aggregateRating") "ratingValue")) as [sr| |];
       cbn [mbind result_bind]; [|discriminate..];
     destruct (toStr (prop (prop business "aggregateRating") "reviewCount")) as [sc| |];
       cbn [mbind result_bind]; [|discriminate..].
  all: destruct (truthy (prop business "geo")); cbn [mbind result_bind].
  1, 3: destruct (toStr (prop (prop business "geo") "latitude")) as [slat| |];
       cbn [mbind result_bind]; [|discriminate..];
     destruct (toStr (prop (prop business "geo") "longitude")) as [slng| |];
       cbn [mbind result_bind]; [|discriminate..].
  all: destruct (truthy (prop business "email")); cbn [mbind result_bind].
  1, 3, 5, 7: destruct (toStr (prop business "email")) as [e| |];
       cbn [mbind result_bind]; [|discriminate..].
  all: destruct (priceRangeWarning _); cbn [mbind result_bind]; [|discriminate..].
  all: intros [= <-]; revert m.
  all: intros m; listed_static.
  all: destruct (prop business "sameAs"); try (intros []); apply listed_sameAs.
Qed.

Lemma not_sameAs_business : ~ listed "Business entity is missing".
Proof.
  intros [H|[index H]].
  - unfold schemaMessages in H. cbn [In] in H.
    repeat (destruct H as [H|H]; [discriminate H|]). contradiction.
  - discriminate H.
Qed.

(** X20: the messages of [validateSchema] for an object are the eighteen
    of the list, or the message of the loop over [sameAs] with the
    index of an entry; the message "Business entity is missing" is never
    among them: the test before it cannot succeed, since the entity is
    the document itself or a main entity that has been seen to be there. *)
Theorem validateSchema_messages (schema : value) (r : report) (m : string) :
  validateSchema URL_parses schema = Ok r -> is_object schema = true ->
  In m (errors r) ->
  (In m schemaMessages \/ sameAsMessage m) /\ m <> "Business entity is missing".
Proof.
  intros H Hobj Hm.
  assert (Hl : listed m).
  { unfold validateSchema in H. rewrite Hobj in H.
    assert (Ht : truthy schema = true) by (destruct schema; try discriminate; reflexivity).
    rewrite Ht in H. cbn [negb orb] in H. cbv zeta in H.
    set (head := (check _ "Missing @context property" ++ _)%list) in H.
    set (tail := ((if is_string _ "Article" then _ else _) ++ _)%list) in H.
    assert (Hhead : In m head -> listed m).
    { subst head. unfold webPageErrors. listed_static. }
    assert (Htail : In m tail -> listed m).
    { subst tail. unfold articleErrors, howToErrors. listed_static. }
    destruct (includes_type validateSchema_businessTypes (prop schema "@type")
              || _) eqn:Hb.
    - destruct (is_string (prop schema "@type") "WebPage") eqn:Hw.
      + (* a page: the main entity has been seen *)
        assert (Hmain : truthy (prop schema "mainEntity") = true).
        { apply orb_true_iff in Hb. destruct Hb as [Hb|Hb].
          - exfalso. destruct (prop schema "@type") as [| | | |t| |]; try discriminate Hw.
            cbn [is_string] in Hw. apply String.eqb_eq in Hw. subst t.
            vm_compute in Hb. discriminate Hb.
          - apply andb_true_iff in Hb. apply Hb. }
        rewrite Hmain in H. cbn [negb] in H.
        destruct (businessErrors URL_parses (prop schema "mainEntity")) as [found| |] eqn:Ef;
          cbn [mbind result_bind] in H; [|discriminate H..].
        injection H as <-. cbn [errors] in Hm.
        revert Hm. apply listed_app; [exact Hhead|].
        apply listed_app; [apply (listed_business _ _ _ Ef)|exact Htail].
      + rewrite Ht in H. cbn [negb] in H.
        destruct (businessErrors URL_parses schema) as [found| |] eqn:Ef;
          cbn [mbind result_bind] in H; [|discriminate H..].
        injection H as <-. cbn [errors] in Hm.
        revert Hm. apply listed_app; [exact Hhead|].
        apply listed_app; [apply (listed_business _ _ _ Ef)|exact Htail].
    - injection H as <-. cbn [errors] in Hm. revert Hm.
      apply listed_app; assumption. }
  split; [exact Hl|]. intros ->. apply not_sameAs_business, Hl.
Qed.

Lemma check_nil (c : bool) (msg : string) : check c msg = [] -> c = false.
Proof. unfold check. destruct c; [discriminate|reflexivity]. Qed.







(** X25: [validateSchema] asks a name of an entity of every one of its
    eight business types, [HVACBusiness] included: a document of such a
    type without a name is reported, with the message of the missing name,
    and is not valid. *)
Theorem validateSchema_business_name (o : Obj.t) (r : report) :
  includes_type validateSchema_businessTypes (Obj.get "@type" o) = true ->
  truthy (Obj.get "name" o) = false ->
  validateSchema URL_parses (VObj o) = Ok r ->
  In "Business schema missing name property" (errors r) /\ isValid r = false.
Proof.
  intros Htype Hname H. unfold validateSchema in H.
  cbn [truthy is_object negb orb prop] in H. cbv zeta in H.
  rewrite Htype in H. cbn [orb] in H.
  assert (Hw : is_string (Obj.get "@type" o) "WebPage" = false).
  { destruct (Obj.get "@type" o) as [| | | |t| |]; try reflexivity.
    cbn [is_string]. destruct (String.eqb_spec t "WebPage") as [->|]; [|reflexivity].
    vm_compute in Htype. discriminate Htype. }
  rewrite Hw in H. cbn [truthy negb] in H.
  destruct (businessErrors URL_parses (VObj o)) as [found| |] eqn:Ef;
    cbn [mbind result_bind] in H; [|discriminate H..].
  injection H as <-. cbn [errors isValid].
  assert (Hin : In "Business schema missing name property" found).
  { unfold businessErrors in Ef. cbv zeta in Ef. cbn [prop] in Ef.
    rewrite Hname in Ef. cbn [negb check] in Ef.
    destruct (addressWarnings _); cbn [mbind result_bind] in Ef; [|discriminate Ef..].
    destruct (ratingErrors _); cbn [mbind result_bind] in Ef; [|discriminate Ef..].
    destruct (geoErrors _); cbn [mbind result_bind] in Ef; [|discriminate Ef..].
    destruct (emailErrors _); cbn [mbind result_bind] in Ef; [|discriminate Ef..].
    destruct (priceRangeWarning _); cbn [mbind result_bind] in Ef; [|discriminate Ef..].
    injection Ef as <-. left. reflexivity. }
  set (errs := (_ ++ found ++ _)%list).
  assert (Herrs : In "Business schema missing name property" errs).
  { subst errs. apply in_or_app. right. apply in_or_app. left. exact Hin. }
  split; [exact Herrs|]. destruct errs; [destruct Herrs|reflexivity].
Qed.

(** X26: a document that [validateSchema] accepts is an object with a
    context and a type.  If it is a page it has an address on the web that
    [isValidUrl] accepts and a name, of its own or of its main entity; if
    it is an article it has a headline, an author and a publisher with a
    name each and a date of publication; if it is a how-to it has a name
    and a step at least. *)
Theorem validateSchema_accepts (schema : value) (r : report) :
  validateSchema URL_parses schema = Ok r -> isValid r = true ->
  is_object schema = true /\
  truthy (prop schema "@context") = true /\ truthy (prop schema "@type") = true /\
  (is_string (prop schema "@type") "WebPage" = true ->
   truthy (prop schema "url") = true /\
   isValidUrlV URL_parses (prop schema "url") = true /\
   truthy (prop schema "name") || truthy (prop (prop schema "mainEntity") "name") = true) /\
  (is_string (prop schema "@type") "Article" = true ->
   truthy (prop schema "headline") = true /\
   truthy (prop (prop schema "author") "name") = true /\
   truthy (prop (prop schema "publisher") "name") = true /\
   truthy (prop schema "datePublished") = true) /\
  (is_string (prop schema "@type") "HowTo" = true ->
   truthy (prop schema "name") = true /\
   exists step steps, prop schema "step" = VArr (step :: steps)).
Proof.
  intros H Hvalid. unfold validateSchema in H.
  destruct (negb (truthy schema) || negb (is_object schema)) eqn:Hobj.
  { injection H as <-. discriminate Hvalid. }
  apply orb_false_iff in Hobj. destruct Hobj as [_ Hobj]. apply negb_false_iff in Hobj.
  cbv zeta in H.
  set (head := (check _ "Missing @context property" ++ _)%list) in H.
  set (tail := ((if is_string _ "Article" then _ else _) ++ _)%list) in H.
  assert (Hnil : head = [] /\ tail = []).
  { destruct (includes_type validateSchema_businessTypes (prop schema "@type") || _).
    - destruct (negb (truthy (if is_string (prop schema "@type") "WebPage"
                              then prop schema "mainEntity" else schema))).
      + injection H as <-. discriminate Hvalid.
      + destruct (businessErrors URL_parses _) as [found| |];
          cbn [mbind result_bind] in H; [|discriminate H..].
        injection H as <-. cbn [isValid] in Hvalid.
        destruct (head ++ found ++ tail)%list eqn:E; [|discriminate Hvalid].
        apply app_eq_nil in E. destruct E as [E1 E2].
        apply app_eq_nil in E2. tauto.
    - injection H as <-. cbn [isValid] in Hvalid.
      destruct (head ++ tail)%list eqn:E; [|discriminate Hvalid].
      apply app_eq_nil in E. exact E. }
  destruct Hnil as [Hhead Htail]. subst head tail. clear H Hvalid.
  apply app_eq_nil in Hhead. destruct Hhead as [Hctx Hhead].
  apply app_eq_nil in Hhead. destruct Hhead as [Hty Hpage].
  apply app_eq_nil in Htail. destruct Htail as [Harticle Hhowto].
  apply check_nil, negb_false_iff in Hctx. apply check_nil, negb_false_iff in Hty.
  split; [exact Hobj|]. split; [exact Hctx|]. split; [exact Hty|].
  split; [|split].
  - intros Hw. rewrite Hw in Hpage. unfold webPageErrors in Hpage.
    apply app_eq_nil in Hpage. destruct Hpage as [Hurl Hname].
    apply check_nil in Hname.
    destruct (truthy (prop schema "url")); cbn [negb] in Hurl; [|discriminate Hurl].
    destruct (isValidUrlV URL_parses (prop schema "url")); cbn [negb] in Hurl;
      [|discriminate Hurl].
    split; [reflexivity|]. split; [reflexivity|].
    destruct (truthy (prop schema "name")), (truthy (prop (prop schema "mainEntity") "name"));
      try reflexivity; discriminate Hname.
  - intros Ha. rewrite Ha in Harticle. unfold articleErrors in Harticle.
    apply app_eq_nil in Harticle. destruct Harticle as [H1 Harticle].
    apply app_eq_nil in Harticle. destruct Harticle as [H2 Harticle].
    apply app_eq_nil in Harticle. destruct Harticle as [H3 H4].
    apply check_nil in H1, H2, H3, H4.
    apply negb_false_iff in H1, H4.
    apply orb_false_iff in H2, H3. destruct H2 as [_ H2]. destruct H3 as [_ H3].
    apply negb_false_iff in H2, H3. auto.
  - intros Hh. rewrite Hh in Hhowto. unfold howToErrors in Hhowto.
    apply app_eq_nil in Hhowto. destruct Hhowto as [H1 H2].
    apply check_nil in H1, H2. apply negb_false_iff in H1. split; [exact H1|].
    destruct (prop schema "step") as [| | | | |[|step steps]|]; try discriminate H2.
    eauto.
Qed.

End SchemaExtras.

(** ** The matcher, with its captures *)

Section MatcherRuns.

Lemma rep_sound {A : Type} (p : ascii -> bool) (lo : nat) (hi : option nat)
    (k : mstate -> option A) (caps : list (nat * string)) (x : A) :
  forall s n prev,
    (forall h, hi = Some h -> (n <= h)%nat) ->
    rep p lo hi n prev s caps k = Some x ->
    exists a s', s = a ++ s' /\ all_chars p a = true /\ (lo <= n + String.length a)%nat /\
                 (forall h, hi = Some h -> (n + String.length a <= h)%nat) /\
                 k (MState (prev_after prev a) s' caps) = Some x.
Proof.
  induction s as [|c s IH]; intros n prev Hn H; cbn [rep] in H.
  - destruct (lo <=? n)%nat eqn:E; [|discriminate H]. apply Nat.leb_le in E.
    exists "", "". cbn [String.length]. rewrite Nat.add_0_r. repeat split; auto.
  - assert (Hstop : (if (lo <=? n)%nat then k (MState prev (String c s) caps) else None)
                    = Some x ->
              exists a s', String c s = a ++ s' /\ all_chars p a = true /\
                (lo <= n + String.length a)%nat /\
                (forall h, hi = Some h -> (n + String.length a <= h)%nat) /\
                k (MState (prev_after prev a) s' caps) = Some x).
    { intros H'. destruct (lo <=? n)%nat eqn:E; [|discriminate H'].
      apply Nat.leb_le in E. exists "", (String c s). cbn [String.length].
      rewrite Nat.add_0_r. repeat split; auto. }
    destruct (p c && below n hi) eqn:Hc; [|auto].
    destruct (rep p lo hi (S n) (Some c) s caps k) as [y|] eqn:Hr; [|auto].
    injection H as ->. apply andb_true_iff in Hc. destruct Hc as [Hp Hb].
    assert (Hn' : forall h, hi = Some h -> (S n <= h)%nat).
    { intros h ->. cbn [below] in Hb. apply Nat.ltb_lt in Hb. lia. }
    destruct (IH (S n) (Some c) Hn' Hr) as (a & s' & Hs & Ha & Hlo & Hhi & Hk).
    exists (String c a), s'. subst s. repeat split.
    + cbn [all_chars]. rewrite Hp, Ha. reflexivity.
    + cbn [String.length]. lia.
    + intros h Hh. specialize (Hhi h Hh). cbn [String.length]. lia.
    + rewrite prev_after_cons. exact Hk.
Qed.

(** A success of the matcher is a run of the pattern followed by a
    success of the continuation. *)
Lemma rmatch_sound {A : Type} (r : regex) :
  forall (k : mstate -> option A) (st : mstate) (x : A),
    rmatch r st k = Some x -> exists st', run r st st' /\ k st' = Some x.
Proof.
  induction r as [q|q lo hi| |a IHa b IHb|a IHa b IHb|i a IHa| | |];
    intros k st x H; cbn [rmatch] in H; cbn [run].
  - destruct (m_rest st) as [|c s] eqn:Es; [discriminate H|].
    destruct (q c) eqn:Hq; [|discriminate H]. eauto 10.
  - apply rep_sound in H; [|intros; lia].
    destruct H as (a & s' & Hs & Ha & Hlo & Hhi & Hk). eauto 12.
  - eauto.
  - apply IHa in H. destruct H as (mid & Ha & H). apply IHb in H.
    destruct H as (st' & Hb & H). eauto.
  - destruct (rmatch a st k) as [y|] eqn:Ea.
    + injection H as ->. apply IHa in Ea. destruct Ea as (st' & Ha & H). eauto.
    + apply IHb in H. destruct H as (st' & Hb & H). eauto.
  - apply IHa in H. destruct H as (mid & Ha & H). eauto.
  - destruct (xorb _ _) eqn:Hx; [|discriminate H]. eauto.
  - destruct (m_prev st) eqn:Hp; [discriminate H|]. eauto.
  - destruct (m_rest st) eqn:Hs; [|discriminate H]. eauto.
Qed.

(** A run without its captures. *)
Lemma run_matches (r : regex) :
  forall st st', run r st st' ->
    matches r (m_prev st) (m_rest st) (m_prev st') (m_rest st').
Proof.
  induction r as [q|q lo hi| |a IHa b IHb|a IHa b IHb|i a IHa| | |];
    intros st st' H; cbn [run] in H; cbn [matches].
  - destruct H as (c & s' & Hs & Hq & ->). exists c. auto.
  - destruct H as (a & s' & Hs & Ha & Hlo & Hhi & ->). exists a. auto.
  - subst st'. auto.
  - destruct H as (mid & Ha & Hb). exists (m_prev mid), (m_rest mid). auto.
  - destruct H as [H|H]; auto.
  - destruct H as (mid & Ha & ->). apply (IHa _ _ Ha).
  - destruct H as [-> Hx]. unfold word_before, word_after in *. auto.
  - destruct H as [-> Hp]. auto.
  - destruct H as [-> Hs]. auto.
Qed.

(** What is matched is a prefix of the input. *)
Lemma matches_prefix (r : regex) :
  forall p s q s', matches r p s q s' -> exists m, s = m ++ s'.
Proof.
  induction r as [q0|q0 lo hi| |a IHa b IHb|a IHa b IHb|i a IHa| | |];
    intros p s q s' H; cbn [matches] in H.
  - destruct H as (c & -> & _). exists (String c ""). reflexivity.
  - destruct H as (a & -> & _). exists a. reflexivity.
  - destruct H as [_ ->]. exists "". reflexivity.
  - destruct H as (q1 & t & Ha & Hb). apply IHa in Ha. apply IHb in Hb.
    destruct Ha as [m1 ->]. destruct Hb as [m2 ->]. exists (m1 ++ m2).
    symmetry. apply append_assoc.
  - destruct H as [H|H]; eauto.
  - eauto.
  - destruct H as (_ & -> & _). exists "". reflexivity.
  - destruct H as (_ & -> & _). exists "". reflexivity.
  - destruct H as (_ & -> & _). exists "". reflexivity.
Qed.

Lemma consumed_append (m s' : string) : consumed (m ++ s') s' = m.
Proof.
  unfold consumed. rewrite length_append.
  replace (String.length m + String.length s' - String.length s')%nat
    with (String.length m) by lia.
  apply take_append.
Qed.

(** The first match of a search is a match at some position. *)
Lemma first_match_run (r : regex) :
  forall s f, first_match r s = Some f ->
  exists p t st', run r (MState p t []) st' /\
    t = f_text f ++ f_rest f /\ m_rest st' = f_rest f /\ m_prev st' = f_prev f /\
    m_caps st' = f_caps f.
Proof.
  intros s. unfold first_match.
  apply (search_found r (fun f => exists p t st', run r (MState p t []) st' /\
           t = f_text f ++ f_rest f /\ m_rest st' = f_rest f /\ m_prev st' = f_prev f /\
           m_caps st' = f_caps f)).
  clear s. intros prev s f H. unfold match_here in H. apply rmatch_sound in H.
  destruct H as (st' & Hrun & H). injection H as <-. cbn [f_text f_rest f_prev f_caps].
  exists prev, s, st'. split; [exact Hrun|].
  apply run_matches, matches_prefix in Hrun. cbn [m_rest] in Hrun.
  destruct Hrun as [m ->]. rewrite consumed_append. auto.
Qed.

End MatcherRuns.

(** ** Patterns whose matches are words: the postal codes *)

Section WordPatterns.

Lemma forall_ascii_spec (f : ascii -> bool) :
  forall_ascii f = true -> forall c, f c = true.
Proof.
  unfold forall_ascii. rewrite forallb_forall. intros H c.
  rewrite <- (ascii_nat_embedding c). apply H, in_seq.
  pose proof (nat_ascii_bounded c). lia.
Qed.

Lemma word_class_spec (p : ascii -> bool) (c : ascii) :
  word_class p = true -> p c = true -> is_word c = true.
Proof.
  unfold word_class. intros H Hp. apply forall_ascii_spec with (c := c) in H.
  rewrite Hp in H. exact H.
Qed.

Lemma word_not_space (c : ascii) : is_word c = true -> is_space c = false.
Proof.
  intros H.
  pose proof (forall_ascii_spec (fun c => implb (is_word c) (negb (is_space c)))
                ltac:(vm_compute; reflexivity) c) as Hc.
  cbv beta in Hc. rewrite H in Hc. apply negb_true_iff in Hc. exact Hc.
Qed.

Lemma prev_after_app (p : option ascii) (a b : string) :
  prev_after p (a ++ b) = prev_after (prev_after p a) b.
Proof.
  revert p. induction a as [|c a IH]; intros p.
  - rewrite prev_after_nil. reflexivity.
  - change (String c a ++ b) with (String c (a ++ b)).
    rewrite !prev_after_cons. apply IH.
Qed.

Lemma prev_after_last (m : string) : prev_after None m = last_char m.
Proof. unfold prev_after. destruct (last_char m); reflexivity. Qed.

Lemma last_char_append (a b : string) :
  last_char (a ++ b) = match last_char b with Some c => Some c | None => last_char a end.
Proof.
  rewrite <- (prev_after_last (a ++ b)), prev_after_app. unfold prev_after at 1.
  rewrite (prev_after_last a). reflexivity.
Qed.

Lemma all_chars_last (p : ascii -> bool) (a : string) (c : ascii) :
  all_chars p a = true -> last_char a = Some c -> p c = true.
Proof.
  induction a as [|x a IH]; [discriminate|]. cbn [all_chars last_char].
  intros H Hl. apply andb_true_iff in H. destruct H as [Hx Ha].
  destruct a as [|y a]; [injection Hl as <-; exact Hx|]. apply (IH Ha Hl).
Qed.

Lemma starts_word_append (a b : string) :
  starts_word a -> (a = "" -> starts_word b) -> starts_word (a ++ b).
Proof.
  destruct a as [|c a]; intros Ha Hb; [apply Hb; reflexivity|exact Ha].
Qed.

Lemma ends_word_append (a b : string) :
  ends_word b -> (b = "" -> ends_word a) -> ends_word (a ++ b).
Proof.
  unfold ends_word. rewrite last_char_append. intros Hb Ha.
  destruct (last_char b) eqn:E; [exact Hb|].
  apply Ha. apply last_char_none, E.
Qed.

Lemma append_is_empty (a b : string) : a ++ b = "" -> a = "" /\ b = "".
Proof. destruct a; [auto|discriminate]. Qed.

(** A match of a pattern without anchors does not depend on what stands
    around it. *)
Lemma relocate (r : regex) :
  anchor_free r = true ->
  forall p s q s', matches r p s q s' ->
    exists m, s = m ++ s' /\ q = prev_after p m /\
      (forall p0 t, matches r p0 (m ++ t) (prev_after p0 m) t) /\
      (nonempty r = true -> m <> "") /\
      (head_ok r = true -> starts_word m) /\
      (tail_ok r = true -> ends_word m).
Proof.
  induction r as [q0|q0 lo hi| |a IHa b IHb|a IHa b IHb|i a IHa| | |];
    intros Hfree p s q s' H; cbn [anchor_free] in Hfree; try discriminate Hfree;
    cbn [matches] in H; cbn [nonempty head_ok tail_ok].
  - destruct H as (c & -> & Hc & ->). exists (String c "").
    split; [reflexivity|]. split; [reflexivity|]. split.
    { intros p0 t. cbn [matches]. exists c. auto. }
    split; [discriminate|].
    split; intros Hw; [|unfold ends_word; cbn [last_char]];
      apply (word_class_spec q0 c Hw Hc).
  - destruct H as (a & -> & Ha & Hlo & Hhi & ->). exists a.
    split; [reflexivity|]. split; [reflexivity|]. split.
    { intros p0 t. cbn [matches]. exists a. auto. }
    split.
    { intros H1 ->. apply Nat.leb_le in H1. cbn [String.length] in Hlo. lia. }
    split; intros Hw.
    + destruct a as [|c a]; [exact I|]. cbn [starts_word all_chars] in *.
      apply andb_true_iff in Ha. apply (word_class_spec q0 c Hw), Ha.
    + unfold ends_word. destruct (last_char a) as [c|] eqn:El; [|exact I].
      apply (word_class_spec q0 c Hw), (all_chars_last _ _ _ Ha El).
  - destruct H as [-> ->]. exists "".
    split; [reflexivity|]. split; [symmetry; apply prev_after_nil|]. split.
    { intros p0 t. cbn [matches]. rewrite prev_after_nil. auto. }
    split; [discriminate|]. split; intros _; exact I.
  - apply andb_true_iff in Hfree. destruct Hfree as [Fa Fb].
    destruct H as (q1 & t1 & Ha & Hb).
    destruct (IHa Fa _ _ _ _ Ha) as (m1 & -> & -> & Ra & Na & Ha1 & Ta).
    destruct (IHb Fb _ _ _ _ Hb) as (m2 & -> & -> & Rb & Nb & Hb1 & Tb).
    exists (m1 ++ m2).
    split; [symmetry; apply append_assoc|].
    split; [symmetry; apply prev_after_app|]. split.
    { intros p0 t. cbn [matches]. exists (prev_after p0 m1), (m2 ++ t).
      rewrite append_assoc, prev_after_app. auto. }
    split.
    { intros Hn E. apply append_is_empty in E. destruct E as [E1 E2].
      apply orb_true_iff in Hn. destruct Hn as [Hn|Hn]; [apply (Na Hn E1)|apply (Nb Hn E2)]. }
    split; intros Hw; apply andb_true_iff in Hw; destruct Hw as [Hw1 Hw2].
    + apply starts_word_append; [apply Ha1, Hw1|]. intros E.
      apply orb_true_iff in Hw2. destruct Hw2 as [Hn|Hh]; [contradiction (Na Hn E)|].
      apply Hb1, Hh.
    + apply ends_word_append; [apply Tb, Hw1|]. intros E.
      apply orb_true_iff in Hw2. destruct Hw2 as [Hn|Hh]; [contradiction (Nb Hn E)|].
      apply Ta, Hh.
  - apply andb_true_iff in Hfree. destruct Hfree as [Fa Fb].
    destruct H as [H|H];
      [destruct (IHa Fa _ _ _ _ H) as (m & Hs & Hq & R & N & Hh & T)
      |destruct (IHb Fb _ _ _ _ H) as (m & Hs & Hq & R & N & Hh & T)];
      exists m; (split; [exact Hs|]); (split; [exact Hq|]);
      (split; [intros p0 t; cbn [matches]; auto|]);
      (split; [intros Hn; apply andb_true_iff in Hn; apply N, Hn|]);
      (split; intros Hw; apply andb_true_iff in Hw; [apply Hh, Hw|apply T, Hw]).
  - destruct (IHa Hfree _ _ _ _ H) as (m & Hs & Hq & R & N & Hh & T).
    exists m. auto 10.
Qed.

Lemma append_cancel (a b s : string) : a ++ s = b ++ s -> a = b.
Proof.
  intros H. rewrite <- (consumed_append a s), <- (consumed_append b s), H. reflexivity.
Qed.

(** A match of a pattern of words between two word boundaries is, on its
    own, a text without white space around it that the pattern matches
    again. *)
Lemma bounded_alone (body : regex) (p : option ascii) (m rest : string)
    (q : option ascii) :
  wordy body = true -> matches (bounded body) p (m ++ rest) q rest ->
  m <> "" /\ trim m = m /\ test (bounded body) m = true.
Proof.
  unfold wordy. intros Hw H.
  apply andb_true_iff in Hw. destruct Hw as [Hw Ht].
  apply andb_true_iff in Hw. destruct Hw as [Hw Hh].
  apply andb_true_iff in Hw. destruct Hw as [Hf Hn].
  unfold bounded in H. cbn [matches] in H.
  destruct H as (q0 & t0 & (-> & -> & _) & q1 & t1 & Hb & (-> & -> & _)).
  destruct (relocate body Hf _ _ _ _ Hb) as (m' & Hs & _ & R & N & Hs' & He).
  apply append_cancel in Hs. subst m'.
  specialize (N Hn). specialize (Hs' Hh). specialize (He Ht).
  destruct m as [|c m0]; [contradiction|]. cbn [starts_word] in Hs'.
  unfold ends_word in He.
  destruct (last_char (String c m0)) as [cl|] eqn:El;
    [|destruct (last_char_cons c m0) as [x Hx]; congruence].
  split; [discriminate|]. split.
  - apply (trim_fixed c cl m0); [apply word_not_space, Hs'|exact El|apply word_not_space, He].
  - apply test_matches. exists "", (String c m0), (Some cl), "".
    split; [reflexivity|]. unfold bounded. cbn [matches last_char].
    exists None, (String c m0). split.
    { repeat split. unfold word_before, word_after. cbn [m_prev m_rest].
      rewrite Hs'. reflexivity. }
    exists (Some cl), "". split.
    { specialize (R None ""). rewrite append_empty, prev_after_last, El in R. exact R. }
    repeat split. unfold word_before, word_after. cbn [m_prev m_rest].
    rewrite He. reflexivity.
Qed.

Lemma seq_snoc (l : list regex) (x : regex) :
  l <> [] ->
  forall p s q s',
    matches (seq (l ++ [x])) p s q s' <-> matches (RSeq (seq l) x) p s q s'.
Proof.
  induction l as [|y l IH]; [contradiction|]. intros _.
  destruct l as [|y' l']; [reflexivity|].
  intros p s q s'.
  change (seq ((y :: y' :: l') ++ [x])) with (RSeq y (seq ((y' :: l') ++ [x]))).
  change (seq (y :: y' :: l')) with (RSeq y (seq (y' :: l'))).
  cbn [matches]. split.
  - intros (q1 & t1 & Hy & H). apply IH in H; [|discriminate]. cbn [matches] in H.
    destruct H as (q2 & t2 & Hl & Hx). exists q2, t2. split; [|exact Hx].
    exists q1, t1. auto.
  - intros (q2 & t2 & (q1 & t1 & Hy & Hl) & Hx). exists q1, t1. split; [exact Hy|].
    apply IH; [discriminate|]. cbn [matches]. exists q2, t2. auto.
Qed.

Lemma bounded_seq (l : list regex) :
  l <> [] ->
  forall p s q s',
    matches (seq (RBow :: l ++ [RBow])) p s q s' <-> matches (bounded (seq l)) p s q s'.
Proof.
  intros Hl p s q s'. destruct l as [|y l]; [contradiction|].
  change (seq (RBow :: (y :: l) ++ [RBow])) with (RSeq RBow (seq ((y :: l) ++ [RBow]))).
  unfold bounded. cbn [matches]. split.
  - intros (q0 & t0 & H0 & H). apply seq_snoc in H; [|discriminate]. eauto.
  - intros (q0 & t0 & H0 & H). exists q0, t0. split; [exact H0|].
    apply seq_snoc; [discriminate|exact H].
Qed.

(** Every postal pattern is a pattern of words between two word
    boundaries. *)
Lemma ownPattern_bounded (country : string) :
  exists l, l <> [] /\ ownPattern country = seq (RBow :: l ++ [RBow]) /\
            wordy (seq l) = true.
Proof.
  assert (HUS : exists l, l <> [] /\ postal_US = seq (RBow :: l ++ [RBow]) /\
                          wordy (seq l) = true).
  { exists [times is_digit 5; opt (RGrp 1 (seq [chr "-"; times is_digit 4]))].
    split; [discriminate|]. split; [reflexivity|vm_compute; reflexivity]. }
  unfold ownPattern. destruct (postalCodePatterns !! country) as [r|] eqn:E;
    [|exact HUS].
  cbn [default]. unfold postalCodePatterns in E.
  apply elem_of_list_to_map_2, list_elem_of_In in E. cbn [In] in E.
  destruct E as [E|[E|[E|[E|[E|[E|[]]]]]]]; injection E as _ <-.
  - exact HUS.
  - exists [RChr is_alpha; RChr is_digit; RChr is_alpha; star is_space;
            RChr is_digit; RChr is_alpha; RChr is_digit].
    split; [discriminate|]. split; [reflexivity|vm_compute; reflexivity].
  - exists [RRep is_alpha 1 (Some 2); RChr is_digit; RRep alnum 0 (Some 1);
            star is_space; RChr is_digit; times is_alpha 2].
    split; [discriminate|]. split; [reflexivity|vm_compute; reflexivity].
  - exists [times is_digit 4].
    split; [discriminate|]. split; [reflexivity|vm_compute; reflexivity].
  - exists [times is_digit 5].
    split; [discriminate|]. split; [reflexivity|vm_compute; reflexivity].
  - exists [times is_digit 5].
    split; [discriminate|]. split; [reflexivity|vm_compute; reflexivity].
Qed.

Lemma extractPostalCode_plain (text country : string) :
  plain country ->
  extractPostalCode text country =
  Ok (if text =? "" then None else firstTrimmed (ownPattern country) text).
Proof.
  intros H. unfold extractPostalCode, ownPattern. rewrite (literal_get_plain _ _ H).
  destruct (text =? ""); [reflexivity|].
  destruct (postalCodePatterns !! country); reflexivity.
Qed.

(** X22: for a country that names no built-in member and an ASCII text, a
    postal code that [extractPostalCode] finds in the text is never empty,
    has no white space around it and is accepted by [isValidPostalCode]
    for the same country: the validation that follows the extraction in
    the rule of an address never removes such a code.  For the country
    [__proto__] the extracted code can be empty and the validation
    throws. *)
Theorem extractPostalCode_valid (text country code : string) :
  plain country -> ascii_only text = true ->
  extractPostalCode text country = Ok (Some code) ->
  code <> "" /\ trim code = code /\ isValidPostalCode code country = Ok true.
Proof.
  intros Hplain _. rewrite (extractPostalCode_plain _ _ Hplain).
  unfold isValidPostalCode. rewrite (postalPattern_plain _ Hplain).
  destruct (text =? ""); [discriminate|]. unfold firstTrimmed.
  destruct (first_match (ownPattern country) text) as [f|] eqn:Ef; [|discriminate].
  intros [= <-].
  destruct (ownPattern_bounded country) as (l & Hl & Hp & Hw).
  rewrite Hp in *. apply first_match_run in Ef.
  destruct Ef as (p & t & st' & Hrun & -> & Hrest & _).
  apply run_matches in Hrun. cbn [m_prev m_rest] in Hrun. rewrite Hrest in Hrun.
  apply (bounded_seq l Hl) in Hrun.
  destruct (bounded_alone _ _ _ _ _ Hw Hrun) as (Hne & Htrim & Htest).
  rewrite Htrim. split; [exact Hne|]. split; [exact Htrim|].
  destruct (String.eqb_spec (f_text f) "") as [E|_]; [contradiction|].
  f_equal. apply test_matches. apply test_matches in Htest.
  destruct Htest as (pre & post & q & s' & Hs & Hm).
  exists pre, post, q, s'. split; [exact Hs|]. apply (bounded_seq l Hl), Hm.
Qed.

Example extractPostalCode_prototype :
  extractPostalCode " 12345" "__proto__" = Ok (Some "") /\
  isValidPostalCode "12345" "__proto__" = Throw /\
  extractPostalCode " 12345" "constructor" = Outside.
Proof. vm_compute. auto. Qed.

End WordPatterns.

(** ** The days of the extracted opening hours *)

Section ExtractedDays.

Lemma exec_all_found (r : regex) (P : found -> Prop) :
  (forall prev s f, match_here r prev s = Some f -> P f) ->
  forall fuel prev s f, In f (exec_all fuel r prev s) -> P f.
Proof.
  intros HP. induction fuel as [|fuel IH]; intros prev s f; cbn [exec_all]; [intros []|].
  destruct (search r prev s) as [g|] eqn:E; [|intros []].
  pose proof (search_found r P HP _ _ _ E) as Hg.
  destruct (f_text g); cbn [In].
  - intros [<-|[]]. exact Hg.
  - intros [<-|H]; [exact Hg|apply (IH _ _ _ H)].
Qed.

(** A run adds captures of the groups of the pattern only. *)
Lemma run_caps (r : regex) :
  forall st st', run r st st' ->
    exists new, m_caps st' = (new ++ m_caps st)%list /\
                Forall (fun e => In (fst e) (groups r)) new.
Proof.
  induction r as [q|q lo hi| |a IHa b IHb|a IHa b IHb|i a IHa| | |];
    intros st st' H; cbn [run] in H; cbn [groups].
  - destruct H as (c & s' & _ & _ & ->). exists []. split; [reflexivity|constructor].
  - destruct H as (a & s' & _ & _ & _ & _ & ->). exists []. split; [reflexivity|constructor].
  - subst st'. exists []. split; [reflexivity|constructor].
  - destruct H as (mid & Ha & Hb).
    destruct (IHa _ _ Ha) as (na & Ea & Fa). destruct (IHb _ _ Hb) as (nb & Eb & Fb).
    exists (nb ++ na)%list. split.
    + rewrite Eb, Ea. apply app_assoc.
    + apply Forall_app. split; eapply Forall_impl; try eassumption;
        intros e He; apply in_or_app; auto.
  - destruct H as [H|H]; [destruct (IHa _ _ H) as (n & E & F)
                         |destruct (IHb _ _ H) as (n & E & F)];
      exists n; (split; [exact E|]); eapply Forall_impl; try eassumption;
      intros e He; apply in_or_app; auto.
  - destruct H as (mid & Ha & ->). destruct (IHa _ _ Ha) as (n & E & F).
    exists ((i, consumed (m_rest st) (m_rest mid)) :: n). cbn [m_caps]. split.
    + rewrite E. reflexivity.
    + constructor; [left; reflexivity|].
      eapply Forall_impl; try eassumption. intros e He. right. exact He.
  - destruct H as [-> _]. exists []. split; [reflexivity|constructor].
  - destruct H as [-> _]. exists []. split; [reflexivity|constructor].
  - destruct H as [-> _]. exists []. split; [reflexivity|constructor].
Qed.

Lemma cap_new (i : nat) (G : list nat) (new c : list (nat * string)) :
  Forall (fun e => In (fst e) G) new -> ~ In i G -> cap i (new ++ c) = cap i c.
Proof.
  intros Hnew Hi. induction Hnew as [|[j t] new Hj _ IH]; [reflexivity|].
  cbn [app cap]. destruct (Nat.eqb_spec i j) as [->|_]; [contradiction|exact IH].
Qed.

Lemma run_same_caps (r : regex) (st st' : mstate) :
  groups r = [] -> run r st st' -> m_caps st' = m_caps st.
Proof.
  intros Hg H. destruct (run_caps r _ _ H) as (new & E & F). rewrite Hg in F.
  destruct new as [|e new]; [exact E|].
  apply Forall_cons in F. destruct F as [[] _].
Qed.

(** What a pattern of letters in either case matches. *)
Lemma lit_i_matches (w : string) :
  forall p s q s', matches (lit_i w) p s q s' ->
    exists m, s = m ++ s' /\ toLowerCase m = toLowerCase w.
Proof.
  induction w as [|c w IH]; intros p s q s' H; cbn [lit_i matches] in H.
  - destruct H as [_ ->]. exists "". auto.
  - destruct H as (q1 & t1 & (x & -> & Hx & _) & Hw). apply IH in Hw.
    destruct Hw as (m & -> & Hm). exists (String x m). split; [reflexivity|].
    cbn [toLowerCase]. unfold chr_i in Hx. apply Ascii.eqb_eq in Hx.
    rewrite Hx, Hm. reflexivity.
Qed.

Lemma capitalize_of_lower (m w : string) :
  toLowerCase m = toLowerCase w -> capitalize m = capitalize w.
Proof.
  destruct m as [|c m], w as [|c' w]; cbn [toLowerCase capitalize]; try discriminate;
    [reflexivity|].
  intros [= Hc Hm]. rewrite <- (upper_lower c), Hc, upper_lower, Hm. reflexivity.
Qed.

(** The text a run of [dayAbbrev] takes is an abbreviation of a day,
    whatever its letter case. *)
Lemma dayAbbrev_run (st mid : mstate) :
  run dayAbbrev st mid ->
  m_caps mid = m_caps st /\
  In (capitalize (consumed (m_rest st) (m_rest mid))) dayAbbrs.
Proof.
  intros H. split; [apply (run_same_caps dayAbbrev _ _ eq_refl H)|].
  apply run_matches in H. unfold dayAbbrev in H. cbn [alt matches] in H.
  assert (Hw : exists w, In w dayAbbrs /\
                matches (lit_i w) (m_prev st) (m_rest st) (m_prev mid) (m_rest mid)).
  { unfold dayAbbrs. cbn [In].
    destruct H as [H|[H|[H|[H|[H|[H|H]]]]]]; eexists; (split; [|exact H]); tauto. }
  destruct Hw as (w & Hin & Hm). apply lit_i_matches in Hm.
  destruct Hm as (m & -> & Hlow). rewrite consumed_append.
  rewrite (capitalize_of_lower _ _ Hlow).
  unfold dayAbbrs in Hin |- *. cbn [In] in Hin |- *.
  repeat (destruct Hin as [<-|Hin]; [vm_compute; tauto|]). contradiction.
Qed.

Lemma in_firstn (A : Type) (n : nat) (l : list A) (x : A) :
  In x (firstn n l) -> In x l.
Proof.
  intros H. rewrite <- (firstn_skipn n l). apply in_or_app. left. exact H.
Qed.

Lemma in_skipn (A : Type) (n : nat) (l : list A) (x : A) :
  In x (skipn n l) -> In x l.
Proof.
  intros H. rewrite <- (firstn_skipn n l). apply in_or_app. right. exact H.
Qed.

Lemma getDayRange_weekDays (s e d : string) :
  In d (getDayRange s e) -> In d weekDays.
Proof.
  unfold getDayRange.
  destruct (indexOf _ weekDays) as [i|]; [|intros []].
  destruct (indexOf _ weekDays) as [j|]; [|intros []].
  intros H. apply in_firstn, in_skipn in H. exact H.
Qed.

Lemma capitalize_weekDay (d : string) : In d weekDays -> capitalize d = d.
Proof.
  unfold weekDays. cbn [In]. intros H.
  repeat (destruct H as [<-|H]; [reflexivity|]). contradiction.
Qed.

(** The captures of a match of the hours pattern: the first day is an
    abbreviation, the second is one too when it is there. *)
Lemma hoursPattern1_captures (prev : option ascii) (s : string) (f : found) :
  match_here hoursPattern1 prev s = Some f ->
  (exists d1, cap 1 (f_caps f) = Some d1 /\ In (capitalize d1) dayAbbrs) /\
  (cap 2 (f_caps f) = None \/
   exists d2, cap 2 (f_caps f) = Some d2 /\ In (capitalize d2) dayAbbrs).
Proof.
  unfold match_here. intros H. apply rmatch_sound in H.
  destruct H as (st' & Hrun & H). injection H as <-. cbn [f_caps].
  unfold hoursPattern1 in Hrun.
  change (seq [RGrp 1 dayAbbrev; opt (lit_i "day"); star (space_or "-");
               opt (RGrp 2 dayAbbrev); opt (lit_i "day"); star (space_or ":");
               RGrp 3 clockTime; star is_space; anyDash; star is_space;
               RGrp 4 clockTime])
    with (RSeq (RGrp 1 dayAbbrev)
            (RSeq (opt (lit_i "day"))
               (RSeq (star (space_or "-"))
                  (RSeq (opt (RGrp 2 dayAbbrev))
                     (seq [opt (lit_i "day"); star (space_or ":"); RGrp 3 clockTime;
                           star is_space; anyDash; star is_space; RGrp 4 clockTime])))))
    in Hrun.
  set (rest := seq _) in Hrun. cbn [run] in Hrun.
  destruct Hrun as (m1 & (mid & Hday & ->) & m2 & H2 & m3 & H3 & m4 & H4 & Hrest).
  apply dayAbbrev_run in Hday. cbn [m_caps m_rest] in Hday.
  destruct Hday as [Hc1 Hd1].
  apply (run_same_caps (opt (lit_i "day")) _ _ eq_refl) in H2.
  apply (run_same_caps (star (space_or "-")) _ _ eq_refl) in H3.
  cbn [m_caps] in H2. rewrite Hc1 in H2. rewrite H2 in H3.
  destruct (run_caps rest _ _ Hrest) as (new & Enew & Fnew).
  assert (Hg : groups rest = [3; 4]%nat) by reflexivity. rewrite Hg in Fnew.
  rewrite Enew.
  rewrite !(cap_new _ [3; 4]%nat new) by (assumption || (cbn [In]; lia)).
  unfold opt in H4. cbn [run] in H4.
  destruct H4 as [(mid2 & Hday2 & ->)| ->].
  - apply dayAbbrev_run in Hday2. destruct Hday2 as [Hc2 Hd2].
    cbn [m_caps]. rewrite Hc2, H3. cbn [cap Nat.eqb]. split; eauto.
  - rewrite H3. cbn [cap Nat.eqb]. split; eauto.
Qed.

(** X23: every opening-hours node that the extractor of [scraper.ts]
    builds from a text has, as its day, the full name of a day of the week
    or a three-letter abbreviation with its first letter a capital,
    whatever the text and the letter case in it. *)
Theorem parseOpeningHours_days (hoursText : string) (node : hours) :
  In node (parseOpeningHours hoursText) ->
  In (dayOfWeek node) (weekDays ++ dayAbbrs).
Proof.
  unfold parseOpeningHours. intros H. apply in_flat_map in H.
  destruct H as (f & Hf & Hnode).
  apply (exec_all_found hoursPattern1
           (fun f => (exists d1, cap 1 (f_caps f) = Some d1 /\ In (capitalize d1) dayAbbrs) /\
                     (cap 2 (f_caps f) = None \/
                      exists d2, cap 2 (f_caps f) = Some d2 /\ In (capitalize d2) dayAbbrs))
           hoursPattern1_captures) in Hf.
  destruct Hf as [(d1 & E1 & H1) H2].
  unfold hoursOfMatch, group in Hnode. rewrite E1 in Hnode. cbn [default] in Hnode.
  apply in_map_iff in Hnode. destruct Hnode as (day & <- & Hday). cbn [dayOfWeek].
  apply in_or_app.
  assert (Hsingle : In day [d1] -> In (capitalize day) weekDays \/ In (capitalize day) dayAbbrs).
  { intros [<-|[]]. right. exact H1. }
  destruct H2 as [E2|(d2 & E2 & _)]; rewrite E2 in Hday; [apply Hsingle, Hday|].
  destruct (d2 =? ""); [apply Hsingle, Hday|].
  left. apply getDayRange_weekDays in Hday. rewrite (capitalize_weekDay _ Hday). exact Hday.
Qed.

End ExtractedDays.

(** ** The properties at work *)

Lemma scraper_formatPhoneNumber_agrees_witness :
  Scraper.formatPhoneNumber "(512) 555-0143" <> "(512) 555-0143" /\
  Scraper.formatPhoneNumber "(512) 555-0143" = formatPhoneNumber "(512) 555-0143".
Proof.
  split; [vm_compute; discriminate|].
  apply (proj1 (scraper_formatPhoneNumber_agrees "(512) 555-0143")).
  vm_compute. discriminate.
Defined.

Lemma isValidTimeFormat_clock24_witness :
  ascii_only " 9:30 " = true /\ isValidTimeFormat " 9:30 " = true /\
  is_clock24 (trim " 9:30 ").
Proof.
  assert (H : isValidTimeFormat " 9:30 " = true) by (vm_compute; reflexivity).
  split; [reflexivity|]. split; [exact H|].
  apply (proj1 (isValidTimeFormat_clock24 " 9:30 " eq_refl) H).
Defined.

Lemma isValidEmail_shape_witness :
  isValidEmail "info@chez-nous.example" = true /\
  exists l d t, "info@chez-nous.example" = l ++ "@" ++ d ++ "." ++ t /\
                email_part l /\ email_part d /\ email_part t.
Proof.
  assert (H : isValidEmail "info@chez-nous.example" = true) by (vm_compute; reflexivity).
  split; [exact H|].
  apply (proj1 (isValidEmail_shape "info@chez-nous.example" eq_refl) H).
Defined.

Lemma detectPriceRange_four_tiers_witness :
  detectPriceRange "Austin" "Restaurant" (Some "Chez Nous") None = Own "$$$" /\
  In "$$$" tiers4 /\ validatePriceRange "$$$" = "$$$".
Proof.
  assert (H : detectPriceRange "Austin" "Restaurant" (Some "Chez Nous") None = Own "$$$")
    by (vm_compute; reflexivity).
  split; [exact H|].
  pose proof (detectPriceRange_four_tiers "Austin" "Restaurant" (Some "Chez Nous") None
                eq_refl eq_refl eq_refl) as T.
  try rewrite H in T. exact T.
Defined.

Lemma inferPostalCodeFromCity_valid_witness :
  inferPostalCodeFromCity "Boston" = Own "02101" /\
  isValidPostalCode "02101" "US" = Ok true.
Proof.
  assert (H : inferPostalCodeFromCity "Boston" = Own "02101") by (vm_compute; reflexivity).
  split; [exact H|].
  pose proof (inferPostalCodeFromCity_valid "Boston" eq_refl) as T.
  try rewrite H in T. exact T.
Defined.

Lemma inferStateFromCity_code_witness :
  inferStateFromCity " Austin" = Own "TX" /\ state_code "TX" = true.
Proof.
  assert (H : inferStateFromCity " Austin" = Own "TX") by (vm_compute; reflexivity).
  split; [exact H|].
  pose proof (proj2 (inferStateFromCity_code " Austin" eq_refl)) as T.
  try rewrite H in T. exact T.
Defined.

Lemma validateFormData_untouched_fields_witness :
  ~ In "name" adjustedFields /\
  exists r, validateFormData http_URL_parses (formObject sampleForm) true = Ok r /\
            cleanedData r !! "name" = Some (VStr "Chez Nous").
Proof.
  assert (Hform : ascii_form sampleForm).
  { apply (bool_decide_unpack _). vm_compute. exact I. }
  assert (Hplain : plain_names sampleForm) by (repeat split; vm_compute; reflexivity).
  assert (H : ~ In "name" adjustedFields).
  { unfold adjustedFields. cbn [In]. intros H.
    repeat (destruct H as [H|H]; [discriminate H|]). exact H. }
  split; [exact H|].
  destruct (validateFormData_untouched_fields http_URL_parses sampleForm true "name" Hform)
    as (Hret & Hout).
  destruct (Hret Hplain) as [r Hr]. exists r. split; [exact Hr|].
  rewrite (proj1 (Hout r Hr) H). vm_compute. reflexivity.
Defined.

Lemma validateFormData_lenient_validity_witness :
  sampleForm !! "email" = Some "chez-nous-at-example" /\
  exists r, validateFormData http_URL_parses (formObject sampleForm) true = Ok r /\
            isValid r = true.
Proof.
  assert (Hform : ascii_form sampleForm).
  { apply (bool_decide_unpack _). vm_compute. exact I. }
  assert (Hplain : plain_names sampleForm) by (repeat split; vm_compute; reflexivity).
  split; [vm_compute; reflexivity|].
  destruct (validateFormData_lenient_validity http_URL_parses sampleForm Hform)
    as (Hret & Hout).
  destruct (Hret Hplain) as [r Hr]. exists r. split; [exact Hr|].
  rewrite (Hout r Hr). vm_compute. reflexivity.
Defined.

Lemma cleanObject_pruned_witness :
  cleanObject http_URL_parses sparseDocument = Ok sparseDocumentCleaned /\
  pruned sparseDocumentCleaned = true.
Proof.
  split; [vm_compute; reflexivity|].
  apply (cleanObject_pruned http_URL_parses sparseDocument). vm_compute. reflexivity.
Defined.

(** An own key [__proto__]: a text under it is dropped, an object under it
    takes the run outside the documents of own properties. *)
Example cleanObject_proto_key :
  cleanObject http_URL_parses (VObj [("a", VStr "b"); ("__proto__", VStr "p")])
  = Ok (VObj [("a", VStr "b")]) /\
  cleanObject http_URL_parses
    (VObj [("x", VObj [("__proto__", VObj [("@type", VStr "Thing")])])])
  = Outside.
Proof. split; vm_compute; reflexivity. Qed.

Lemma opening_hours_node_checked_witness :
  Obj.get "@type" closedHoursNode = VStr "OpeningHoursSpecification" /\
  truthy (Obj.get "opens" closedHoursNode) = false /\
  cleanObject http_URL_parses (VObj closedHoursNode) = Ok VNull.
Proof.
  split; [reflexivity|]. split; [reflexivity|].
  apply (proj1 (opening_hours_node_checked http_URL_parses closedHoursNode eq_refl)).
  reflexivity.
Defined.

Lemma form_opening_hours_removed_witness :
  formOpeningHours "Tue: 9-17" = Some [Hours "Tue" "9" "17"] /\
  cleanObject http_URL_parses (VArr (map hoursNode [Hours "Tue" "9" "17"])) = Ok (VArr []).
Proof.
  split; [vm_compute; reflexivity|].
  apply (proj2 (form_opening_hours_removed http_URL_parses "Tue: 9-17"
                  [Hours "Tue" "9" "17"] ltac:(vm_compute; reflexivity))).
Defined.

Lemma convertTo24Hour_clock_witness :
  (5 < 60)%nat /\ In "9" (hour_texts 9) /\ In " PM" (period_texts true) /\
  convertTo24Hour ("9" ++ ":" ++ two_digits 5 ++ " PM") = clock (hour24 9 true) 5.
Proof.
  assert (Hh : In "9" (hour_texts 9)) by (left; reflexivity).
  assert (Hp : In " PM" (period_texts true)) by (right; left; reflexivity).
  split; [lia|]. split; [exact Hh|]. split; [exact Hp|].
  apply (proj2 (convertTo24Hour_clock 9 5 "9" ltac:(lia) Hh) true " PM"); [lia|exact Hp].
Defined.

Lemma getDayRange_days_witness :
  getDayRange "Mon" "Wed" <> [] /\
  In "Mon" (weekDays ++ dayAbbrs) /\ In "Wed" (weekDays ++ dayAbbrs).
Proof.
  assert (H : getDayRange "Mon" "Wed" <> []) by (vm_compute; discriminate).
  split; [exact H|]. apply (proj1 getDayRange_days "Mon" "Wed" H).
Defined.

Lemma capitalize_case_witness :
  ascii_only "mONDAY" = true /\ capitalize (toUpperCase "mONDAY") = capitalize "mONDAY".
Proof.
  split; [reflexivity|]. apply (proj1 (capitalize_case "mONDAY" eq_refl)).
Defined.

Lemma processFAQData_answers_witness :
  List.filter nonBlank (splitLines faqQuestions) !! 1%nat = Some "2. Do you deliver?" /\
  List.filter nonBlank (splitLines faqAnswers) !! 1%nat = Some "Within five miles." /\
  processFAQData faqQuestions faqAnswers !! 1%nat
  = Some (faqNode "Do you deliver?" "Within five miles.").
Proof.
  assert (H : List.filter nonBlank (splitLines faqQuestions) !! 1%nat
              = Some "2. Do you deliver?") by (vm_compute; reflexivity).
  split; [exact H|]. split; [vm_compute; reflexivity|].
  pose proof (processFAQData_answers http_URL_parses faqQuestions faqAnswers
                eq_refl eq_refl) as T.
  cbv zeta in T. exact (proj1 (proj2 T 1%nat _ H)).
Defined.

Lemma generateLocalSEOMetaTags_empty_witness :
  describedForm !! "description" = Some "Family bistro" /\
  includes (generateLocalSEOMetaTags describedForm) (quote ++ "Family bistro" ++ quote)
  = true.
Proof.
  assert (H : describedForm !! "description" = Some "Family bistro")
    by (vm_compute; reflexivity).
  split; [exact H|].
  apply (proj2 (generateLocalSEOMetaTags_empty describedForm) "Family bistro" H).
  discriminate.
Defined.

Lemma validateSchema_messages_witness :
  Schema.validateSchema http_URL_parses (VObj namelessBusiness) = Ok namelessReport /\
  In "Missing @context property" (Schema.errors namelessReport) /\
  "Missing @context property" <> "Business entity is missing".
Proof.
  assert (H : Schema.validateSchema http_URL_parses (VObj namelessBusiness)
              = Ok namelessReport) by (vm_compute; reflexivity).
  assert (Hin : In "Missing @context property" (Schema.errors namelessReport))
    by (left; reflexivity).
  split; [exact H|]. split; [exact Hin|].
  apply (proj2 (validateSchema_messages http_URL_parses _ _ _ H eq_refl Hin)).
Defined.


Lemma extractPostalCode_valid_witness :
  extractPostalCode "12 Elm St, Austin TX 78701" "US" = Ok (Some "78701") /\
  isValidPostalCode "78701" "US" = Ok true.
Proof.
  assert (H : extractPostalCode "12 Elm St, Austin TX 78701" "US" = Ok (Some "78701"))
    by (vm_compute; reflexivity).
  split; [exact H|].
  apply (proj2 (proj2 (extractPostalCode_valid "12 Elm St, Austin TX 78701" "US" "78701"
                         eq_refl eq_refl H))).
Defined.

Lemma parseOpeningHours_days_witness :
  In (Hours "Sat" "10:00" "14:00") (parseOpeningHours "sat 10:00 AM - 2:00 PM") /\
  In "Sat" (weekDays ++ dayAbbrs).
Proof.
  assert (H : In (Hours "Sat" "10:00" "14:00")
                (parseOpeningHours "sat 10:00 AM - 2:00 PM"))
    by (vm_compute; left; reflexivity).
  split; [exact H|]. apply (parseOpeningHours_days _ _ H).
Defined.

Lemma cleanObject_untyped_idempotent_witness :
  untyped sparseDocument = true /\
  cleanObject http_URL_parses sparseDocument = Ok sparseDocumentCleaned /\
  cleanObject http_URL_parses sparseDocumentCleaned = Ok sparseDocumentCleaned.
Proof.
  assert (H : cleanObject http_URL_parses sparseDocument = Ok sparseDocumentCleaned)
    by (vm_compute; reflexivity).
  split; [reflexivity|]. split; [exact H|].
  apply (cleanObject_untyped_idempotent http_URL_parses sparseDocument _ eq_refl H).
Defined.

Lemma validateSchema_business_name_witness :
  Schema.validateSchema http_URL_parses (VObj namelessBusiness) = Ok namelessReport /\
  In "Business schema missing name property" (Schema.errors namelessReport).
Proof.
  assert (H : Schema.validateSchema http_URL_parses (VObj namelessBusiness)
              = Ok namelessReport) by (vm_compute; reflexivity).
  split; [exact H|].
  apply (proj1 (validateSchema_business_name http_URL_parses namelessBusiness _
                  ltac:(vm_compute; reflexivity) eq_refl H)).
Defined.

Lemma validateSchema_accepts_witness :
  Schema.validateSchema http_URL_parses howToDocument = Ok (Schema.Report true []) /\
  exists step steps, prop howToDocument "step" = VArr (step :: steps).
Proof.
  assert (H : Schema.validateSchema http_URL_parses howToDocument
              = Ok (Schema.Report true [])) by (vm_compute; reflexivity).
  split; [exact H|].
  pose proof (validateSchema_accepts http_URL_parses _ _ H eq_refl) as T.
  apply (proj2 (proj2 (proj2 (proj2 (proj2 T))))). reflexivity.
Defined.
